(** * Chaincode record stores of fabric-samples: loan, Pokemon and identity contracts

    A shallow embedding of the three Go contracts

    - [src/bankcontract/main.go]            (loan applications),
    - [src/unnamed/part_000]                (Pokemon assets),
    - [src/afrazcontract/identitycontract.go] (identities),

    together with the parts of their environment they call: the chaincode
    stub (world state, range scan, key history) and [encoding/json], and of
    the identity gateway [src/unnamed/part_001], which submits the identity
    contract's transactions.

    Go strings and byte slices are byte sequences: both are [string] here
    (a list of 8-bit [ascii]).  Go's [int] is a 64-bit integer kept in [Z]
    with its wrap-around written out.  A [float64] is its IEEE-754 bit
    pattern. *)

From Stdlib Require Import ZArith List String Ascii Lia Bool.
From Stdlib Require Import DecimalString DecimalZ DecimalPos.
From stdpp Require Import base option list gmap strings sorting.

Local Open Scope string_scope.
Local Open Scope list_scope.
Local Open Scope Z_scope.

Abbreviation bytes := string (only parsing).

(** ** Errors

    The contracts build their errors with [fmt.Errorf]; the remaining
    errors come from [encoding/json] and from the stub. *)

Inductive error : Type :=
  | ErrAlreadyExists (what id : string)   (* "<what> <id> already exists" *)
  | ErrDoesNotExist (what id : string)    (* "<what> <id> does not exist" *)
  | ErrAlreadyEvolved (id : string)       (* "Pokemon <id> is already evolved" *)
  | ErrReadWorldState (cause : error)     (* "failed to read from world state: <cause>" *)
  | ErrPutWorldState (cause : error)      (* "failed to put to world state: <cause>" *)
  | ErrUnsupportedValue                   (* json.UnsupportedValueError *)
  | ErrSyntax                             (* json.SyntaxError *)
  | ErrUnmarshalType (field : string)     (* json.UnmarshalTypeError *)
  | ErrStub (msg : string).               (* an error of the stub itself *)

(** The text [err.Error()] returns: for the contracts' own errors the text
    [fmt.Errorf] builds, for those of encoding/json a short form. *)
Fixpoint Error (e : error) : string :=
  match e with
  | ErrAlreadyExists what id => what +:+ " " +:+ id +:+ " already exists"
  | ErrDoesNotExist what id => what +:+ " " +:+ id +:+ " does not exist"
  | ErrAlreadyEvolved id => "Pokemon " +:+ id +:+ " is already evolved"
  | ErrReadWorldState c => "failed to read from world state: " +:+ Error c
  | ErrPutWorldState c => "failed to put to world state: " +:+ Error c
  | ErrUnsupportedValue => "json: unsupported value"
  | ErrSyntax => "invalid character in JSON input"
  | ErrUnmarshalType f => "json: cannot unmarshal value into Go struct field " +:+ f
  | ErrStub m => m
  end.

(** The error kinds of the specification. *)
Inductive ErrorKind :=
  | AlreadyExistsError | NotFoundError | AlreadyInTargetStateError
  | DeserializationError | SerializationError | InvalidArgumentError
  | InfrastructureError.

Definition kind (e : error) : ErrorKind :=
  match e with
  | ErrAlreadyExists _ _ => AlreadyExistsError
  | ErrDoesNotExist _ _ => NotFoundError
  | ErrAlreadyEvolved _ => AlreadyInTargetStateError
  | ErrReadWorldState _ => InfrastructureError
  | ErrPutWorldState _ => InfrastructureError
  | ErrUnsupportedValue => SerializationError
  | ErrSyntax => DeserializationError
  | ErrUnmarshalType _ => DeserializationError
  | ErrStub _ => InfrastructureError
  end.

Inductive result (A : Type) : Type :=
  | Ok (a : A)
  | Err (e : error).
Arguments Ok {A} a.
Arguments Err {A} e.

Definition is_ok {A} (r : result A) : bool :=
  match r with Ok _ => true | Err _ => false end.

(** ** The chaincode stub

    The contracts reach the ledger only through
    [ctx.GetStub()], an interface.  [S] is the state behind the stub. *)

Record KeyModification := mkKeyModification {
  TxId : string;
  Value : bytes;
  IsDelete : bool
}.

Record KV := mkKV { Key : string; KVValue : bytes }.

Class ChaincodeStub (S : Type) := {
  GetState : string -> S -> result (option bytes);
  PutState : string -> bytes -> S -> result S;
  DelState : string -> S -> result S;
  GetStateByRange : string -> string -> S -> result (list KV);
  GetHistoryForKey : string -> S -> result (list KeyModification)
}.

(** ** Transactions: state and error passing

    A contract method runs against the stub state and returns a value or an
    error, and the state it leaves. *)

Definition Tx (S A : Type) : Type := S -> result A * S.

Definition ret {S A} (a : A) : Tx S A := fun s => (Ok a, s).
Definition fail {S A} (e : error) : Tx S A := fun s => (Err e, s).
Definition bind {S A B} (m : Tx S A) (k : A -> Tx S B) : Tx S B :=
  fun s => match m s with
           | (Ok a, s') => k a s'
           | (Err e, s') => (Err e, s')
           end.
Definition lift {S A} (r : result A) : Tx S A := fun s => (r, s).
(** [fmt.Errorf("...: %v", err)] around a failing call *)
Definition wrap {S A} (f : error -> error) (m : Tx S A) : Tx S A :=
  fun s => match m s with
           | (Err e, s') => (Err (f e), s')
           | r => r
           end.

Fixpoint mapM_result {A B} (f : A -> result B) (l : list A) : result (list B) :=
  match l with
  | [] => Ok []
  | a :: l' =>
    match f a with
    | Err e => Err e
    | Ok b =>
      match mapM_result f l' with
      | Err e => Err e
      | Ok bs => Ok (b :: bs)
      end
    end
  end.

Global Instance tx_ret {S} : MRet (Tx S) := fun A => @ret S A.
Global Instance tx_bind {S} : MBind (Tx S) := fun A B k m => @bind S A B m k.

Section StubCalls.
Context {S : Type} `{ChaincodeStub S}.

Definition getState (key : string) : Tx S (option bytes) :=
  fun s => (GetState key s, s).
Definition putState (key : string) (v : bytes) : Tx S unit :=
  fun s => match PutState key v s with
           | Ok s' => (Ok tt, s')
           | Err e => (Err e, s)
           end.
Definition delState (key : string) : Tx S unit :=
  fun s => match DelState key s with
           | Ok s' => (Ok tt, s')
           | Err e => (Err e, s)
           end.
Definition getStateByRange (startKey endKey : string) : Tx S (list KV) :=
  fun s => (GetStateByRange startKey endKey s, s).
Definition getHistoryForKey (key : string) : Tx S (list KeyModification) :=
  fun s => (GetHistoryForKey key s, s).
End StubCalls.

(** ** The ledger: world state and key history

    The record store of the specification: a map from keys to the live
    serialized value, and for every key the append-only sequence of its
    revisions in commit order.  Every write of a transaction is recorded
    under the transaction's identifier.

    The stub's calls are the platform's, not code of the contracts.  The
    history iterator of [GetHistoryForKey] yields the revisions of a key
    newest first, as the peers of Fabric 2 do, whose shim
    (fabric-chaincode-go) and contract API the contracts import.  No
    contract depends on that order: [GetHistory] passes it on. *)

Record Ledger := mkLedger {
  world : gmap string bytes;
  revisions : gmap string (list KeyModification)
}.

Record Stub := mkStub {
  TxID : string;
  ledger : Ledger
}.

Definition history_of (l : Ledger) (key : string) : list KeyModification :=
  default [] (revisions l !! key).

Definition record_revision (key : string) (m : KeyModification) (l : Ledger)
  : gmap string (list KeyModification) :=
  <[key := history_of l key ++ [m]]> (revisions l).

Definition in_range (startKey endKey key : string) : bool :=
  (if String.eqb startKey "" then true else String.leb startKey key)
  && (if String.eqb endKey "" then true else String.ltb key endKey).

Definition key_le (a b : string * bytes) : Prop :=
  String.leb (fst a) (fst b) = true.

Global Instance key_le_dec : RelDecision key_le.
Proof. intros a b. unfold key_le. apply _. Defined.

Definition ledger_range (startKey endKey : string) (l : Ledger) : list KV :=
  map (fun p => mkKV (fst p) (snd p))
      (merge_sort key_le
         (filter (fun p => in_range startKey endKey (fst p) = true)
                 (map_to_list (world l)))).

Global Instance LedgerStub : ChaincodeStub Stub := {
  GetState key s := Ok (world (ledger s) !! key);
  PutState key v s :=
    Ok (mkStub (TxID s)
          (mkLedger (<[key := v]> (world (ledger s)))
                    (record_revision key (mkKeyModification (TxID s) v false)
                                     (ledger s))));
  DelState key s :=
    Ok (mkStub (TxID s)
          (mkLedger (delete key (world (ledger s)))
                    (record_revision key (mkKeyModification (TxID s) "" true)
                                     (ledger s))));
  GetStateByRange startKey endKey s := Ok (ledger_range startKey endKey (ledger s));
  GetHistoryForKey key s := Ok (rev (history_of (ledger s) key))
}.

(** A transaction proposal: the method runs on a stub for transaction
    [txid]; its writes reach the ledger only when it returns no error. *)
Definition invoke {A} (txid : string) (m : Tx Stub A) (l : Ledger)
  : result A * Ledger :=
  match m (mkStub txid l) with
  | (Ok a, s') => (Ok a, ledger s')
  | (Err e, _) => (Err e, l)
  end.

Definition empty_ledger : Ledger := mkLedger ∅ ∅.

(** ** Bytes, runes and Go's [int]

    A byte is an [ascii]; its numeric value is taken in [Z]. *)

Definition byte_val (a : ascii) : Z := Z.of_N (N_of_ascii a).
Definition byte_of (z : Z) : ascii := ascii_of_N (Z.to_N (z mod 256)).

Definition chr (z : Z) : string := String (byte_of z) "".

Fixpoint sdrop (n : nat) (s : string) : string :=
  match n, s with
  | O, _ => s
  | S n', String _ r => sdrop n' r
  | S _, "" => ""
  end.

Fixpoint stake (n : nat) (s : string) : string :=
  match n, s with
  | O, _ => ""
  | S n', String c r => String c (stake n' r)
  | S _, "" => ""
  end.

(** [int] is 64 bits wide on the platforms chaincode runs on. *)
Definition MinInt64 : Z := - 2 ^ 63.
Definition MaxInt64 : Z := 2 ^ 63 - 1.
Definition wrap64 (z : Z) : Z := (z + 2 ^ 63) mod 2 ^ 64 - 2 ^ 63.
Definition is_int (z : Z) : bool := (MinInt64 <=? z) && (z <=? MaxInt64).

(** A [float64] is its 64-bit pattern: sign, 11 exponent bits, 52 fraction
    bits.  Not-a-number and the infinities have all exponent bits set. *)
Definition float64 := Z.
Definition float64_exponent (f : float64) : Z := Z.land (Z.shiftr f 52) 0x7FF.
Definition IsInfOrNaN (f : float64) : bool := float64_exponent f =? 0x7FF.
Definition is_float64 (f : float64) : bool := (0 <=? f) && (f <? 2 ^ 64).

(** *** unicode/utf8 *)

Definition RuneError : Z := 0xFFFD.
Definition RuneSelf : Z := 0x80.
Definition MaxRune : Z := 0x10FFFF.
Definition UTFMax : nat := 4.
Definition surrogateMin : Z := 0xD800.
Definition surrogateMax : Z := 0xDFFF.

(** What the tables [first] and [acceptRanges] of the package say about a
    leading byte: plain ASCII, never a leading byte, or the leader of a
    sequence of [size] bytes whose second byte lies in [lo..hi]. *)
Inductive leader :=
  | LeadASCII
  | LeadInvalid
  | Lead (size : nat) (lo hi : Z).

Definition first (b : Z) : leader :=
  if b <? 0x80 then LeadASCII
  else if b <? 0xC2 then LeadInvalid
  else if b <? 0xE0 then Lead 2 0x80 0xBF
  else if b =? 0xE0 then Lead 3 0xA0 0xBF
  else if b <? 0xED then Lead 3 0x80 0xBF
  else if b =? 0xED then Lead 3 0x80 0x9F
  else if b <? 0xF0 then Lead 3 0x80 0xBF
  else if b =? 0xF0 then Lead 4 0x90 0xBF
  else if b <? 0xF4 then Lead 4 0x80 0xBF
  else if b =? 0xF4 then Lead 4 0x80 0x8F
  else LeadInvalid.

Definition locb : Z := 0x80.
Definition hicb : Z := 0xBF.
Definition maskx : Z := 0x3F.
Definition mask2 : Z := 0x1F.
Definition mask3 : Z := 0x0F.
Definition mask4 : Z := 0x07.

(** [utf8.DecodeRuneInString]: the first rune of [s] and its width;
    [(RuneError, 1)] on an invalid encoding, [(RuneError, 0)] on [""]. *)
Definition DecodeRuneInString (s : string) : Z * nat :=
  match s with
  | "" => (RuneError, 0%nat)
  | String c0 r0 =>
    let s0 := byte_val c0 in
    match first s0 with
    | LeadASCII => (s0, 1%nat)
    | LeadInvalid => (RuneError, 1%nat)
    | Lead sz lo hi =>
      if (String.length s <? sz)%nat then (RuneError, 1%nat) else
      match r0 with
      | "" => (RuneError, 1%nat)
      | String c1 r1 =>
        let s1 := byte_val c1 in
        if (s1 <? lo) || (hi <? s1) then (RuneError, 1%nat) else
        if (sz <=? 2)%nat then
          (Z.lor (Z.shiftl (Z.land s0 mask2) 6) (Z.land s1 maskx), 2%nat)
        else
        match r1 with
        | "" => (RuneError, 1%nat)
        | String c2 r2 =>
          let s2 := byte_val c2 in
          if (s2 <? locb) || (hicb <? s2) then (RuneError, 1%nat) else
          if (sz <=? 3)%nat then
            (Z.lor (Z.lor (Z.shiftl (Z.land s0 mask3) 12)
                          (Z.shiftl (Z.land s1 maskx) 6))
                   (Z.land s2 maskx), 3%nat)
          else
          match r2 with
          | "" => (RuneError, 1%nat)
          | String c3 _ =>
            let s3 := byte_val c3 in
            if (s3 <? locb) || (hicb <? s3) then (RuneError, 1%nat) else
            (Z.lor (Z.lor (Z.lor (Z.shiftl (Z.land s0 mask4) 18)
                                 (Z.shiftl (Z.land s1 maskx) 12))
                          (Z.shiftl (Z.land s2 maskx) 6))
                   (Z.land s3 maskx), 4%nat)
          end
        end
      end
    end
  end.

(** [utf8.AppendRune] on an empty buffer: the UTF-8 encoding of [r];
    surrogates and values out of range are written as [RuneError]. *)
Definition encode3 (r : Z) : string :=
  String (byte_of (Z.lor 0xE0 (Z.shiftr r 12)))
    (String (byte_of (Z.lor 0x80 (Z.land (Z.shiftr r 6) maskx)))
       (String (byte_of (Z.lor 0x80 (Z.land r maskx))) "")).

Definition EncodeRune (r : Z) : string :=
  if (0 <=? r) && (r <=? 0x7F) then chr r
  else if (0 <=? r) && (r <=? 0x7FF) then
    String (byte_of (Z.lor 0xC0 (Z.shiftr r 6)))
      (String (byte_of (Z.lor 0x80 (Z.land r maskx))) "")
  else if (r <? 0) || (MaxRune <? r)
          || ((surrogateMin <=? r) && (r <=? surrogateMax)) then
    encode3 RuneError
  else if r <=? 0xFFFF then encode3 r
  else
    String (byte_of (Z.lor 0xF0 (Z.shiftr r 18)))
      (String (byte_of (Z.lor 0x80 (Z.land (Z.shiftr r 12) maskx)))
         (String (byte_of (Z.lor 0x80 (Z.land (Z.shiftr r 6) maskx)))
            (String (byte_of (Z.lor 0x80 (Z.land r maskx))) ""))).

(** [utf8.ValidString], and what [encoding/json] makes of a string: every
    byte that starts no valid encoding becomes U+FFFD, one for each byte. *)
Fixpoint ValidString_loop (fuel : nat) (s : string) : bool :=
  match fuel with
  | O => true
  | S fuel' =>
    match s with
    | "" => true
    | String _ r =>
      let '(c, size) := DecodeRuneInString (stake UTFMax s) in
      if (c =? RuneError) && (size =? 1)%nat then false
      else ValidString_loop fuel' (sdrop size s)
    end
  end.
Definition ValidString (s : string) : bool :=
  ValidString_loop (String.length s) s.

Fixpoint CoerceUTF8_loop (fuel : nat) (s : string) : string :=
  match fuel with
  | O => ""
  | S fuel' =>
    match s with
    | "" => ""
    | String _ r =>
      let '(c, size) := DecodeRuneInString (stake UTFMax s) in
      if (c =? RuneError) && (size =? 1)%nat
      then EncodeRune RuneError +:+ CoerceUTF8_loop fuel' r
      else stake size s +:+ CoerceUTF8_loop fuel' (sdrop size s)
    end
  end.
Definition CoerceUTF8 (s : string) : string :=
  CoerceUTF8_loop (String.length s) s.

(** *** strconv *)

Definition FormatInt (z : Z) : string := NilZero.string_of_int (Z.to_int z).

Definition ParseInt (lit : string) : option Z :=
  match NilZero.int_of_string lit with
  | Some d => let v := Z.of_int d in if is_int v then Some v else None
  | None => None
  end.

Definition is_digit (c : ascii) : bool :=
  (48 <=? byte_val c) && (byte_val c <=? 57).

Fixpoint skip_digits (s : string) : string :=
  match s with
  | String c r => if is_digit c then skip_digits r else s
  | "" => ""
  end.

(** [isValidNumber] of encoding/json: the number grammar of JSON. *)
Definition isValidNumber (s : string) : bool :=
  match s with
  | "" => false
  | String c0 r0 =>
    let s1 := if Ascii.eqb c0 "-" then r0 else s in
    match s1 with
    | "" => false
    | String d r1 =>
      if is_digit d then
        let s2 := if Ascii.eqb d "0" then r1 else skip_digits r1 in
        let s3 := match s2 with
                  | String "." (String d' r) =>
                      if is_digit d' then skip_digits r else s2
                  | _ => s2
                  end in
        match s3 with
        | String e (String c r) =>
          if Ascii.eqb e "e" || Ascii.eqb e "E" then
            if Ascii.eqb c "+" || Ascii.eqb c "-" then
              match r with
              | "" => false
              | _ => String.eqb (skip_digits r) ""
              end
            else String.eqb (skip_digits (String c r)) ""
          else false
        | "" => true
        | _ => false
        end
      else false
    end
  end.

(** The text of a [float64].  [FormatFloat f] is what the encoder appends
    for a finite [f] ([strconv.AppendFloat] with precision -1, in the
    format and with the exponent clean-up of encoding/json), [ParseFloat]
    is [strconv.ParseFloat] on a number literal, [None] when it reports an
    error.  The shortest-digits algorithm is not reproduced; what strconv
    documents about it is kept: the text is a JSON number, it parses back
    to the same value, and a JSON number never parses to an infinity or to
    not-a-number (a literal out of range is an error). *)
Class Strconv := {
  FormatFloat : float64 -> string;
  ParseFloat : string -> option float64;
  FormatFloat_number : forall f,
    is_float64 f = true -> IsInfOrNaN f = false ->
    isValidNumber (FormatFloat f) = true;
  ParseFloat_FormatFloat : forall f,
    is_float64 f = true -> IsInfOrNaN f = false ->
    ParseFloat (FormatFloat f) = Some f;
  ParseFloat_finite : forall lit f,
    isValidNumber lit = true -> ParseFloat lit = Some f ->
    is_float64 f = true /\ IsInfOrNaN f = false
}.

(** ** encoding/json: the encoder *)

Definition hex : string := "0123456789abcdef".
Definition hexdigit (n : Z) : ascii :=
  match String.get (Z.to_nat n) hex with Some c => c | None => "0"%char end.

Definition quote : ascii := "034"%char.
Definition backslash : ascii := "092"%char.

(** [htmlSafeSet]: the ASCII bytes written as they are. *)
Definition htmlSafeSet (b : Z) : bool :=
  (0x20 <=? b) && (b <? 0x80)
  && negb (b =? 34) && negb (b =? 92)
  && negb (b =? 60) && negb (b =? 62) && negb (b =? 38).

Definition escapeByte (c : ascii) : string :=
  let b := byte_val c in
  if (b =? 92) || (b =? 34) then String backslash (String c "")
  else if b =? 8 then "\b"
  else if b =? 12 then "\f"
  else if b =? 10 then "\n"
  else if b =? 13 then "\r"
  else if b =? 9 then "\t"
  else "\u00" +:+ String (hexdigit (Z.shiftr b 4))
                     (String (hexdigit (Z.land b 0xF)) "").

Fixpoint appendString_loop (fuel : nat) (src : string) : string :=
  match fuel with
  | O => ""
  | S fuel' =>
    match src with
    | "" => ""
    | String c rest =>
      if byte_val c <? RuneSelf then
        (if htmlSafeSet (byte_val c) then String c "" else escapeByte c)
        +:+ appendString_loop fuel' rest
      else
        let '(r, size) := DecodeRuneInString (stake UTFMax src) in
        if (r =? RuneError) && (size =? 1)%nat then
          "\ufffd" +:+ appendString_loop fuel' (sdrop size src)
        else if (r =? 0x2028) || (r =? 0x2029) then
          "\u202" +:+ String (hexdigit (Z.land r 0xF)) ""
          +:+ appendString_loop fuel' (sdrop size src)
        else
          stake size src +:+ appendString_loop fuel' (sdrop size src)
    end
  end.

(** [appendString] with [escapeHTML] set, as [json.Marshal] calls it. *)
Definition appendString (src : string) : string :=
  String quote (appendString_loop (String.length src) src +:+ String quote "").

(** ** encoding/json: the decoder

    [json.Unmarshal] first checks that the whole input is one JSON value
    (the scanner), then stores the value into the target.  The value is
    kept here as a tree; number literals keep their text. *)

Set Warnings "-register-all".
Inductive json : Type :=
  | JNull
  | JBool (b : bool)
  | JNumber (lit : string)
  | JString (s : string)
  | JArray (elems : list json)
  | JObject (members : list (string * json)).

Definition isSpace (c : ascii) : bool :=
  let b := byte_val c in (b =? 32) || (b =? 9) || (b =? 13) || (b =? 10).

Fixpoint skip_ws (s : string) : string :=
  match s with
  | String c r => if isSpace c then skip_ws r else s
  | "" => ""
  end.

Definition unhex (c : ascii) : option Z :=
  let b := byte_val c in
  if (48 <=? b) && (b <=? 57) then Some (b - 48)
  else if (97 <=? b) && (b <=? 102) then Some (b - 97 + 10)
  else if (65 <=? b) && (b <=? 70) then Some (b - 65 + 10)
  else None.

(** [getu4]: the rune of a [\uXXXX] escape at the head of [s]. *)
Definition getu4 (s : string) : option Z :=
  match s with
  | String b (String u (String h1 (String h2 (String h3 (String h4 _))))) =>
    if Ascii.eqb b backslash && Ascii.eqb u "u" then
      match unhex h1, unhex h2, unhex h3, unhex h4 with
      | Some a, Some b, Some c, Some d => Some (a * 4096 + b * 256 + c * 16 + d)
      | _, _, _, _ => None
      end
    else None
  | _ => None
  end.

Definition IsSurrogate (r : Z) : bool := (0xD800 <=? r) && (r <? 0xE000).

(** [utf16.DecodeRune] *)
Definition utf16_DecodeRune (r1 r2 : Z) : Z :=
  if (0xD800 <=? r1) && (r1 <? 0xDC00) && (0xDC00 <=? r2) && (r2 <? 0xE000)
  then Z.lor (Z.shiftl (r1 - 0xD800) 10) (r2 - 0xDC00) + 0x10000
  else RuneError.

(** The body of a string literal, after its opening quote: the decoded
    text and what follows the closing quote. *)
Fixpoint unquote (fuel : nat) (s : string) : option (string * string) :=
  match fuel with
  | O => None
  | S fuel' =>
    match s with
    | "" => None
    | String c rest =>
      let b := byte_val c in
      if b =? 34 then Some ("", rest)
      else if b =? 92 then
        match rest with
        | "" => None
        | String e rest' =>
          let simple (x : Z) :=
            match unquote fuel' rest' with
            | Some (t, k) => Some (String (byte_of x) t, k)
            | None => None
            end in
          let eb := byte_val e in
          if (eb =? 34) || (eb =? 92) || (eb =? 47) then simple eb
          else if eb =? 98 then simple 8
          else if eb =? 102 then simple 12
          else if eb =? 110 then simple 10
          else if eb =? 114 then simple 13
          else if eb =? 116 then simple 9
          else if eb =? 117 then
            match getu4 s with
            | None => None
            | Some rr =>
              let after := sdrop 6 s in
              let pair :=
                if IsSurrogate rr then
                  match getu4 after with
                  | Some rr1 =>
                    let dec := utf16_DecodeRune rr rr1 in
                    if dec =? RuneError then None else Some dec
                  | None => None
                  end
                else None in
              match pair with
              | Some dec =>
                match unquote fuel' (sdrop 6 after) with
                | Some (t, k) => Some (EncodeRune dec +:+ t, k)
                | None => None
                end
              | None =>
                let rr' := if IsSurrogate rr then RuneError else rr in
                match unquote fuel' after with
                | Some (t, k) => Some (EncodeRune rr' +:+ t, k)
                | None => None
                end
              end
            end
          else None
        end
      else if b <? 32 then None
      else if b <? RuneSelf then
        match unquote fuel' rest with
        | Some (t, k) => Some (String c t, k)
        | None => None
        end
      else
        let '(rr, size) := DecodeRuneInString (stake UTFMax s) in
        match unquote fuel' (sdrop size s) with
        | Some (t, k) => Some (EncodeRune rr +:+ t, k)
        | None => None
        end
    end
  end.

Definition is_numchar (c : ascii) : bool :=
  is_digit c || Ascii.eqb c "-" || Ascii.eqb c "+" || Ascii.eqb c "."
  || Ascii.eqb c "e" || Ascii.eqb c "E".

Fixpoint span_number (s : string) : string * string :=
  match s with
  | String c r =>
    if is_numchar c then let '(n, k) := span_number r in (String c n, k)
    else ("", s)
  | "" => ("", "")
  end.

Fixpoint strip_prefix (p s : string) : option string :=
  match p with
  | "" => Some s
  | String a p' =>
    match s with
    | String b s' => if Ascii.eqb a b then strip_prefix p' s' else None
    | "" => None
    end
  end.

(** One JSON value at the head of [s] (after white space), and the rest. *)
Fixpoint scan_value (fuel : nat) (s : string) : option (json * string) :=
  match fuel with
  | O => None
  | S fuel' =>
    match skip_ws s with
    | "" => None
    | String c rest =>
      let b := byte_val c in
      if b =? 123 then                                   (* { *)
        match skip_ws rest with
        | String c' rest' =>
          if byte_val c' =? 125 then Some (JObject [], rest')
          else
            match scan_members fuel' (skip_ws rest) with
            | Some (ms, k) => Some (JObject ms, k)
            | None => None
            end
        | "" => None
        end
      else if b =? 91 then                               (* [ *)
        match skip_ws rest with
        | String c' rest' =>
          if byte_val c' =? 93 then Some (JArray [], rest')
          else
            match scan_elements fuel' (skip_ws rest) with
            | Some (es, k) => Some (JArray es, k)
            | None => None
            end
        | "" => None
        end
      else if b =? 34 then
        match unquote (String.length s) rest with
        | Some (t, k) => Some (JString t, k)
        | None => None
        end
      else if (b =? 45) || is_digit c then
        let '(lit, k) := span_number (String c rest) in
        if isValidNumber lit then Some (JNumber lit, k) else None
      else if b =? 116 then
        option_map (pair (JBool true)) (strip_prefix "true" (String c rest))
      else if b =? 102 then
        option_map (pair (JBool false)) (strip_prefix "false" (String c rest))
      else if b =? 110 then
        option_map (pair JNull) (strip_prefix "null" (String c rest))
      else None
    end
  end
(** the members of an object, from the first key to the closing brace *)
with scan_members (fuel : nat) (s : string)
  : option (list (string * json) * string) :=
  match fuel with
  | O => None
  | S fuel' =>
    match s with
    | String c rest =>
      if byte_val c =? 34 then
        match unquote (String.length s) rest with
        | Some (key, k1) =>
          match skip_ws k1 with
          | String colon k2 =>
            if byte_val colon =? 58 then
              match scan_value fuel' k2 with
              | Some (v, k3) =>
                match skip_ws k3 with
                | String d k4 =>
                  if byte_val d =? 125 then Some ([(key, v)], k4)
                  else if byte_val d =? 44 then
                    match scan_members fuel' (skip_ws k4) with
                    | Some (ms, k5) => Some ((key, v) :: ms, k5)
                    | None => None
                    end
                  else None
                | "" => None
                end
              | None => None
              end
            else None
          | "" => None
          end
        | None => None
        end
      else None
    | "" => None
    end
  end
(** the elements of an array, from the first one to the closing bracket *)
with scan_elements (fuel : nat) (s : string) : option (list json * string) :=
  match fuel with
  | O => None
  | S fuel' =>
    match scan_value fuel' s with
    | Some (v, k1) =>
      match skip_ws k1 with
      | String d k2 =>
        if byte_val d =? 93 then Some ([v], k2)
        else if byte_val d =? 44 then
          match scan_elements fuel' k2 with
          | Some (es, k3) => Some (v :: es, k3)
          | None => None
          end
        else None
      | "" => None
      end
    | None => None
    end
  end.

(** [checkValid] and the parse: one value, then only white space. *)
Definition parse_json (data : bytes) : option json :=
  match scan_value (S (String.length data)) data with
  | Some (v, k) => match skip_ws k with "" => Some v | _ => None end
  | None => None
  end.


(** ** encoding/json: structs

    The encoder walks the fields of a struct in declaration order; the
    decoder looks every object key up among the fields.  A struct is given
    to both as the list of its fields, each with its JSON name and value. *)

Inductive govalue : Type :=
  | VString (s : string)
  | VInt (z : Z)
  | VFloat64 (f : float64)
  | VBool (b : bool).

Abbreviation gofields := (list (string * govalue)).

(** [foldName]: the key under which a field is found when no name matches
    exactly.  ASCII letters fold to upper case; of the other runes, the two
    that fold to an ASCII letter do: the long s U+017F to S and the Kelvin
    sign U+212A to K.  The remaining runes are kept as they are: the field
    names of these structs are ASCII, and no other rune folds to ASCII. *)
Fixpoint foldName (s : string) : string :=
  match s with
  | "" => ""
  | String c r =>
    let b := byte_val c in
    if (97 <=? b) && (b <=? 122) then String (byte_of (b - 32)) (foldName r)
    else if b =? 0xC5 then
      match r with
      | String c1 r1 =>
        if byte_val c1 =? 0xBF then String "S" (foldName r1)
        else String c (foldName r)
      | "" => String c ""
      end
    else if b =? 0xE2 then
      match r with
      | String c1 (String c2 r2) =>
        if (byte_val c1 =? 0x84) && (byte_val c2 =? 0xAA)
        then String "K" (foldName r2)
        else String c (foldName r)
      | _ => String c (foldName r)
      end
    else String c (foldName r)
  end.

Fixpoint index_where (p : string -> bool) (fs : gofields) : option nat :=
  match fs with
  | [] => None
  | (name, _) :: fs' =>
    if p name then Some O else option_map S (index_where p fs')
  end.

Definition field_index (key : string) (fs : gofields) : option nat :=
  match index_where (String.eqb key) fs with
  | Some i => Some i
  | None => index_where (fun name => String.eqb (foldName name) (foldName key)) fs
  end.

Section JSON.
Context `{Strconv}.

Definition encode_value (v : govalue) : result string :=
  match v with
  | VString s => Ok (appendString s)
  | VInt z => Ok (FormatInt z)
  | VFloat64 f =>
    if IsInfOrNaN f then Err ErrUnsupportedValue else Ok (FormatFloat f)
  | VBool b => Ok (if b then "true" else "false")
  end.

Fixpoint encode_fields (next : string) (fs : gofields) : result string :=
  match fs with
  | [] => Ok "}"
  | (name, v) :: fs' =>
    match encode_value v with
    | Err e => Err e
    | Ok t =>
      match encode_fields "," fs' with
      | Err e => Err e
      | Ok r => Ok (next +:+ appendString name +:+ ":" +:+ t +:+ r)
      end
    end
  end.

(** [json.Marshal] of a struct with these fields. *)
Definition marshal_fields (fs : gofields) : result bytes :=
  match fs with
  | [] => Ok "{}"
  | _ => encode_fields "{" fs
  end.

(** Storing a JSON value into a field: [null] leaves it as it is, a
    value of another type is an [UnmarshalTypeError]. *)
Definition store (name : string) (jv : json) (old : govalue)
  : result govalue :=
  match jv, old with
  | JNull, _ => Ok old
  | JString s, VString _ => Ok (VString s)
  | JBool b, VBool _ => Ok (VBool b)
  | JNumber lit, VInt _ =>
    match ParseInt lit with
    | Some z => Ok (VInt z)
    | None => Err (ErrUnmarshalType name)
    end
  | JNumber lit, VFloat64 _ =>
    match ParseFloat lit with
    | Some f => Ok (VFloat64 f)
    | None => Err (ErrUnmarshalType name)
    end
  | _, _ => Err (ErrUnmarshalType name)
  end.

(** The members are stored in input order; keys that name no field are
    skipped; the first type error is the one reported. *)
Fixpoint decode_members (ms : list (string * json)) (fs : gofields)
  : result gofields :=
  match ms with
  | [] => Ok fs
  | (key, jv) :: ms' =>
    match field_index key fs with
    | None => decode_members ms' fs
    | Some i =>
      match fs !! i with
      | None => decode_members ms' fs
      | Some (name, old) =>
        match store name jv old with
        | Ok v => decode_members ms' (<[i := (name, v)]> fs)
        | Err e => Err e
        end
      end
    end
  end.

(** [json.Unmarshal] into a struct whose fields hold [target]. *)
Definition unmarshal_fields (data : bytes) (target : gofields)
  : result gofields :=
  match parse_json data with
  | None => Err ErrSyntax
  | Some JNull => Ok target
  | Some (JObject ms) => decode_members ms target
  | Some _ => Err (ErrUnmarshalType "")
  end.
End JSON.

(** ** The loan contract, [src/bankcontract/main.go] *)

Module Bank.
Record LoanApplication := mkLoanApplication {
  ID : string;
  Applicant : string;
  Amount : Z;
  Term : Z;
  InterestRate : float64;
  Status : string
}.

(** the zero value, [var x LoanApplication] *)
Definition zero : LoanApplication :=
  mkLoanApplication "" "" 0 0 0 "".

(** the fields with their [json:] names, in declaration order *)
Definition fields (x : LoanApplication) : gofields :=
  [ ("id", VString (ID x));
    ("applicant", VString (Applicant x));
    ("amount", VInt (Amount x));
    ("term", VInt (Term x));
    ("interestRate", VFloat64 (InterestRate x));
    ("status", VString (Status x)) ].

Definition of_fields (fs : gofields) : LoanApplication :=
  match map snd fs with
  | [ VString v0;
      VString v1;
      VInt v2;
      VInt v3;
      VFloat64 v4;
      VString v5 ] =>
    mkLoanApplication v0 v1 v2 v3 v4 v5
  | _ => zero
  end.

Definition with_Status (x : LoanApplication) (st : string) : LoanApplication :=
  mkLoanApplication (ID x) (Applicant x) (Amount x) (Term x) (InterestRate x) st.

Section Contract.
Context {S : Type} `{ChaincodeStub S} `{Strconv}.

Definition Marshal (x : LoanApplication) : result bytes :=
  marshal_fields (fields x).

Definition Unmarshal (data : bytes) (target : LoanApplication) : result LoanApplication :=
  match unmarshal_fields data (fields target) with
  | Ok fs => Ok (of_fields fs)
  | Err e => Err e
  end.

Definition LoanExists (id : string) : Tx S bool :=
  loanJSON ← getState id;
  mret (bool_decide (loanJSON ≠ None)).

Definition InitLedger : Tx S unit :=
  let loans :=
    [ mkLoanApplication "loan1" "Afraz" 10000 12 0x4016000000000000 "Pending";
      mkLoanApplication "loan2" "Alam" 5000 6 0x4010CCCCCCCCCCCD "Approved" ] in
  foldr (fun loan (k : Tx S unit) =>
           loanJSON ← lift (Marshal loan);
           _ ← wrap ErrPutWorldState (putState (ID loan) loanJSON);
           k)
        (mret tt) loans.

Definition CreateLoanApplication (id applicant : string) (amount term : Z)
    (interestRate : float64) : Tx S unit :=
  exists_ ← LoanExists id;
  if exists_ : bool then fail (ErrAlreadyExists "the loan application" id)
  else
    let loan := mkLoanApplication id applicant amount term interestRate "Pending" in
    loanJSON ← lift (Marshal loan);
    putState id loanJSON.

Definition ReadLoanApplication (id : string) : Tx S LoanApplication :=
  loanJSON ← wrap ErrReadWorldState (getState id);
  match loanJSON with
  | None => fail (ErrDoesNotExist "the loan application" id)
  | Some data => lift (Unmarshal data zero)
  end.

Definition UpdateLoanStatus (id newStatus : string) : Tx S unit :=
  loan ← ReadLoanApplication id;
  let loan := with_Status loan newStatus in
  loanJSON ← lift (Marshal loan);
  putState id loanJSON.

Definition DeleteLoanApplication (id : string) : Tx S unit :=
  exists_ ← LoanExists id;
  if negb exists_ then fail (ErrDoesNotExist "the loan application" id)
  else delState id.

Definition GetAllLoanApplications : Tx S (list LoanApplication) :=
  resultsIterator ← getStateByRange "" "";
  lift (mapM_result (fun queryResponse => Unmarshal (KVValue queryResponse) zero)
                    resultsIterator).
End Contract.
End Bank.

(** ** The Pokemon contract, [src/unnamed/part_000] *)

Module Pokemon.
Record Pokemon := mkPokemon {
  ID : string;
  Name : string;
  Type_ : string;
  Power : Z;
  Trainer : string;
  Evolved : bool;
  Location : string
}.

(** the zero value, [var x Pokemon] *)
Definition zero : Pokemon :=
  mkPokemon "" "" "" 0 "" false "".

(** the fields with their [json:] names, in declaration order *)
Definition fields (x : Pokemon) : gofields :=
  [ ("id", VString (ID x));
    ("name", VString (Name x));
    ("type", VString (Type_ x));
    ("power", VInt (Power x));
    ("trainer", VString (Trainer x));
    ("evolved", VBool (Evolved x));
    ("location", VString (Location x)) ].

Definition of_fields (fs : gofields) : Pokemon :=
  match map snd fs with
  | [ VString v0;
      VString v1;
      VString v2;
      VInt v3;
      VString v4;
      VBool v5;
      VString v6 ] =>
    mkPokemon v0 v1 v2 v3 v4 v5 v6
  | _ => zero
  end.

Definition with_Power_Trainer (p : Pokemon) (power : Z) (trainer : string) : Pokemon :=
  mkPokemon (ID p) (Name p) (Type_ p) power trainer (Evolved p) (Location p).
Definition with_Evolved (p : Pokemon) (e : bool) : Pokemon :=
  mkPokemon (ID p) (Name p) (Type_ p) (Power p) (Trainer p) e (Location p).
Definition with_Power (p : Pokemon) (power : Z) : Pokemon :=
  mkPokemon (ID p) (Name p) (Type_ p) power (Trainer p) (Evolved p) (Location p).

(** the body of the loop of [GetHistory]: the text for one revision *)
Definition historyEntry (resp : KeyModification) : string :=
  if IsDelete resp
  then "Deleted at TxID: " +:+ TxId resp
  else "TxID: " +:+ TxId resp +:+ ", Data: " +:+ Value resp.

Section Contract.
Context {S : Type} `{ChaincodeStub S} `{Strconv}.

Definition Marshal (x : Pokemon) : result bytes :=
  marshal_fields (fields x).

Definition Unmarshal (data : bytes) (target : Pokemon) : result Pokemon :=
  match unmarshal_fields data (fields target) with
  | Ok fs => Ok (of_fields fs)
  | Err e => Err e
  end.

Definition PokemonExists (id : string) : Tx S bool :=
  pokeJSON ← getState id;
  mret (bool_decide (pokeJSON ≠ None)).

Definition InitLedger : Tx S unit :=
  let pokemons :=
    [ mkPokemon "poke1" "Pikachu" "Electric" 55 "Ash" false "Pallet Town";
      mkPokemon "poke2" "Charmander" "Fire" 52 "Red" false "Cinnabar Island";
      mkPokemon "poke3" "Squirtle" "Water" 48 "Misty" false "Cerulean City" ] in
  foldr (fun p (k : Tx S unit) =>
           pokeJSON ← lift (Marshal p);
           _ ← putState (ID p) pokeJSON;
           k)
        (mret tt) pokemons.

Definition CreatePokemon (id name ptype trainer location : string) (power : Z)
  : Tx S unit :=
  exists_ ← PokemonExists id;
  if exists_ : bool then fail (ErrAlreadyExists "Pokemon" id)
  else
    let p := mkPokemon id name ptype power trainer false location in
    pokeJSON ← lift (Marshal p);
    putState id pokeJSON.

Definition ReadPokemon (id : string) : Tx S Pokemon :=
  pokeJSON ← wrap ErrReadWorldState (getState id);
  match pokeJSON with
  | None => fail (ErrDoesNotExist "Pokemon" id)
  | Some data => lift (Unmarshal data zero)
  end.

Definition UpdatePokemon (id trainer : string) (power : Z) : Tx S unit :=
  p ← ReadPokemon id;
  let p := with_Power_Trainer p power trainer in
  pokeJSON ← lift (Marshal p);
  putState id pokeJSON.

Definition EvolvePokemon (id : string) : Tx S unit :=
  p ← ReadPokemon id;
  if Evolved p then fail (ErrAlreadyEvolved id)
  else
    let p := with_Evolved p true in
    let p := with_Power p (wrap64 (Power p + 30)) in
    pokeJSON ← lift (Marshal p);
    putState id pokeJSON.

Definition DeletePokemon (id : string) : Tx S unit :=
  exists_ ← PokemonExists id;
  if negb exists_ then fail (ErrDoesNotExist "Pokemon" id)
  else delState id.

Definition GetHistory (id : string) : Tx S (list string) :=
  resultsIterator ← getHistoryForKey id;
  mret (map historyEntry resultsIterator).
End Contract.
End Pokemon.

(** ** The identity contract, [src/afrazcontract/identitycontract.go] *)

Module Identity.
Record Identity := mkIdentity {
  ID : string;
  Title : string;
  FirstName : string;
  MiddleName : string;
  LastName : string;
  NameOnCard : string;
  ElevenCharName : string;
  CNIC : string;
  CNICIssueDate : string;
  CNICExpiryDate : string;
  OldNIC : string;
  PassportNumber : string;
  Nationality : string;
  PassportIssueDate : string;
  PassportExpiryDate : string;
  DateOfBirth : string;
  PlaceOfBirth : string;
  Gender : string;
  FatherOrHusbandName : string;
  MotherMaidenName : string;
  MaritalStatus : string;
  Education : string;
  PoliticalAffiliation : string;
  TaxPayer : string;
  Address : string;
  Landline : string;
  PostalCode : string;
  NoOfDependents : string;
  NTN : string;
  ResidenceType : string;
  ApartmentOrHouse : string;
  ResidenceNature : string;
  MobileNumber : string
}.

(** the zero value, [var x Identity] *)
Definition zero : Identity :=
  mkIdentity "" "" "" "" "" "" "" "" "" "" "" "" "" "" "" "" "" "" "" "" "" "" "" "" "" "" "" "" "" "" "" "" "".

(** the fields with their [json:] names, in declaration order *)
Definition fields (x : Identity) : gofields :=
  [ ("id", VString (ID x));
    ("title", VString (Title x));
    ("firstName", VString (FirstName x));
    ("middleName", VString (MiddleName x));
    ("lastName", VString (LastName x));
    ("nameOnCard", VString (NameOnCard x));
    ("elevenCharName", VString (ElevenCharName x));
    ("cnic", VString (CNIC x));
    ("cnicIssueDate", VString (CNICIssueDate x));
    ("cnicExpiryDate", VString (CNICExpiryDate x));
    ("oldNIC", VString (OldNIC x));
    ("passportNumber", VString (PassportNumber x));
    ("nationality", VString (Nationality x));
    ("passportIssueDate", VString (PassportIssueDate x));
    ("passportExpiryDate", VString (PassportExpiryDate x));
    ("dateOfBirth", VString (DateOfBirth x));
    ("placeOfBirth", VString (PlaceOfBirth x));
    ("gender", VString (Gender x));
    ("fatherOrHusbandName", VString (FatherOrHusbandName x));
    ("motherMaidenName", VString (MotherMaidenName x));
    ("maritalStatus", VString (MaritalStatus x));
    ("education", VString (Education x));
    ("politicalAffiliation", VString (PoliticalAffiliation x));
    ("taxPayer", VString (TaxPayer x));
    ("address", VString (Address x));
    ("landline", VString (Landline x));
    ("postalCode", VString (PostalCode x));
    ("noOfDependents", VString (NoOfDependents x));
    ("ntn", VString (NTN x));
    ("residenceType", VString (ResidenceType x));
    ("apartmentOrHouse", VString (ApartmentOrHouse x));
    ("residenceNature", VString (ResidenceNature x));
    ("mobileNumber", VString (MobileNumber x)) ].

Definition of_fields (fs : gofields) : Identity :=
  match map snd fs with
  | [ VString v0;
      VString v1;
      VString v2;
      VString v3;
      VString v4;
      VString v5;
      VString v6;
      VString v7;
      VString v8;
      VString v9;
      VString v10;
      VString v11;
      VString v12;
      VString v13;
      VString v14;
      VString v15;
      VString v16;
      VString v17;
      VString v18;
      VString v19;
      VString v20;
      VString v21;
      VString v22;
      VString v23;
      VString v24;
      VString v25;
      VString v26;
      VString v27;
      VString v28;
      VString v29;
      VString v30;
      VString v31;
      VString v32 ] =>
    mkIdentity v0 v1 v2 v3 v4 v5 v6 v7 v8 v9 v10 v11 v12 v13 v14 v15 v16 v17 v18 v19 v20 v21 v22 v23 v24 v25 v26 v27 v28 v29 v30 v31 v32
  | _ => zero
  end.

Definition with_MobileNumber (x : Identity) (v : string) : Identity :=
  mkIdentity (ID x) (Title x) (FirstName x) (MiddleName x) (LastName x) (NameOnCard x) (ElevenCharName x) (CNIC x) (CNICIssueDate x) (CNICExpiryDate x) (OldNIC x) (PassportNumber x) (Nationality x) (PassportIssueDate x) (PassportExpiryDate x) (DateOfBirth x) (PlaceOfBirth x) (Gender x) (FatherOrHusbandName x) (MotherMaidenName x) (MaritalStatus x) (Education x) (PoliticalAffiliation x) (TaxPayer x) (Address x) (Landline x) (PostalCode x) (NoOfDependents x) (NTN x) (ResidenceType x) (ApartmentOrHouse x) (ResidenceNature x) v.
Definition with_Address (x : Identity) (v : string) : Identity :=
  mkIdentity (ID x) (Title x) (FirstName x) (MiddleName x) (LastName x) (NameOnCard x) (ElevenCharName x) (CNIC x) (CNICIssueDate x) (CNICExpiryDate x) (OldNIC x) (PassportNumber x) (Nationality x) (PassportIssueDate x) (PassportExpiryDate x) (DateOfBirth x) (PlaceOfBirth x) (Gender x) (FatherOrHusbandName x) (MotherMaidenName x) (MaritalStatus x) (Education x) (PoliticalAffiliation x) (TaxPayer x) v (Landline x) (PostalCode x) (NoOfDependents x) (NTN x) (ResidenceType x) (ApartmentOrHouse x) (ResidenceNature x) (MobileNumber x).

(** the composite literal of [CreateIdentity]; the other fields are zero *)
Definition new_identity (id title firstName lastName cnic dob gender mobile : string)
  : Identity :=
  mkIdentity id title firstName "" lastName "" "" cnic "" "" "" "" "" "" "" dob "" gender "" "" "" "" "" "" "" "" "" "" "" "" "" "" mobile.

Section Contract.
Context {S : Type} `{ChaincodeStub S} `{Strconv}.

Definition Marshal (x : Identity) : result bytes :=
  marshal_fields (fields x).

Definition Unmarshal (data : bytes) (target : Identity) : result Identity :=
  match unmarshal_fields data (fields target) with
  | Ok fs => Ok (of_fields fs)
  | Err e => Err e
  end.

Definition IdentityExists (id : string) : Tx S bool :=
  identityJSON ← wrap ErrReadWorldState (getState id);
  mret (bool_decide (identityJSON ≠ None)).

Definition InitLedger : Tx S unit :=
  let identities :=
    [ new_identity "identity1" "Mr." "John" "Doe" "12345-6789012-3"
                   "01-01-1980" "Male" "03001234567" ] in
  foldr (fun identity (k : Tx S unit) =>
           identityJSON ← lift (Marshal identity);
           _ ← wrap ErrPutWorldState (putState (ID identity) identityJSON);
           k)
        (mret tt) identities.

Definition CreateIdentity (id title firstName lastName cnic dob gender mobile : string)
  : Tx S unit :=
  exists_ ← IdentityExists id;
  if exists_ : bool then fail (ErrAlreadyExists "the identity" id)
  else
    let identity := new_identity id title firstName lastName cnic dob gender mobile in
    identityJSON ← lift (Marshal identity);
    putState id identityJSON.

Definition ReadIdentity (id : string) : Tx S Identity :=
  identityJSON ← wrap ErrReadWorldState (getState id);
  match identityJSON with
  | None => fail (ErrDoesNotExist "the identity" id)
  | Some data => lift (Unmarshal data zero)
  end.

Definition UpdateIdentity (id mobile address : string) : Tx S unit :=
  exists_ ← IdentityExists id;
  if negb exists_ then fail (ErrDoesNotExist "the identity" id)
  else
    identity ← ReadIdentity id;
    let identity := with_MobileNumber identity mobile in
    let identity := with_Address identity address in
    identityJSON ← lift (Marshal identity);
    putState id identityJSON.

Definition DeleteIdentity (id : string) : Tx S unit :=
  exists_ ← IdentityExists id;
  if negb exists_ then fail (ErrDoesNotExist "the identity" id)
  else delState id.

Definition GetAllIdentities : Tx S (list Identity) :=
  resultsIterator ← getStateByRange "" "";
  lift (mapM_result (fun queryResponse => Unmarshal (KVValue queryResponse) zero)
                    resultsIterator).
End Contract.
End Identity.

(** ** A number text to run the model with

    The laws of [Strconv] are met by writing a [float64] as the decimal of
    its bit pattern.  It stands in for strconv wherever the model is
    evaluated; no theorem below depends on which instance is used. *)

Definition bits_FormatFloat (f : float64) : string :=
  NilZero.string_of_uint (N.to_uint (Z.to_N f)).

Definition bits_ParseFloat (lit : string) : option float64 :=
  match NilZero.uint_of_string lit with
  | Some d =>
    let f := Z.of_N (N.of_uint d) in
    if is_float64 f && negb (IsInfOrNaN f) then Some f else None
  | None => None
  end.

Definition representable (v : govalue) : bool :=
  match v with
  | VFloat64 f => negb (IsInfOrNaN f)
  | _ => true
  end.


Definition encodable (v : govalue) : bool :=
  match v with
  | VInt z => is_int z
  | VFloat64 f => is_float64 f && negb (IsInfOrNaN f)
  | _ => true
  end.


Definition coerce_value (v : govalue) : govalue :=
  match v with
  | VString s => VString (CoerceUTF8 s)
  | _ => v
  end.


Definition coerce_field (f : string * govalue) : string * govalue :=
  (fst f, coerce_value (snd f)).


Definition same_kind (v w : govalue) : bool :=
  match v, w with
  | VString _, VString _ | VInt _, VInt _ | VFloat64 _, VFloat64 _
  | VBool _, VBool _ => true
  | _, _ => false
  end.


Section JSONValues.
Context `{Strconv}.

Definition json_of (v : govalue) : json :=
  match v with
  | VString s => JString (CoerceUTF8 s)
  | VInt z => JNumber (FormatInt z)
  | VFloat64 f => JNumber (FormatFloat f)
  | VBool b => JBool b
  end.

Definition member_of (f : string * govalue) : string * json :=
  (CoerceUTF8 (fst f), json_of (snd f)).

End JSONValues.

Definition loan_ok (x : Bank.LoanApplication) : bool :=
  is_int (Bank.Amount x) && is_int (Bank.Term x)
  && is_float64 (Bank.InterestRate x) && negb (IsInfOrNaN (Bank.InterestRate x)).


Definition loan_coerce (x : Bank.LoanApplication) : Bank.LoanApplication :=
  Bank.mkLoanApplication (CoerceUTF8 (Bank.ID x)) (CoerceUTF8 (Bank.Applicant x))
    (Bank.Amount x) (Bank.Term x) (Bank.InterestRate x) (CoerceUTF8 (Bank.Status x)).


Definition wf_value (v : govalue) : bool :=
  match v with
  | VString s => ValidString s
  | VInt z => is_int z
  | VFloat64 f => is_float64 f && negb (IsInfOrNaN f)
  | VBool _ => true
  end.


Definition fields_wf (fs : gofields) : bool := forallb (fun f => wf_value (snd f)) fs.


Definition pokemon_coerce (p : Pokemon.Pokemon) : Pokemon.Pokemon :=
  Pokemon.mkPokemon (CoerceUTF8 (Pokemon.ID p)) (CoerceUTF8 (Pokemon.Name p))
    (CoerceUTF8 (Pokemon.Type_ p)) (Pokemon.Power p) (CoerceUTF8 (Pokemon.Trainer p))
    (Pokemon.Evolved p) (CoerceUTF8 (Pokemon.Location p)).


(** Ledgers reached from the empty one through successful creates only;
    the arguments are Go values: integers of 64 bits, a 64-bit float. *)
Inductive loans_created `{Strconv} : Ledger -> Prop :=
  | loans_none : loans_created empty_ledger
  | loans_create (l l' : Ledger) (tx id applicant : string) (amount term : Z)
      (rate : float64) :
      loans_created l ->
      is_int amount = true -> is_int term = true -> is_float64 rate = true ->
      invoke tx (Bank.CreateLoanApplication id applicant amount term rate) l
      = (Ok tt, l') ->
      loans_created l'.

Inductive pokemons_created `{Strconv} : Ledger -> Prop :=
  | pokemons_none : pokemons_created empty_ledger
  | pokemons_create (l l' : Ledger) (tx id name ptype trainer location : string)
      (power : Z) :
      pokemons_created l ->
      is_int power = true ->
      invoke tx (Pokemon.CreatePokemon id name ptype trainer location power) l
      = (Ok tt, l') ->
      pokemons_created l'.

(** The arguments of one [CreateLoanApplication] call besides the key. *)
Record LoanArgs := mkLoanArgs {
  arg_applicant : string;
  arg_amount : Z;
  arg_term : Z;
  arg_rate : float64
}.

Definition args_ok (x : LoanArgs) : bool :=
  is_int (arg_amount x) && is_int (arg_term x)
  && is_float64 (arg_rate x) && negb (IsInfOrNaN (arg_rate x)).

(** the record [ReadLoanApplication] returns for a loan created with [x] *)
Definition created_loan (id : string) (x : LoanArgs) : Bank.LoanApplication :=
  Bank.mkLoanApplication (CoerceUTF8 id) (CoerceUTF8 (arg_applicant x))
    (arg_amount x) (arg_term x) (arg_rate x) "Pending".

(** ** Ledgers the contracts reach

    A submitted transaction of a contract: one of its writing methods with
    its arguments, Go values.  A ledger is reachable when it is what a
    sequence of such transactions, each under some transaction identifier,
    makes of the empty ledger; a transaction that returns an error leaves
    the ledger as it was. *)

Inductive loan_call : Type :=
  | CallLoanInitLedger
  | CallCreateLoanApplication (id applicant : string) (amount term : Z)
      (interestRate : float64)
  | CallUpdateLoanStatus (id newStatus : string)
  | CallDeleteLoanApplication (id : string).

Definition loan_call_ok (c : loan_call) : bool :=
  match c with
  | CallCreateLoanApplication _ _ amount term rate =>
    is_int amount && is_int term && is_float64 rate
  | _ => true
  end.

Definition run_loan_call `{Strconv} (c : loan_call) : Tx Stub unit :=
  match c with
  | CallLoanInitLedger => Bank.InitLedger
  | CallCreateLoanApplication id applicant amount term rate =>
    Bank.CreateLoanApplication id applicant amount term rate
  | CallUpdateLoanStatus id newStatus => Bank.UpdateLoanStatus id newStatus
  | CallDeleteLoanApplication id => Bank.DeleteLoanApplication id
  end.

Inductive loans_reachable `{Strconv} : Ledger -> Prop :=
  | loans_reach_empty : loans_reachable empty_ledger
  | loans_reach_step (l l' : Ledger) (tx : string) (c : loan_call) (r : result unit) :
      loans_reachable l -> loan_call_ok c = true ->
      invoke tx (run_loan_call c) l = (r, l') ->
      loans_reachable l'.

Inductive pokemon_call : Type :=
  | CallPokemonInitLedger
  | CallCreatePokemon (id name ptype trainer location : string) (power : Z)
  | CallUpdatePokemon (id trainer : string) (power : Z)
  | CallEvolvePokemon (id : string)
  | CallDeletePokemon (id : string).

Definition pokemon_call_ok (c : pokemon_call) : bool :=
  match c with
  | CallCreatePokemon _ _ _ _ _ power => is_int power
  | CallUpdatePokemon _ _ power => is_int power
  | _ => true
  end.

Definition run_pokemon_call `{Strconv} (c : pokemon_call) : Tx Stub unit :=
  match c with
  | CallPokemonInitLedger => Pokemon.InitLedger
  | CallCreatePokemon id name ptype trainer location power =>
    Pokemon.CreatePokemon id name ptype trainer location power
  | CallUpdatePokemon id trainer power => Pokemon.UpdatePokemon id trainer power
  | CallEvolvePokemon id => Pokemon.EvolvePokemon id
  | CallDeletePokemon id => Pokemon.DeletePokemon id
  end.

Inductive pokemons_reachable `{Strconv} : Ledger -> Prop :=
  | pokemons_reach_empty : pokemons_reachable empty_ledger
  | pokemons_reach_step (l l' : Ledger) (tx : string) (c : pokemon_call)
      (r : result unit) :
      pokemons_reachable l -> pokemon_call_ok c = true ->
      invoke tx (run_pokemon_call c) l = (r, l') ->
      pokemons_reachable l'.

Inductive identity_call : Type :=
  | CallIdentityInitLedger
  | CallCreateIdentity (id title firstName lastName cnic dob gender mobile : string)
  | CallUpdateIdentity (id mobile address : string)
  | CallDeleteIdentity (id : string).

Definition run_identity_call `{Strconv} (c : identity_call) : Tx Stub unit :=
  match c with
  | CallIdentityInitLedger => Identity.InitLedger
  | CallCreateIdentity id title firstName lastName cnic dob gender mobile =>
    Identity.CreateIdentity id title firstName lastName cnic dob gender mobile
  | CallUpdateIdentity id mobile address => Identity.UpdateIdentity id mobile address
  | CallDeleteIdentity id => Identity.DeleteIdentity id
  end.

Inductive identities_reachable `{Strconv} : Ledger -> Prop :=
  | identities_reach_empty : identities_reachable empty_ledger
  | identities_reach_step (l l' : Ledger) (tx : string) (c : identity_call)
      (r : result unit) :
      identities_reachable l ->
      invoke tx (run_identity_call c) l = (r, l') ->
      identities_reachable l'.

(** A stored value that is JSON [null], or a JSON object none of whose keys
    is matched with a field of the struct. *)
Definition names_no_field (fs : gofields) (data : bytes) : bool :=
  match parse_json data with
  | Some JNull => true
  | Some (JObject ms) =>
    forallb (fun m => match field_index (fst m) fs with None => true | Some _ => false end)
            ms
  | _ => false
  end.

(** ** The identity gateway, [src/unnamed/part_001]

    An Express application in front of the identity contract: each route
    reads the request, submits at most one transaction through the
    gateway's [contract] and answers with a status and a JSON body.  The
    routes that only forward ([JSON.parse] of an evaluated result) are not
    modelled; the four that submit are.

    What happens behind [contract.submitTransaction] is the network's
    business: the call either yields the transaction's result or throws an
    error with a message.  A handler is a function of that outcome, and
    returns the response together with the transactions it submitted. *)

Module Gateway.

(** JavaScript values, as [express.json()] puts them into [req.body]. *)
Inductive jsvalue : Type :=
  | JSUndefined
  | JSNull
  | JSBoolean (b : bool)
  | JSNumber (f : float64)
  | JSString (s : string)
  | JSArray (items : list jsvalue)
  | JSObject (props : list (string * jsvalue)).

Definition float64_fraction (f : float64) : Z := Z.land f 0xFFFFFFFFFFFFF.

(** [ToBoolean], which [!v] and [v || w] apply: [undefined], [null],
    [false], [+0], [-0], [NaN] and the empty string are falsy. *)
Definition ToBoolean (v : jsvalue) : bool :=
  match v with
  | JSUndefined | JSNull => false
  | JSBoolean b => b
  | JSNumber f =>
    negb (Z.land f 0x7FFFFFFFFFFFFFFF =? 0)
    && negb ((float64_exponent f =? 0x7FF) && negb (float64_fraction f =? 0))
  | JSString s => negb (String.eqb s "")
  | JSArray _ | JSObject _ => true
  end.

(** [v || w] *)
Definition js_or (v w : jsvalue) : jsvalue := if ToBoolean v then v else w.

Fixpoint lookup_prop (props : list (string * jsvalue)) (name : string) : jsvalue :=
  match props with
  | [] => JSUndefined
  | (k, v) :: props' => if String.eqb k name then v else lookup_prop props' name
  end.

Record js_error := mkError { message : string }.

(** [const { a, b } = v]: the named properties of an object, [undefined]
    for those it has not; this throws a [TypeError] when [v] is [undefined]
    or [null].  The other values have none of the properties the handlers
    name. *)
Definition destructure (TypeError : string -> js_error) (first : string) (v : jsvalue)
  : js_error + (string -> jsvalue) :=
  match v with
  | JSUndefined | JSNull => inl (TypeError first)
  | JSObject props => inr (lookup_prop props)
  | _ => inr (fun _ => JSUndefined)
  end.

Record Call := mkCall { transaction : string; arguments : list jsvalue }.

(** [contract.submitTransaction(name, ...args)], awaited *)
Definition Contract : Type := Call -> js_error + bytes.

Record Response := mkResponse { statusCode : Z; body : jsvalue }.

(** [res.json(v)] and [res.status(n).json(v)] *)
Definition res_json (v : jsvalue) : Response := mkResponse 200 v.
Definition res_status_json (n : Z) (v : jsvalue) : Response := mkResponse n v.

Section Handlers.
(** [contract] is assigned once the connection is made; until then it is
    [undefined] and a call on it throws.  [TypeError name] stands for the
    error the engine throws when the property [name] is read from
    [undefined] or [null]. *)
Variable TypeError : string -> js_error.
Variable contract : option Contract.

Definition submit (c : Call) (k : Response) : Response * list Call :=
  match contract with
  | None =>
    (res_status_json 500
       (JSObject [("error", JSString (message (TypeError "submitTransaction")))]), [])
  | Some submitTransaction =>
    match submitTransaction c with
    | inl error =>
      (res_status_json 500 (JSObject [("error", JSString (message error))]), [c])
    | inr _ => (k, [c])
    end
  end.

(** [app.post('/initLedger', ...)] *)
Definition post_initLedger : Response * list Call :=
  submit (mkCall "InitLedger" [])
         (res_json (JSObject [("message", JSString "Ledger initialized with sample identity")])).

(** [app.post('/identities', ...)] *)
Definition post_identities (req_body : jsvalue) : Response * list Call :=
  match destructure TypeError "id" req_body with
  | inl error =>
    (res_status_json 500 (JSObject [("error", JSString (message error))]), [])
  | inr get =>
    let id := get "id" in
    let title := get "title" in
    let firstName := get "firstName" in
    let lastName := get "lastName" in
    let cnic := get "cnic" in
    let dob := get "dob" in
    let gender := get "gender" in
    let mobile := get "mobile" in
    if negb (ToBoolean id) || negb (ToBoolean firstName) || negb (ToBoolean lastName)
       || negb (ToBoolean cnic) || negb (ToBoolean dob) || negb (ToBoolean gender)
       || negb (ToBoolean mobile)
    then
      (res_status_json 400 (JSObject [("error", JSString "Missing required fields")]), [])
    else
      submit (mkCall "CreateIdentity"
                [ id; js_or title (JSString ""); firstName; JSString ""; lastName;
                  cnic; dob; gender; mobile ])
             (res_json (JSObject [("message", JSString "Identity created successfully");
                              ("id", id)]))
  end.

(** [app.put('/identities/:id', ...)]; [id] is [req.params.id] *)
Definition put_identity (id : string) (req_body : jsvalue) : Response * list Call :=
  match destructure TypeError "mobile" req_body with
  | inl error =>
    (res_status_json 500 (JSObject [("error", JSString (message error))]), [])
  | inr get =>
    let mobile := get "mobile" in
    let address := get "address" in
    if negb (ToBoolean mobile) && negb (ToBoolean address)
    then (res_status_json 400 (JSObject [("error", JSString "No fields to update")]), [])
    else
      submit (mkCall "UpdateIdentity"
                [ JSString id; js_or mobile (JSString ""); js_or address (JSString "") ])
             (res_json (JSObject [("message", JSString "Identity updated successfully")]))
  end.

(** [app.delete('/identities/:id', ...)] *)
Definition delete_identity (id : string) : Response * list Call :=
  submit (mkCall "DeleteIdentity" [JSString id])
         (res_json (JSObject [("message", JSString "Identity deleted successfully")])).

End Handlers.
End Gateway.

Inductive lead_spec (b : Z) : leader -> Prop :=
  | ls_ascii : b < 0x80 -> lead_spec b LeadASCII
  | ls_inv : 0x80 <= b < 0xC2 \/ 0xF5 <= b -> lead_spec b LeadInvalid
  | ls_2 : 0xC2 <= b <= 0xDF -> lead_spec b (Lead 2 0x80 0xBF)
  | ls_e0 : b = 0xE0 -> lead_spec b (Lead 3 0xA0 0xBF)
  | ls_3 : 0xE1 <= b <= 0xEF -> b <> 0xED -> lead_spec b (Lead 3 0x80 0xBF)
  | ls_ed : b = 0xED -> lead_spec b (Lead 3 0x80 0x9F)
  | ls_f0 : b = 0xF0 -> lead_spec b (Lead 4 0x90 0xBF)
  | ls_4 : 0xF1 <= b <= 0xF3 -> lead_spec b (Lead 4 0x80 0xBF)
  | ls_f4 : b = 0xF4 -> lead_spec b (Lead 4 0x80 0x8F).


Definition chunk (e : string) (r : Z) : Prop :=
  (forall k, DecodeRuneInString (stake UTFMax (e +:+ k)) = (r, String.length e))
  /\ EncodeRune r = e
  /\ (exists c0 rest, e = String c0 rest /\ 0x80 <= byte_val c0)
  /\ ~ (r = RuneError /\ String.length e = 1%nat)
  /\ 0x80 <= r <= MaxRune.


Definition next (r : option (string * string)) (e : string) : option (string * string) :=
  match r with
  | Some (t, k) => Some (e +:+ t, k)
  | None => None
  end.


Fixpoint all_numchar (s : string) : bool :=
  match s with
  | "" => true
  | String c r => is_numchar c && all_numchar r
  end.


Definition skip_fraction (s2 : string) : string :=
  match s2 with
  | String "." (String d' r) => if is_digit d' then skip_digits r else s2
  | _ => s2
  end.


Definition is_delim (d : ascii) : bool := (byte_val d =? 44) || (byte_val d =? 125).


(** Text made of ASCII bytes and of multi-byte sequences that decode. *)
Inductive wellformed : string -> Prop :=
  | wf_nil : wellformed ""
  | wf_ascii (c : ascii) (t : string) :
      byte_val c < 0x80 -> wellformed t -> wellformed (String c t)
  | wf_chunk (e : string) (r : Z) (t : string) :
      chunk e r -> wellformed t -> wellformed (e +:+ t).


Definition jwf (v : json) : Prop :=
  match v with
  | JNumber lit => isValidNumber lit = true
  | JString s => wellformed s
  | _ => True
  end.


Definition same_field (f g : string * govalue) : Prop :=
  fst f = fst g /\ same_kind (snd f) (snd g) = true.

(** * Proofs *)

(** ** Decimal texts are JSON numbers *)

Lemma skip_digits_uint (d : Decimal.uint) :
  skip_digits (NilEmpty.string_of_uint d) = "".
Proof. induction d; simpl; auto. Qed.

Lemma nzhead_not_D0 (d d' : Decimal.uint) : Decimal.nzhead d <> Decimal.D0 d'.
Proof. induction d; simpl; congruence. Qed.

Lemma unorm_fixed_head (d : Decimal.uint) :
  Decimal.unorm d = d ->
  d = Decimal.D0 Decimal.Nil \/ (d <> Decimal.Nil /\ forall d', d <> Decimal.D0 d').
Proof.
  intros Hd. unfold Decimal.unorm in Hd.
  destruct (Decimal.nzhead d) eqn:Hz; [left; congruence | right ..];
    (split; [congruence | intros d' E; apply (nzhead_not_D0 d d'); congruence]).
Qed.

Lemma isValidNumber_uint (d : Decimal.uint) :
  Decimal.unorm d = d -> isValidNumber (NilZero.string_of_uint d) = true.
Proof.
  intros Hd. destruct (unorm_fixed_head d Hd) as [-> | [Hn H0]]; [reflexivity|].
  destruct d; try congruence; try (exfalso; eapply H0; reflexivity);
    cbn -[skip_digits]; rewrite skip_digits_uint; reflexivity.
Qed.

Lemma N_to_uint_unorm (n : N) : Decimal.unorm (N.to_uint n) = N.to_uint n.
Proof.
  rewrite <- (DecimalN.Unsigned.of_to n) at 2.
  rewrite DecimalN.Unsigned.to_of. reflexivity.
Qed.

Lemma bits_FormatFloat_number (f : float64) :
  is_float64 f = true -> IsInfOrNaN f = false ->
  isValidNumber (bits_FormatFloat f) = true.
Proof. intros _ _. apply isValidNumber_uint, N_to_uint_unorm. Qed.

Lemma bits_ParseFloat_FormatFloat (f : float64) :
  is_float64 f = true -> IsInfOrNaN f = false ->
  bits_ParseFloat (bits_FormatFloat f) = Some f.
Proof.
  intros Hf Hn. unfold bits_ParseFloat, bits_FormatFloat.
  assert (Hu : NilZero.uint_of_string (NilZero.string_of_uint (N.to_uint (Z.to_N f)))
               = Some (N.to_uint (Z.to_N f))).
  { apply NilZero.usu. destruct (Z.to_N f); simpl;
      [discriminate | apply Unsigned.to_uint_nonnil]. }
  rewrite Hu, DecimalN.Unsigned.of_to.
  assert (E : Z.of_N (Z.to_N f) = f) by (unfold is_float64 in Hf; lia).
  rewrite E, Hf, Hn. reflexivity.
Qed.

Lemma bits_ParseFloat_finite (lit : string) (f : float64) :
  isValidNumber lit = true -> bits_ParseFloat lit = Some f ->
  is_float64 f = true /\ IsInfOrNaN f = false.
Proof.
  intros _. unfold bits_ParseFloat.
  destruct (NilZero.uint_of_string lit) as [d|]; [|discriminate].
  destruct (is_float64 _ && negb (IsInfOrNaN _)) eqn:E; [|discriminate].
  intros [= <-]. apply andb_true_iff in E as [E1 E2].
  apply negb_true_iff in E2. auto.
Qed.

Definition BitsText : Strconv :=
  {| FormatFloat := bits_FormatFloat;
     ParseFloat := bits_ParseFloat;
     FormatFloat_number := bits_FormatFloat_number;
     ParseFloat_FormatFloat := bits_ParseFloat_FormatFloat;
     ParseFloat_finite := bits_ParseFloat_finite |}.


Lemma lor_add (a b k : Z) :
  0 <= k -> 0 <= b < 2 ^ k -> Z.lor (a * 2 ^ k) b = a * 2 ^ k + b.
Proof.
  intros Hk Hb.
  assert (Hl : Z.land (a * 2 ^ k) b = 0).
  { apply Z.bits_inj'. intros n Hn. rewrite Z.land_spec, Z.bits_0.
    destruct (Z.lt_ge_cases n k) as [Hlt | Hge].
    - rewrite Z.mul_pow2_bits_low by lia. reflexivity.
    - destruct (Z.eq_dec b 0) as [-> | Hb0].
      + rewrite Z.bits_0. apply andb_false_r.
      + rewrite (Z.bits_above_log2 b n); [apply andb_false_r | lia |].
        assert (Z.log2 b < k) by (apply Z.log2_lt_pow2; lia). lia. }
  rewrite <- Z.lxor_lor by exact Hl. symmetry. apply Z.add_nocarry_lxor, Hl.
Qed.

Lemma land_mod (x k : Z) (m : Z) : 0 <= k -> m = Z.ones k -> Z.land x m = x mod 2 ^ k.
Proof. intros Hk ->. apply Z.land_ones, Hk. Qed.

Lemma byte_val_range (c : ascii) : 0 <= byte_val c < 256.
Proof. unfold byte_val. pose proof (N_ascii_bounded c). lia. Qed.

Lemma byte_of_val (c : ascii) : byte_of (byte_val c) = c.
Proof.
  unfold byte_of. pose proof (byte_val_range c).
  rewrite Z.mod_small by lia. unfold byte_val. rewrite N2Z.id.
  apply ascii_N_embedding.
Qed.

Lemma byte_val_of (z : Z) : 0 <= z < 256 -> byte_val (byte_of z) = z.
Proof.
  intros Hz. unfold byte_of, byte_val. rewrite Z.mod_small by lia.
  rewrite N_ascii_embedding by lia. lia.
Qed.

Lemma lor_addp (a b p k : Z) :
  0 <= k -> p = 2 ^ k -> 0 <= b < p -> Z.lor (a * p) b = a * p + b.
Proof. intros Hk -> Hb. apply lor_add; assumption. Qed.

Lemma shiftl_mul (x k p : Z) : 0 <= k -> p = 2 ^ k -> Z.shiftl x k = x * p.
Proof. intros Hk ->. apply Z.shiftl_mul_pow2, Hk. Qed.

Lemma land_modp (x m p k : Z) :
  0 <= k -> m = Z.ones k -> p = 2 ^ k -> Z.land x m = x mod p.
Proof. intros Hk -> ->. apply Z.land_ones, Hk. Qed.

Lemma rune2_arith (s0 s1 : Z) :
  Z.lor (Z.shiftl (Z.land s0 mask2) 6) (Z.land s1 maskx) = (s0 mod 32) * 64 + s1 mod 64.
Proof.
  rewrite (land_modp s0 _ 32 5), (land_modp s1 _ 64 6), (shiftl_mul _ 6 64)
    by (reflexivity || lia).
  apply (lor_addp _ _ 64 6); [lia | reflexivity | apply Z.mod_pos_bound; lia].
Qed.

Lemma rune3_arith (s0 s1 s2 : Z) :
  Z.lor (Z.lor (Z.shiftl (Z.land s0 mask3) 12) (Z.shiftl (Z.land s1 maskx) 6))
        (Z.land s2 maskx)
  = (s0 mod 16) * 4096 + (s1 mod 64) * 64 + s2 mod 64.
Proof.
  rewrite (land_modp s0 _ 16 4), (land_modp s1 _ 64 6), (land_modp s2 _ 64 6),
    (shiftl_mul _ 6 64), (shiftl_mul _ 12 4096) by (reflexivity || lia).
  pose proof (Z.mod_pos_bound s1 64 ltac:(lia)).
  pose proof (Z.mod_pos_bound s2 64 ltac:(lia)).
  rewrite (lor_addp _ _ 4096 12) by (reflexivity || lia).
  replace (s0 mod 16 * 4096 + s1 mod 64 * 64)
    with ((s0 mod 16 * 64 + s1 mod 64) * 64) by lia.
  rewrite (lor_addp _ _ 64 6) by (reflexivity || lia). lia.
Qed.

Lemma rune4_arith (s0 s1 s2 s3 : Z) :
  Z.lor (Z.lor (Z.lor (Z.shiftl (Z.land s0 mask4) 18) (Z.shiftl (Z.land s1 maskx) 12))
               (Z.shiftl (Z.land s2 maskx) 6))
        (Z.land s3 maskx)
  = (s0 mod 8) * 262144 + (s1 mod 64) * 4096 + (s2 mod 64) * 64 + s3 mod 64.
Proof.
  rewrite (land_modp s0 _ 8 3), (land_modp s1 _ 64 6), (land_modp s2 _ 64 6),
    (land_modp s3 _ 64 6), (shiftl_mul _ 6 64), (shiftl_mul _ 12 4096),
    (shiftl_mul _ 18 262144) by (reflexivity || lia).
  pose proof (Z.mod_pos_bound s1 64 ltac:(lia)).
  pose proof (Z.mod_pos_bound s2 64 ltac:(lia)).
  pose proof (Z.mod_pos_bound s3 64 ltac:(lia)).
  rewrite (lor_addp _ _ 262144 18) by (reflexivity || lia).
  replace (s0 mod 8 * 262144 + s1 mod 64 * 4096)
    with ((s0 mod 8 * 64 + s1 mod 64) * 4096) by lia.
  rewrite (lor_addp _ _ 4096 12) by (reflexivity || lia).
  replace ((s0 mod 8 * 64 + s1 mod 64) * 4096 + s2 mod 64 * 64)
    with (((s0 mod 8 * 64 + s1 mod 64) * 64 + s2 mod 64) * 64) by lia.
  rewrite (lor_addp _ _ 64 6) by (reflexivity || lia). lia.
Qed.

(* encoder bytes *)
Lemma lead_arith (tag r sh p q : Z) :
  0 <= sh -> p = 2 ^ sh -> 0 <= r < p * q -> 0 < q ->
  (exists k, 0 <= k /\ q = 2 ^ k) -> tag mod q = 0 ->
  Z.lor tag (Z.shiftr r sh) = tag + r / p.
Proof.
  intros Hsh -> Hr Hq [k [Hk ->]] Ht. rewrite Z.shiftr_div_pow2 by lia.
  assert (E : tag = (tag / 2 ^ k) * 2 ^ k).
  { pose proof (Z.div_mod tag (2 ^ k) ltac:(lia)). lia. }
  rewrite E at 1. rewrite lor_add; [lia | lia |].
  split; [apply Z.div_pos; lia|].
  apply Z.div_lt_upper_bound; lia.
Qed.

Lemma cont_arith (x : Z) : Z.lor 0x80 (Z.land x maskx) = 128 + x mod 64.
Proof.
  rewrite (land_modp x _ 64 6) by (reflexivity || lia).
  apply (lor_addp 2 _ 64 6); [lia | reflexivity | apply Z.mod_pos_bound; lia].
Qed.

Lemma shiftr_div (x k p : Z) : 0 <= k -> p = 2 ^ k -> Z.shiftr x k = x / p.
Proof. intros Hk ->. apply Z.shiftr_div_pow2, Hk. Qed.

Lemma sapp_cons (c : ascii) (a b : string) : String c a +:+ b = String c (a +:+ b).
Proof. reflexivity. Qed.
Lemma sapp_nil_l (b : string) : "" +:+ b = b.
Proof. reflexivity. Qed.

Lemma first_spec (b : Z) : lead_spec b (first b).
Proof.
  unfold first.
  repeat match goal with
         | |- context [if ?x <? ?y then _ else _] => destruct (Z.ltb_spec x y)
         | |- context [if ?x =? ?y then _ else _] => destruct (Z.eqb_spec x y)
         end; constructor; lia.
Qed.

Ltac bounds :=
  repeat match goal with
         | c : ascii |- _ =>
           lazymatch goal with
           | H : 0 <= byte_val c < 256 |- _ => fail
           | _ => pose proof (byte_val_range c)
           end
         end.

Lemma enc2 (c0 c1 : ascii) :
  0xC2 <= byte_val c0 <= 0xDF -> 0x80 <= byte_val c1 <= 0xBF ->
  EncodeRune (byte_val c0 mod 32 * 64 + byte_val c1 mod 64) = String c0 (String c1 "").
Proof.
  intros H0 H1. unfold EncodeRune.
  set (r := byte_val c0 mod 32 * 64 + byte_val c1 mod 64).
  assert (Hr : r = (byte_val c0 - 192) * 64 + (byte_val c1 - 128)).
  { unfold r. Z.div_mod_to_equations. lia. }
  destruct ((0 <=? r) && (r <=? 0x7F)) eqn:E1; [lia|].
  destruct ((0 <=? r) && (r <=? 0x7FF)) eqn:E2; [|lia].
  rewrite (lead_arith 0xC0 r 6 64 32), cont_arith;
    [ | lia | reflexivity | lia | lia | exists 5; split; [lia|reflexivity] | reflexivity].
  replace (192 + r / 64) with (byte_val c0) by (Z.div_mod_to_equations; lia).
  replace (128 + r mod 64) with (byte_val c1) by (Z.div_mod_to_equations; lia).
  rewrite !byte_of_val. reflexivity.
Qed.

Lemma enc3 (c0 c1 c2 : ascii) :
  0xE0 <= byte_val c0 <= 0xEF -> 0x80 <= byte_val c1 <= 0xBF ->
  0x80 <= byte_val c2 <= 0xBF ->
  (byte_val c0 = 0xE0 -> 0xA0 <= byte_val c1) ->
  (byte_val c0 = 0xED -> byte_val c1 <= 0x9F) ->
  EncodeRune (byte_val c0 mod 16 * 4096 + byte_val c1 mod 64 * 64 + byte_val c2 mod 64)
  = String c0 (String c1 (String c2 "")).
Proof.
  intros H0 H1 H2 He0 Hed. unfold EncodeRune.
  set (r := _ + _ + _).
  assert (Hr : r = (byte_val c0 - 224) * 4096 + (byte_val c1 - 128) * 64
                   + (byte_val c2 - 128)).
  { unfold r. Z.div_mod_to_equations. lia. }
  assert (Hlo : 0x800 <= r <= 0xFFFF) by lia.
  assert (Hsur : r < 0xD800 \/ 0xDFFF < r) by lia.
  unfold MaxRune, surrogateMin, surrogateMax.
  destruct ((0 <=? r) && (r <=? 0x7F)) eqn:E1; [lia|].
  destruct ((0 <=? r) && (r <=? 0x7FF)) eqn:E2; [lia|].
  destruct ((r <? 0) || (0x10FFFF <? r) || ((0xD800 <=? r) && (r <=? 0xDFFF))) eqn:E3; [lia|].
  destruct (r <=? 0xFFFF) eqn:E4; [|lia].
  unfold encode3.
  rewrite (lead_arith 0xE0 r 12 4096 16), !cont_arith, (shiftr_div r 6 64);
    [ | lia | reflexivity | lia | reflexivity | lia | lia
      | exists 4; split; [lia|reflexivity] | reflexivity].
  replace (224 + r / 4096) with (byte_val c0) by (Z.div_mod_to_equations; lia).
  replace (128 + (r / 64) mod 64) with (byte_val c1) by (Z.div_mod_to_equations; lia).
  replace (128 + r mod 64) with (byte_val c2) by (Z.div_mod_to_equations; lia).
  rewrite !byte_of_val. reflexivity.
Qed.

Lemma enc4 (c0 c1 c2 c3 : ascii) :
  0xF0 <= byte_val c0 <= 0xF4 -> 0x80 <= byte_val c1 <= 0xBF ->
  0x80 <= byte_val c2 <= 0xBF -> 0x80 <= byte_val c3 <= 0xBF ->
  (byte_val c0 = 0xF0 -> 0x90 <= byte_val c1) ->
  (byte_val c0 = 0xF4 -> byte_val c1 <= 0x8F) ->
  EncodeRune (byte_val c0 mod 8 * 262144 + byte_val c1 mod 64 * 4096
              + byte_val c2 mod 64 * 64 + byte_val c3 mod 64)
  = String c0 (String c1 (String c2 (String c3 ""))).
Proof.
  intros H0 H1 H2 H3 Hf0 Hf4. unfold EncodeRune.
  set (r := _ + _ + _ + _).
  assert (Hr : r = (byte_val c0 - 240) * 262144 + (byte_val c1 - 128) * 4096
                   + (byte_val c2 - 128) * 64 + (byte_val c3 - 128)).
  { unfold r. Z.div_mod_to_equations. lia. }
  assert (Hlo : 0x10000 <= r <= 0x10FFFF) by lia.
  unfold MaxRune, surrogateMin, surrogateMax.
  destruct ((0 <=? r) && (r <=? 0x7F)) eqn:E1; [lia|].
  destruct ((0 <=? r) && (r <=? 0x7FF)) eqn:E2; [lia|].
  destruct ((r <? 0) || (0x10FFFF <? r) || ((0xD800 <=? r) && (r <=? 0xDFFF))) eqn:E3; [lia|].
  destruct (r <=? 0xFFFF) eqn:E4; [lia|].
  rewrite (lead_arith 0xF0 r 18 262144 8), !cont_arith, (shiftr_div r 6 64),
    (shiftr_div r 12 4096);
    [ | lia | reflexivity | lia | reflexivity | lia | reflexivity | lia | lia
      | exists 3; split; [lia|reflexivity] | reflexivity].
  replace (240 + r / 262144) with (byte_val c0) by (Z.div_mod_to_equations; lia).
  replace (128 + (r / 4096) mod 64) with (byte_val c1) by (Z.div_mod_to_equations; lia).
  replace (128 + (r / 64) mod 64) with (byte_val c2) by (Z.div_mod_to_equations; lia).
  replace (128 + r mod 64) with (byte_val c3) by (Z.div_mod_to_equations; lia).
  rewrite !byte_of_val. reflexivity.
Qed.

Lemma stake_sdrop (n : nat) (s : string) : stake n s +:+ sdrop n s = s.
Proof.
  revert s; induction n as [|n IH]; intros [|c s]; simpl; try reflexivity.
  rewrite sapp_cons, IH. reflexivity.
Qed.

Lemma rune_error_val : RuneError = 0xFFFD.
Proof. reflexivity. Qed.

(** A multi-byte sequence that decodes is the encoding of its rune, and
    decodes the same whatever follows it. *)
Lemma decode_chunk (c0 : ascii) (r0 : string) (r : Z) (n : nat) :
  0x80 <= byte_val c0 ->
  DecodeRuneInString (stake UTFMax (String c0 r0)) = (r, n) ->
  (r = RuneError /\ n = 1%nat) \/ chunk (stake n (String c0 r0)) r.
Proof.
  intros Hc0. unfold UTFMax, DecodeRuneInString. cbn [stake].
  pose proof (first_spec (byte_val c0)) as Hf.
  destruct (first (byte_val c0)) as [| |sz lo hi] eqn:Ef.
  - inversion Hf; lia.
  - intros [= <- <-]. left; auto.
  - destruct r0 as [|c1 r1].
    { cbn [String.length stake].
      match goal with |- context [if ?b then _ else _] => destruct b end;
        intros [= <- <-]; left; auto. }
    destruct (String.length _ <? sz)%nat eqn:El; [intros [= <- <-]; left; auto|].
    destruct ((byte_val c1 <? lo) || (hi <? byte_val c1)) eqn:E1;
      [intros [= <- <-]; left; auto|].
    bounds.
    assert (Hsz : sz = 2%nat \/ sz = 3%nat \/ sz = 4%nat) by (inversion Hf; auto).
    destruct Hsz as [-> | [-> | ->]]; cbn [Nat.leb].
    + (* two bytes *)
      intros [= <- <-]. right. rewrite rune2_arith.
      assert (Hb0 : 0xC2 <= byte_val c0 <= 0xDF) by (inversion Hf; lia).
      assert (Hb1 : 0x80 <= byte_val c1 <= 0xBF) by (inversion Hf; subst; lia).
      cbn [stake]. repeat split.
      * intros k. rewrite !sapp_cons. unfold DecodeRuneInString, UTFMax. cbn [stake].
        rewrite Ef, E1. cbn. rewrite rune2_arith. reflexivity.
      * apply enc2; assumption.
      * eauto.
      * rewrite rune_error_val. intros [_ Hl]. discriminate Hl.
      * Z.div_mod_to_equations; lia.
      * unfold MaxRune. Z.div_mod_to_equations; lia.
    + (* three bytes *)
      destruct r1 as [|c2 r2]; [cbn in El; discriminate|].
      cbn [stake].
      destruct ((byte_val c2 <? locb) || (hicb <? byte_val c2)) eqn:E2;
        [intros [= <- <-]; left; auto|].
      intros [= <- <-]. right. rewrite rune3_arith. bounds. cbn [stake].
      unfold locb, hicb in E2.
      assert (Hb0 : 0xE0 <= byte_val c0 <= 0xEF) by (inversion Hf; lia).
      assert (Hb1 : 0x80 <= byte_val c1 <= 0xBF) by (inversion Hf; subst; lia).
      assert (Hb2 : 0x80 <= byte_val c2 <= 0xBF) by lia.
      assert (He0 : byte_val c0 = 0xE0 -> 0xA0 <= byte_val c1)
        by (inversion Hf; subst; lia).
      assert (Hed : byte_val c0 = 0xED -> byte_val c1 <= 0x9F)
        by (inversion Hf; subst; lia).
      repeat split.
      * intros k. rewrite !sapp_cons. unfold DecodeRuneInString, UTFMax. cbn [stake].
        rewrite Ef, E1. unfold locb, hicb. rewrite E2. cbn. rewrite rune3_arith. reflexivity.
      * apply enc3; assumption.
      * eauto.
      * intros [_ Hl]. discriminate Hl.
      * Z.div_mod_to_equations; lia.
      * unfold MaxRune. Z.div_mod_to_equations; lia.
    + (* four bytes *)
      destruct r1 as [|c2 r2]; [cbn in El; discriminate|].
      destruct r2 as [|c3 r3]; [cbn in El; discriminate|].
      cbn [stake].
      destruct ((byte_val c2 <? locb) || (hicb <? byte_val c2)) eqn:E2;
        [intros [= <- <-]; left; auto|].
      destruct ((byte_val c3 <? locb) || (hicb <? byte_val c3)) eqn:E3;
        [intros [= <- <-]; left; auto|].
      intros [= <- <-]. right. rewrite rune4_arith. bounds. cbn [stake].
      unfold locb, hicb in E2, E3.
      assert (Hb0 : 0xF0 <= byte_val c0 <= 0xF4) by (inversion Hf; lia).
      assert (Hb1 : 0x80 <= byte_val c1 <= 0xBF) by (inversion Hf; subst; lia).
      assert (Hb2 : 0x80 <= byte_val c2 <= 0xBF) by lia.
      assert (Hb3 : 0x80 <= byte_val c3 <= 0xBF) by lia.
      assert (Hf0 : byte_val c0 = 0xF0 -> 0x90 <= byte_val c1)
        by (inversion Hf; subst; lia).
      assert (Hf4 : byte_val c0 = 0xF4 -> byte_val c1 <= 0x8F)
        by (inversion Hf; subst; lia).
      repeat split.
      * intros k. rewrite !sapp_cons. unfold DecodeRuneInString, UTFMax. cbn [stake].
        rewrite Ef, E1. unfold locb, hicb. rewrite E2, E3. cbn. rewrite rune4_arith.
        reflexivity.
      * apply enc4; assumption.
      * eauto.
      * intros [_ Hl]. discriminate Hl.
      * Z.div_mod_to_equations; lia.
      * unfold MaxRune. Z.div_mod_to_equations; lia.
Qed.



Lemma sapp_assoc (a b c : string) : (a +:+ b) +:+ c = a +:+ (b +:+ c).
Proof. induction a; simpl; rewrite ?sapp_cons, ?sapp_nil_l; congruence. Qed.

Lemma sapp_nil_r (a : string) : a +:+ "" = a.
Proof. induction a; rewrite ?sapp_cons, ?sapp_nil_l; congruence. Qed.

Lemma slength_app (a b : string) :
  String.length (a +:+ b) = (String.length a + String.length b)%nat.
Proof. induction a; rewrite ?sapp_cons, ?sapp_nil_l; simpl; congruence. Qed.

Lemma sdrop_app (a b : string) : sdrop (String.length a) (a +:+ b) = b.
Proof. induction a; rewrite ?sapp_cons, ?sapp_nil_l; simpl; auto. Qed.

(** one escaped ASCII byte is read back as that byte *)
Lemma unquote_escape (c : ascii) (fuel : nat) (t : string) :
  byte_val c < 0x80 -> htmlSafeSet (byte_val c) = false ->
  unquote (S fuel) (escapeByte c +:+ t) = next (unquote fuel t) (String c "").
Proof.
  destruct c as [[] [] [] [] [] [] [] []]; intros Hb Hs;
    try (exfalso; vm_compute in Hb; discriminate Hb);
    try (exfalso; vm_compute in Hs; discriminate Hs);
    reflexivity.
Qed.

Lemma unquote_safe (c : ascii) (fuel : nat) (t : string) :
  byte_val c < 0x80 -> htmlSafeSet (byte_val c) = true ->
  unquote (S fuel) (String c t) = next (unquote fuel t) (String c "").
Proof.
  intros Hb Hs. unfold htmlSafeSet in Hs. cbn [unquote].
  destruct (byte_val c =? 34) eqn:E1; [lia|].
  destruct (byte_val c =? 92) eqn:E2; [lia|].
  destruct (byte_val c <? 32) eqn:E3; [lia|].
  destruct (byte_val c <? RuneSelf) eqn:E4; [|unfold RuneSelf in E4; lia].
  reflexivity.
Qed.

Lemma unquote_raw (e : string) (r : Z) (fuel : nat) (t : string) :
  chunk e r ->
  unquote (S fuel) (e +:+ t) = next (unquote fuel t) e.
Proof.
  intros (Hdec & Henc & (c0 & rest & -> & Hc0) & _ & _).
  rewrite sapp_cons. cbn [unquote].
  destruct (byte_val c0 =? 34) eqn:E1; [lia|].
  destruct (byte_val c0 =? 92) eqn:E2; [lia|].
  destruct (byte_val c0 <? 32) eqn:E3; [lia|].
  destruct (byte_val c0 <? RuneSelf) eqn:E4; [unfold RuneSelf in E4; lia|].
  rewrite <- sapp_cons, Hdec, sdrop_app, Henc. reflexivity.
Qed.

Lemma unquote_ufffd (fuel : nat) (t : string) :
  unquote (S fuel) ("\ufffd" +:+ t) = next (unquote fuel t) (EncodeRune RuneError).
Proof. reflexivity. Qed.

Lemma unquote_u2028 (r : Z) (fuel : nat) (t : string) :
  r = 0x2028 \/ r = 0x2029 ->
  unquote (S fuel) (("\u202" +:+ String (hexdigit (Z.land r 0xF)) "") +:+ t)
  = next (unquote fuel t) (EncodeRune r).
Proof. intros [-> | ->]; reflexivity. Qed.

Lemma unquote_end (fuel : nat) (k : string) :
  unquote (S fuel) (String quote k) = Some ("", k).
Proof. reflexivity. Qed.

Lemma escapeByte_length (c : ascii) : (1 <= String.length (escapeByte c))%nat.
Proof.
  unfold escapeByte.
  repeat match goal with
         | |- context [if ?b then _ else _] => destruct b
         end; rewrite ?sapp_cons; simpl; lia.
Qed.

Lemma length_stake_le (m : nat) (t : string) :
  (String.length (stake m t) <= String.length t)%nat.
Proof.
  revert t; induction m as [|m IH]; intros [|c t]; simpl; try lia.
  specialize (IH t). lia.
Qed.

Lemma appendString_loop_quote (n : nat) (s : string) :
  (String.length s <= n)%nat ->
  forall (fuel : nat) (k : string),
    (String.length (appendString_loop n s) < fuel)%nat ->
    unquote fuel (appendString_loop n s +:+ String quote k)
    = Some (CoerceUTF8_loop n s, k).
Proof.
  revert s. induction n as [|n IH]; intros s Hn fuel k Hfuel.
  { destruct s; [|simpl in Hn; lia]. simpl in *.
    destruct fuel; [lia|]. reflexivity. }
  destruct s as [|c rest].
  { simpl in *. destruct fuel; [lia|]. reflexivity. }
  simpl in Hn. cbn [appendString_loop CoerceUTF8_loop] in *.
  destruct fuel as [|fuel]; [lia|].
  destruct (byte_val c <? RuneSelf) eqn:Ec.
  - (* ASCII *)
    assert (Hb : byte_val c < 0x80) by (unfold RuneSelf in Ec; lia).
    assert (Hd : DecodeRuneInString (stake UTFMax (String c rest)) = (byte_val c, 1%nat)).
    { unfold DecodeRuneInString, UTFMax. cbn [stake].
      pose proof (first_spec (byte_val c)) as Hf.
      destruct (first (byte_val c)); [reflexivity | inversion Hf; lia ..]. }
    rewrite Hd.
    assert (Hne : (byte_val c =? RuneError) && (1 =? 1)%nat = false).
    { unfold RuneError. rewrite andb_false_iff. left. lia. }
    rewrite Hne. cbn [stake sdrop].
    rewrite slength_app in Hfuel. rewrite sapp_assoc.
    destruct (htmlSafeSet (byte_val c)) eqn:Es.
    + rewrite sapp_cons, sapp_nil_l, unquote_safe by assumption.
      rewrite IH; [reflexivity | lia | simpl in Hfuel; lia].
    + rewrite unquote_escape by assumption.
      rewrite IH; [reflexivity | lia |].
      pose proof (escapeByte_length c). lia.
  - (* multi-byte or invalid *)
    assert (Hb : 0x80 <= byte_val c) by (unfold RuneSelf in Ec; lia).
    destruct (DecodeRuneInString (stake UTFMax (String c rest))) as [r size] eqn:Hd.
    destruct (decode_chunk c rest r size Hb Hd) as [[-> ->] | Hch].
    + change ((RuneError =? RuneError) && (1 =? 1)%nat) with true in *.
      cbn iota in *. cbn [sdrop]. rewrite slength_app in Hfuel. rewrite sapp_assoc, unquote_ufffd.
      rewrite IH; [reflexivity | lia | cbn in Hfuel; lia].
    + assert (Hlen : (1 <= size <= S (String.length rest))%nat /\
                     String.length (stake size (String c rest)) = size).
      { destruct Hch as (Hdec & _ & (c0 & rest' & He & _) & _ & _).
        specialize (Hdec (sdrop size (String c rest))).
        rewrite stake_sdrop, Hd in Hdec. injection Hdec as Hl.
        pose proof (length_stake_le size (String c rest)) as Hle. simpl in Hle.
        destruct size; [simpl in He; discriminate He|]. split; lia. }
      destruct Hlen as [Hsz Hlen].
      assert (Hne : (r =? RuneError) && (size =? 1)%nat = false).
      { destruct Hch as (_ & _ & _ & Hn1 & _). rewrite Hlen in Hn1.
        destruct (Z.eqb_spec r RuneError), (Nat.eqb_spec size 1); auto.
        exfalso; auto. }
      rewrite Hne in *.
      assert (Hrest : (String.length (sdrop size (String c rest)) <= n)%nat).
      { pose proof (stake_sdrop size (String c rest)) as E.
        apply (f_equal String.length) in E. rewrite slength_app in E. simpl in E. lia. }
      destruct ((r =? 0x2028) || (r =? 0x2029)) eqn:E28.
      * rewrite !slength_app in Hfuel.
        rewrite <- sapp_assoc, sapp_assoc, unquote_u2028 by lia.
        destruct Hch as (_ & -> & _).
        rewrite IH; [reflexivity | lia | cbn in Hfuel; lia].
      * rewrite slength_app in Hfuel.
        rewrite sapp_assoc, (unquote_raw _ r) by assumption.
        rewrite IH; [reflexivity | lia | lia].
Qed.



Lemma is_digit_numchar (c : ascii) : is_digit c = true -> is_numchar c = true.
Proof. intros Hd. unfold is_numchar. rewrite Hd. reflexivity. Qed.

Lemma all_numchar_skip_digits (s : string) :
  all_numchar (skip_digits s) = all_numchar s.
Proof.
  induction s as [|c r IH]; [reflexivity|]. simpl.
  destruct (is_digit c) eqn:Hd; [|reflexivity].
  rewrite IH, (is_digit_numchar c Hd). reflexivity.
Qed.

Lemma eqb_numchar (c x : ascii) :
  Ascii.eqb c x = true -> is_numchar x = true -> is_numchar c = true.
Proof. intros ->%Ascii.eqb_eq. auto. Qed.

Lemma all_numchar_skip_fraction (s2 : string) :
  all_numchar (skip_fraction s2) = true -> all_numchar s2 = true.
Proof.
  destruct s2 as [|p s]; [auto|].
  destruct (Ascii.eqb p ".") eqn:Ep.
  - apply Ascii.eqb_eq in Ep as ->. destruct s as [|d' r]; [auto|].
    cbn [skip_fraction].
    destruct (is_digit d') eqn:Hd'; [|auto].
    rewrite all_numchar_skip_digits. simpl.
    rewrite (is_digit_numchar d' Hd'). auto.
  - destruct p as [[] [] [] [] [] [] [] []]; try (intros Hx; exact Hx).
    discriminate Ep.
Qed.

Lemma isValidNumber_all (lit : string) :
  isValidNumber lit = true -> all_numchar lit = true.
Proof.
  unfold isValidNumber. destruct lit as [|c0 r0]; [discriminate|].
  assert (H1 : all_numchar (if Ascii.eqb c0 "-" then r0 else String c0 r0) = true ->
               all_numchar (String c0 r0) = true).
  { destruct (Ascii.eqb c0 "-") eqn:E; [|auto].
    simpl. intros ->. rewrite (eqb_numchar c0 "-" E); reflexivity. }
  destruct (if Ascii.eqb c0 "-" then r0 else String c0 r0) as [|d r1]; [discriminate|].
  destruct (is_digit d) eqn:Hd; [|discriminate].
  assert (H2 : all_numchar (if Ascii.eqb d "0" then r1 else skip_digits r1) = true ->
               all_numchar (String d r1) = true).
  { simpl. rewrite (is_digit_numchar d Hd).
    destruct (Ascii.eqb d "0"); [auto|]. rewrite all_numchar_skip_digits. auto. }
  fold (skip_fraction (if Ascii.eqb d "0" then r1 else skip_digits r1)).
  pose proof (all_numchar_skip_fraction
                (if Ascii.eqb d "0" then r1 else skip_digits r1)) as H3.
  intros Hv. apply H1, H2, H3.
  destruct (skip_fraction _) as [|e [|c r]]; [reflexivity | discriminate |].
  destruct (Ascii.eqb e "e" || Ascii.eqb e "E") eqn:Ee; [|discriminate].
  assert (He : is_numchar e = true).
  { apply orb_true_iff in Ee as [E | E]; eapply eqb_numchar; eauto. }
  cbn [all_numchar]. rewrite He. cbn [andb].
  destruct (Ascii.eqb c "+" || Ascii.eqb c "-") eqn:Ec.
  - assert (Hc : is_numchar c = true).
    { apply orb_true_iff in Ec as [E | E]; eapply eqb_numchar; eauto. }
    rewrite Hc. cbn [andb]. destruct r; [discriminate|].
    apply String.eqb_eq in Hv. rewrite <- all_numchar_skip_digits, Hv. reflexivity.
  - apply String.eqb_eq in Hv.
    change (is_numchar c && all_numchar r) with (all_numchar (String c r)).
    rewrite <- all_numchar_skip_digits, Hv. reflexivity.
Qed.

Lemma isValidNumber_head (lit : string) :
  isValidNumber lit = true ->
  exists c r, lit = String c r /\ (byte_val c =? 45) || is_digit c = true.
Proof.
  unfold isValidNumber. destruct lit as [|c0 r0]; [discriminate|].
  intros Hv. exists c0, r0. split; [reflexivity|].
  destruct (Ascii.eqb c0 "-") eqn:E.
  - apply Ascii.eqb_eq in E as ->. reflexivity.
  - destruct (is_digit c0); [apply orb_true_r | discriminate].
Qed.

Lemma span_number_app (lit : string) (d : ascii) (k : string) :
  all_numchar lit = true -> is_numchar d = false ->
  span_number (lit +:+ String d k) = (lit, String d k).
Proof.
  intros Hall Hd. induction lit as [|c r IH].
  - rewrite sapp_nil_l. simpl. rewrite Hd. reflexivity.
  - simpl in Hall. apply andb_true_iff in Hall as [Hc Hr].
    rewrite sapp_cons. simpl. rewrite Hc, (IH Hr). reflexivity.
Qed.



Lemma delim_not_numchar (d : ascii) : is_delim d = true -> is_numchar d = false.
Proof.
  unfold is_delim. intros Hd.
  destruct d as [[] [] [] [] [] [] [] []]; try reflexivity; discriminate Hd.
Qed.

Lemma scan_string (s : string) (fuel : nat) (k : string) :
  scan_value (S fuel) (appendString s +:+ k) = Some (JString (CoerceUTF8 s), k).
Proof.
  unfold appendString. rewrite sapp_cons. cbn [scan_value].
  change (skip_ws (String quote ?x)) with (String quote x).
  cbn beta iota. change (byte_val quote =? 123) with false.
  change (byte_val quote =? 91) with false. change (byte_val quote =? 34) with true.
  cbn iota. rewrite sapp_assoc, sapp_cons, sapp_nil_l.
  unfold CoerceUTF8.
  rewrite appendString_loop_quote; [reflexivity | lia |].
  simpl. rewrite slength_app. lia.
Qed.

Lemma scan_number (lit : string) (fuel : nat) (d : ascii) (k : string) :
  isValidNumber lit = true -> is_delim d = true ->
  scan_value (S fuel) (lit +:+ String d k) = Some (JNumber lit, String d k).
Proof.
  intros Hv Hd.
  destruct (isValidNumber_head lit Hv) as (c & r & -> & Hc).
  pose proof (span_number_app (String c r) d k (isValidNumber_all _ Hv)
                (delim_not_numchar d Hd)) as Hspan.
  rewrite sapp_cons in *. cbn [scan_value].
  assert (Hb : byte_val c = 45 \/ 48 <= byte_val c <= 57).
  { unfold is_digit in Hc. lia. }
  assert (Hsp : isSpace c = false) by (unfold isSpace; lia).
  cbn [skip_ws]. rewrite Hsp.
  destruct (byte_val c =? 123) eqn:E1; [lia|].
  destruct (byte_val c =? 91) eqn:E2; [lia|].
  destruct (byte_val c =? 34) eqn:E3; [lia|].
  rewrite Hc, Hspan, Hv. reflexivity.
Qed.

Lemma scan_bool (b : bool) (fuel : nat) (k : string) :
  scan_value (S fuel) ((if b then "true" else "false") +:+ k) = Some (JBool b, k).
Proof. destruct b; reflexivity. Qed.

Lemma isValidNumber_FormatInt (z : Z) : isValidNumber (FormatInt z) = true.
Proof.
  unfold FormatInt. destruct z as [|p|p]; [reflexivity | |].
  - apply isValidNumber_uint. change (Pos.to_uint p) with (N.to_uint (N.pos p)).
    apply N_to_uint_unorm.
  - cbn [Z.to_int NilZero.string_of_int].
    pose proof (N_to_uint_unorm (N.pos p)) as Hu. cbn [N.to_uint] in Hu.
    destruct (unorm_fixed_head _ Hu) as [E | [Hn H0]].
    + exfalso. eapply Unsigned.to_uint_nonzero; eauto.
    + destruct (Pos.to_uint p) eqn:Ed; try congruence;
        try (exfalso; eapply H0; reflexivity);
        cbn -[skip_digits]; rewrite skip_digits_uint; reflexivity.
Qed.

Section Scan.
Context `{Strconv}.

Lemma encode_value_scan (v : govalue) (t : string) (fuel : nat) (d : ascii) (k : string) :
  encode_value v = Ok t -> encodable v = true -> is_delim d = true ->
  (0 < fuel)%nat ->
  scan_value fuel (t +:+ String d k) = Some (json_of v, String d k).
Proof.
  intros Ht He Hd Hfuel. destruct fuel as [|fuel]; [lia|]. destruct v as [s|z|f|b]; cbn [encode_value json_of] in *.
  - injection Ht as <-. apply scan_string.
  - injection Ht as <-. apply scan_number; auto using isValidNumber_FormatInt.
  - cbn [encodable] in He. apply andb_true_iff in He as [Hf Hn].
    apply negb_true_iff in Hn. rewrite Hn in Ht. injection Ht as <-.
    apply scan_number; auto using FormatFloat_number.
  - injection Ht as <-. apply scan_bool.
Qed.

Lemma unquote_appendString (s : string) (fuel : nat) (k : string) :
  (String.length (appendString s) <= fuel)%nat ->
  unquote fuel (appendString_loop (String.length s) s +:+ String quote k)
  = Some (CoerceUTF8 s, k).
Proof.
  intros Hf. apply appendString_loop_quote; [lia|].
  unfold appendString in Hf. simpl in Hf. rewrite slength_app in Hf. lia.
Qed.

Lemma scan_members_encode (fs : gofields) :
  forall (next text : string),
    fs <> [] -> Forall (fun f => encodable (snd f) = true) fs ->
    encode_fields next fs = Ok text ->
    exists tl, text = next +:+ String quote tl /\
      (length fs <= String.length tl)%nat /\
      forall (fuel : nat) (k : string),
        (length fs < fuel)%nat ->
        scan_members fuel (String quote tl +:+ k) = Some (map member_of fs, k).
Proof.
  induction fs as [|[name v] fs IH]; intros next text Hne Hall Henc; [congruence|].
  cbn [encode_fields] in Henc.
  destruct (encode_value v) as [t|] eqn:Ev; [|discriminate].
  destruct (encode_fields "," fs) as [r|] eqn:Er; [|discriminate].
  injection Henc as <-.
  apply Forall_cons in Hall as [Hv Hall]. cbn [snd] in Hv.
  assert (Hkey : forall (fuel : nat) (d : ascii) (k : string),
             is_delim d = true -> (0 < fuel)%nat ->
             scan_members (S fuel)
               (appendString name +:+ ":" +:+ t +:+ String d k)
             = match (if byte_val d =? 125 then Some ([] , k)
                      else match scan_members fuel (skip_ws k) with
                           | Some (ms, k5) => Some (ms, k5)
                           | None => None
                           end) with
               | Some (ms, k') => Some (member_of (name, v) :: ms, k')
               | None => None
               end).
  { intros fuel d k Hd Hfuel. unfold appendString at 1. rewrite !sapp_cons.
    cbn [scan_members]. change (byte_val quote =? 34) with true. cbn iota.
    rewrite sapp_assoc, sapp_cons, sapp_nil_l.
    rewrite unquote_appendString.
    2:{ unfold appendString. simpl. rewrite !slength_app. simpl. lia. }
    rewrite ?sapp_cons, ?sapp_nil_l. cbn iota beta.
    change (skip_ws (String ":" ?x)) with (String ":"%char x). cbn iota beta.
    change (byte_val ":" =? 58) with true. cbn iota.
    rewrite (encode_value_scan v t fuel d k Ev Hv Hd Hfuel).
    assert (Hsp : skip_ws (String d k) = String d k).
    { unfold is_delim in Hd. cbn [skip_ws]. unfold isSpace.
      destruct (_ || _ || _ || _) eqn:E; [lia | reflexivity]. }
    rewrite Hsp. unfold is_delim in Hd.
    destruct (byte_val d =? 125) eqn:E125; [reflexivity|].
    destruct (byte_val d =? 44) eqn:E44; [|lia].
    destruct (scan_members fuel (skip_ws k)) as [[ms k5]|]; reflexivity. }
  exists ((appendString_loop (String.length name) name +:+ String quote "")
          +:+ ":" +:+ t +:+ r).
  split; [unfold appendString; rewrite sapp_cons; reflexivity|].
  assert (Hfold : forall k,
             String quote ((appendString_loop (String.length name) name
                            +:+ String quote "") +:+ ":" +:+ t +:+ r) +:+ k
             = appendString name +:+ ":" +:+ t +:+ r +:+ k).
  { intros k. unfold appendString.
    repeat (rewrite sapp_assoc || rewrite sapp_cons || rewrite sapp_nil_l).
    reflexivity. }
  destruct fs as [|f' fs'].
  - cbn [encode_fields] in Er. injection Er as <-.
    split; [rewrite !slength_app; simpl; lia|].
    intros fuel k Hf. destruct fuel as [|fuel]; [simpl in Hf; lia|].
    rewrite Hfold. change ("}" +:+ k) with (String "}" k).
    rewrite Hkey by (reflexivity || (simpl in Hf; lia)). reflexivity.
  - destruct (IH "," r ltac:(discriminate) Hall Er) as (tl & -> & Hlen & Hscan).
    split.
    { rewrite !slength_app. simpl in *. lia. }
    intros fuel k Hf. destruct fuel as [|fuel]; [simpl in Hf; lia|].
    rewrite Hfold.
    change (("," +:+ String quote tl) +:+ k) with (String "," (String quote tl +:+ k)).
    rewrite Hkey by (reflexivity || (simpl in Hf; lia)).
    change (byte_val "," =? 125) with false. cbn iota.
    rewrite sapp_cons.
    change (skip_ws (String quote ?x)) with (String quote x).
    rewrite <- sapp_cons, Hscan by (simpl in Hf; simpl; lia). reflexivity.
Qed.
End Scan.



Lemma ParseInt_FormatInt (z : Z) : is_int z = true -> ParseInt (FormatInt z) = Some z.
Proof.
  intros Hz. unfold ParseInt, FormatInt.
  rewrite NilZero.isi.
  - rewrite DecimalZ.of_to, Hz. reflexivity.
  - destruct z; simpl; try discriminate; intros [= E];
      eapply Unsigned.to_uint_nonnil; eauto.
  - destruct z; simpl; try discriminate; intros [= E];
      eapply Unsigned.to_uint_nonnil; eauto.
Qed.

Lemma index_where_middle (n : string) (x : govalue) (pre rest : gofields) :
  n ∉ map fst pre ->
  index_where (String.eqb n) (pre ++ (n, x) :: rest) = Some (length pre).
Proof.
  induction pre as [|[m y] pre IH]; intros Hn; simpl.
  - rewrite String.eqb_refl. reflexivity.
  - simpl in Hn. apply not_elem_of_cons in Hn as [Hm Hn].
    destruct (String.eqb_spec n m) as [->|_]; [congruence|].
    rewrite IH by assumption. reflexivity.
Qed.

Section Decode.
Context `{Strconv}.

Lemma store_json_of (name : string) (v old : govalue) :
  encodable v = true -> same_kind v old = true ->
  store name (json_of v) old = Ok (coerce_value v).
Proof.
  intros He Hk. destruct v, old; try discriminate Hk; cbn in *; try reflexivity.
  - rewrite ParseInt_FormatInt by assumption. reflexivity.
  - apply andb_true_iff in He as [Hf Hn]. apply negb_true_iff in Hn.
    rewrite ParseFloat_FormatFloat by assumption. reflexivity.
Qed.

Lemma decode_members_encoded (todo : gofields) :
  forall (pre ttodo : gofields),
    NoDup (map fst (pre ++ todo)) ->
    map fst ttodo = map fst todo ->
    Forall2 (fun f g => same_kind (snd f) (snd g) = true) todo ttodo ->
    Forall (fun f => encodable (snd f) = true) todo ->
    Forall (fun f => CoerceUTF8 (fst f) = fst f) todo ->
    decode_members (map member_of todo) (pre ++ ttodo)
    = Ok (pre ++ map coerce_field todo).
Proof.
  induction todo as [|[n v] todo IH]; intros pre ttodo Hnd Hnames Hkinds Henc Hplain.
  - destruct ttodo; [reflexivity | discriminate].
  - destruct ttodo as [|[n' old] ttodo]; [discriminate|].
    simpl in Hnames. injection Hnames as -> Hnames.
    apply Forall2_cons in Hkinds as [Hk Hkinds].
    apply Forall_cons in Henc as [He Henc].
    apply Forall_cons in Hplain as [Hp Hplain].
    cbn [fst snd] in *.
    cbn [map decode_members member_of fst snd]. rewrite Hp.
    assert (Hn : n ∉ map fst pre).
    { rewrite map_app in Hnd. apply NoDup_app in Hnd as (_ & Hd & _).
      intros Hin. apply (Hd n Hin). simpl. left. }
    unfold field_index. rewrite index_where_middle by assumption.
    rewrite list_lookup_middle by reflexivity.
    rewrite store_json_of by assumption.
    replace (<[length pre := (n, coerce_value v)]> (pre ++ (n, old) :: ttodo))
      with ((pre ++ [(n, coerce_value v)]) ++ ttodo).
    2:{ rewrite insert_app_r_alt by lia. rewrite Nat.sub_diag. simpl.
        rewrite <- app_assoc. reflexivity. }
    rewrite IH; try assumption.
    + rewrite <- app_assoc. reflexivity.
    + rewrite <- app_assoc. simpl. rewrite !map_app in *. simpl in *. exact Hnd.
Qed.

Lemma parse_marshal (fs : gofields) (text : string) :
  fs <> [] -> Forall (fun f => encodable (snd f) = true) fs ->
  marshal_fields fs = Ok text ->
  parse_json text = Some (JObject (map member_of fs)).
Proof.
  intros Hne Hall Hm. unfold marshal_fields in Hm.
  destruct fs as [|f fs]; [congruence|].
  destruct (scan_members_encode (f :: fs) "{" text Hne Hall Hm)
    as (tl & -> & Hlen & Hscan).
  unfold parse_json. change ("{" +:+ String quote tl) with (String "{" (String quote tl)).
  cbn [scan_value String.length].
  change (skip_ws (String "{" ?x)) with (String "{"%char x). cbn iota beta.
  change (byte_val "{" =? 123) with true. cbn iota.
  change (skip_ws (String quote ?x)) with (String quote x). cbn iota beta.
  change (byte_val quote =? 125) with false. cbn iota.
  rewrite <- (sapp_nil_r (String quote tl)).
  rewrite Hscan by (simpl in *; lia). reflexivity.
Qed.

Theorem unmarshal_marshal (fs target : gofields) (text : string) :
  fs <> [] ->
  NoDup (map fst fs) ->
  map fst target = map fst fs ->
  Forall2 (fun f g => same_kind (snd f) (snd g) = true) fs target ->
  Forall (fun f => encodable (snd f) = true) fs ->
  Forall (fun f => CoerceUTF8 (fst f) = fst f) fs ->
  marshal_fields fs = Ok text ->
  unmarshal_fields text target = Ok (map coerce_field fs).
Proof.
  intros Hne Hnd Hnames Hkinds Henc Hplain Hm.
  unfold unmarshal_fields. rewrite (parse_marshal fs text Hne Henc Hm).
  apply (decode_members_encoded fs [] target); assumption.
Qed.
End Decode.



Lemma decode_size_pos (c : ascii) (r0 : string) :
  (1 <= snd (DecodeRuneInString (stake UTFMax (String c r0))))%nat.
Proof.
  unfold DecodeRuneInString, UTFMax. cbn [stake].
  repeat match goal with
         | |- context [match ?x with _ => _ end] => destruct x
         end; simpl; lia.
Qed.

Lemma length_sdrop (n : nat) (s : string) :
  String.length (sdrop n s) = (String.length s - n)%nat.
Proof. revert s; induction n; intros [|c s]; simpl; auto. Qed.

Lemma ValidString_loop_coerce (n : nat) (s : string) :
  (String.length s <= n)%nat ->
  ValidString_loop n s = true -> CoerceUTF8_loop n s = s.
Proof.
  revert s; induction n as [|n IH]; intros s Hn Hv.
  - destruct s; [reflexivity | simpl in Hn; lia].
  - destruct s as [|c r]; [reflexivity|].
    cbn [ValidString_loop CoerceUTF8_loop] in *.
    pose proof (decode_size_pos c r) as Hpos.
    destruct (DecodeRuneInString (stake UTFMax (String c r))) as [rr size].
    destruct ((rr =? RuneError) && (size =? 1)%nat); [discriminate|].
    rewrite IH; [apply stake_sdrop | | assumption].
    rewrite length_sdrop. simpl in *. lia.
Qed.

Lemma ValidString_coerce (s : string) : ValidString s = true -> CoerceUTF8 s = s.
Proof. apply ValidString_loop_coerce. lia. Qed.


Section Structs.
Context `{Strconv}.

Lemma Bank_roundtrip (x : Bank.LoanApplication) (text : string) :
  loan_ok x = true -> Bank.Marshal x = Ok text ->
  Bank.Unmarshal text Bank.zero = Ok (loan_coerce x).
Proof.
  intros Hok Hm. unfold loan_ok in Hok.
  apply andb_true_iff in Hok as [Hok Hfin].
  apply andb_true_iff in Hok as [Hok Hfl].
  apply andb_true_iff in Hok as [Ha Ht].
  unfold Bank.Unmarshal, Bank.Marshal in *.
  rewrite (unmarshal_marshal (Bank.fields x) (Bank.fields Bank.zero) text);
    [reflexivity | discriminate | | reflexivity | | | | exact Hm].
  - cbn. apply (bool_decide_unpack _). vm_compute. reflexivity.
  - cbn. repeat (constructor; [reflexivity|]). constructor.
  - cbn. repeat constructor; cbn; auto. rewrite Hfl, Hfin. reflexivity.
  - cbn. repeat (constructor; [reflexivity|]). constructor.
Qed.

Lemma Identity_roundtrip (x : Identity.Identity) (text : string) :
  Identity.Marshal x = Ok text ->
  Identity.Unmarshal text Identity.zero
  = Ok (Identity.of_fields (map coerce_field (Identity.fields x))).
Proof.
  intros Hm. unfold Identity.Unmarshal, Identity.Marshal in *.
  rewrite (unmarshal_marshal (Identity.fields x) (Identity.fields Identity.zero) text);
    [reflexivity | discriminate | | reflexivity | | | | exact Hm].
  - cbn. apply (bool_decide_unpack _). vm_compute. reflexivity.
  - cbn. repeat (constructor; [reflexivity|]). constructor.
  - cbn. repeat constructor.
  - cbn. repeat (constructor; [reflexivity|]). constructor.
Qed.
End Structs.



Lemma decode_ascii (c : ascii) (t : string) :
  byte_val c < 0x80 ->
  DecodeRuneInString (stake UTFMax (String c t)) = (byte_val c, 1%nat).
Proof.
  intros Hb. unfold DecodeRuneInString, UTFMax. cbn [stake].
  pose proof (first_spec (byte_val c)) as Hf.
  destruct (first (byte_val c)); [reflexivity | inversion Hf; lia ..].
Qed.

Lemma wellformed_valid (s : string) :
  wellformed s -> forall n, (String.length s <= n)%nat -> ValidString_loop n s = true.
Proof.
  induction 1 as [|c t Hc _ IH|e r t Hch _ IH]; intros n Hn.
  - destruct n; reflexivity.
  - destruct n as [|n]; [simpl in Hn; lia|].
    cbn [ValidString_loop]. rewrite decode_ascii by assumption.
    assert (E : (byte_val c =? RuneError) = false) by (unfold RuneError; lia).
    rewrite E. cbn [andb sdrop]. apply IH. simpl in Hn. lia.
  - destruct Hch as (Hdec & _ & (c0 & rest & -> & Hc0) & Hne & _).
    rewrite slength_app in Hn.
    destruct n as [|n]; [simpl in Hn; lia|].
    rewrite sapp_cons. cbn [ValidString_loop]. rewrite <- sapp_cons, Hdec.
    destruct ((r =? RuneError) && (String.length (String c0 rest) =? 1)%nat) eqn:E.
    { exfalso. apply Hne. apply andb_true_iff in E as [E1 E2].
      apply Z.eqb_eq in E1. apply Nat.eqb_eq in E2. auto. }
    rewrite sdrop_app. apply IH. simpl in Hn. lia.
Qed.

Lemma wellformed_ValidString (s : string) : wellformed s -> ValidString s = true.
Proof. intros Hs. apply wellformed_valid; [assumption | lia]. Qed.

Lemma chunk2 (c0 c1 : ascii) :
  0xC2 <= byte_val c0 <= 0xDF -> 0x80 <= byte_val c1 <= 0xBF ->
  exists r, chunk (String c0 (String c1 "")) r.
Proof.
  intros H0 H1.
  destruct (DecodeRuneInString (stake UTFMax (String c0 (String c1 "")))) as [r n] eqn:Hd.
  destruct (decode_chunk c0 (String c1 "") r n ltac:(lia) Hd) as [[-> ->] | Hch].
  - exfalso. revert Hd. unfold DecodeRuneInString, UTFMax. cbn [stake String.length].
    pose proof (first_spec (byte_val c0)) as Hf.
    destruct (first (byte_val c0)) as [| |sz lo hi]; inversion Hf; subst; try lia.
    cbn [Nat.ltb Nat.leb].
    destruct ((byte_val c1 <? 128) || (191 <? byte_val c1)) eqn:E; [lia|].
    discriminate.
  - assert (n = 2%nat) as ->.
    { revert Hd. unfold DecodeRuneInString, UTFMax. cbn [stake String.length].
      pose proof (first_spec (byte_val c0)) as Hf.
      destruct (first (byte_val c0)) as [| |sz lo hi]; inversion Hf; subst; try lia.
      cbn [Nat.ltb Nat.leb].
      destruct ((byte_val c1 <? 128) || (191 <? byte_val c1)) eqn:E; [lia|].
      intros [= _ <-]. reflexivity. }
    exists r. exact Hch.
Qed.

Ltac decode_bytes Hd :=
  revert Hd; unfold DecodeRuneInString, UTFMax, locb, hicb;
  cbn [stake String.length];
  let Hf := fresh "Hf" in
  match goal with
  | |- context [first (byte_val ?c)] =>
    pose proof (first_spec (byte_val c)) as Hf;
    destruct (first (byte_val c)) as [| |? ? ?]; inversion Hf; subst; try lia
  end;
  cbn [Nat.ltb Nat.leb];
  repeat match goal with
         | |- context [if ?b then _ else _] =>
           let E := fresh "E" in destruct b eqn:E; [lia|]
         end.

Lemma chunk3 (c0 c1 c2 : ascii) :
  0xE0 <= byte_val c0 <= 0xEF -> 0x80 <= byte_val c1 <= 0xBF ->
  0x80 <= byte_val c2 <= 0xBF ->
  (byte_val c0 = 0xE0 -> 0xA0 <= byte_val c1) ->
  (byte_val c0 = 0xED -> byte_val c1 <= 0x9F) ->
  exists r, chunk (String c0 (String c1 (String c2 ""))) r.
Proof.
  intros H0 H1 H2 He0 Hed.
  destruct (DecodeRuneInString (stake UTFMax (String c0 (String c1 (String c2 "")))))
    as [r n] eqn:Hd.
  destruct (decode_chunk c0 _ r n ltac:(lia) Hd) as [[-> ->] | Hch].
  - exfalso. decode_bytes Hd; discriminate.
  - assert (n = 3%nat) as -> by (decode_bytes Hd; intros [= _ <-]; reflexivity).
    exists r. exact Hch.
Qed.

Lemma chunk4 (c0 c1 c2 c3 : ascii) :
  0xF0 <= byte_val c0 <= 0xF4 -> 0x80 <= byte_val c1 <= 0xBF ->
  0x80 <= byte_val c2 <= 0xBF -> 0x80 <= byte_val c3 <= 0xBF ->
  (byte_val c0 = 0xF0 -> 0x90 <= byte_val c1) ->
  (byte_val c0 = 0xF4 -> byte_val c1 <= 0x8F) ->
  exists r, chunk (String c0 (String c1 (String c2 (String c3 "")))) r.
Proof.
  intros H0 H1 H2 H3 Hf0 Hf4.
  destruct (DecodeRuneInString
              (stake UTFMax (String c0 (String c1 (String c2 (String c3 ""))))))
    as [r n] eqn:Hd.
  destruct (decode_chunk c0 _ r n ltac:(lia) Hd) as [[-> ->] | Hch].
  - exfalso. decode_bytes Hd; discriminate.
  - assert (n = 4%nat) as -> by (decode_bytes Hd; intros [= _ <-]; reflexivity).
    exists r. exact Hch.
Qed.

Lemma encode3_chunk (r : Z) :
  0x800 <= r <= 0xFFFF -> r < 0xD800 \/ 0xDFFF < r ->
  exists r', chunk (encode3 r) r'.
Proof.
  intros Hr Hs. unfold encode3.
  rewrite (lead_arith 0xE0 r 12 4096 16), !cont_arith, (shiftr_div r 6 64);
    [ | lia | reflexivity | lia | reflexivity | lia | lia
      | exists 4; split; [lia|reflexivity] | reflexivity].
  assert (B0 : 0 <= 224 + r / 4096 < 256) by (Z.div_mod_to_equations; lia).
  assert (B1 : 0 <= 128 + (r / 64) mod 64 < 256) by (Z.div_mod_to_equations; lia).
  assert (B2 : 0 <= 128 + r mod 64 < 256) by (Z.div_mod_to_equations; lia).
  apply chunk3; rewrite ?byte_val_of by assumption;
    try (Z.div_mod_to_equations; lia).
Qed.

(** Whatever the rune, its encoding is one ASCII byte or a sequence that
    decodes. *)
Lemma EncodeRune_piece (r : Z) :
  (exists c, byte_val c < 0x80 /\ EncodeRune r = String c "")
  \/ (exists r', chunk (EncodeRune r) r').
Proof.
  unfold EncodeRune, MaxRune, surrogateMin, surrogateMax.
  destruct ((0 <=? r) && (r <=? 0x7F)) eqn:E1.
  { left. exists (byte_of r). split; [|reflexivity]. rewrite byte_val_of; lia. }
  right.
  destruct ((0 <=? r) && (r <=? 0x7FF)) eqn:E2.
  { rewrite (lead_arith 0xC0 r 6 64 32), cont_arith;
      [ | lia | reflexivity | lia | lia | exists 5; split; [lia|reflexivity] | reflexivity].
    assert (B0 : 0 <= 192 + r / 64 < 256) by (Z.div_mod_to_equations; lia).
    assert (B1 : 0 <= 128 + r mod 64 < 256) by (Z.div_mod_to_equations; lia).
    apply chunk2; rewrite ?byte_val_of by assumption; Z.div_mod_to_equations; lia. }
  destruct ((r <? 0) || (0x10FFFF <? r) || ((0xD800 <=? r) && (r <=? 0xDFFF))) eqn:E3.
  { apply encode3_chunk; unfold RuneError; lia. }
  destruct (r <=? 0xFFFF) eqn:E4.
  { apply encode3_chunk; lia. }
  rewrite (lead_arith 0xF0 r 18 262144 8), !cont_arith, (shiftr_div r 6 64),
    (shiftr_div r 12 4096);
    [ | lia | reflexivity | lia | reflexivity | lia | reflexivity | lia | lia
      | exists 3; split; [lia|reflexivity] | reflexivity].
  assert (B0 : 0 <= 240 + r / 262144 < 256) by (Z.div_mod_to_equations; lia).
  assert (B1 : 0 <= 128 + (r / 4096) mod 64 < 256) by (Z.div_mod_to_equations; lia).
  assert (B2 : 0 <= 128 + (r / 64) mod 64 < 256) by (Z.div_mod_to_equations; lia).
  assert (B3 : 0 <= 128 + r mod 64 < 256) by (Z.div_mod_to_equations; lia).
  apply chunk4; rewrite ?byte_val_of by assumption;
    try (Z.div_mod_to_equations; lia).
Qed.

Lemma wellformed_EncodeRune (r : Z) (t : string) :
  wellformed t -> wellformed (EncodeRune r +:+ t).
Proof.
  intros Ht. destruct (EncodeRune_piece r) as [(c & Hc & ->) | (r' & Hch)].
  - rewrite sapp_cons, sapp_nil_l. apply wf_ascii; assumption.
  - eapply wf_chunk; eassumption.
Qed.

Lemma unquote_wellformed (fuel : nat) :
  forall (s t k : string), unquote fuel s = Some (t, k) -> wellformed t.
Proof.
  induction fuel as [|fuel IH]; intros s t k Hu; [discriminate|].
  cbn [unquote] in Hu.
  destruct s as [|c rest]; [discriminate|].
  pose proof (byte_val_range c) as Hc.
  repeat match type of Hu with
         | (if ?b then _ else _) = _ => destruct b eqn:?
         | match ?x with _ => _ end = _ =>
           lazymatch x with
           | unquote fuel ?y =>
             let E := fresh "Eu" in
             destruct x as [[? ?]|] eqn:E; [apply IH in E|]
           | _ => destruct x eqn:?
           end
         | (let '(_, _) := ?x in _) = _ => destruct x eqn:?
         end;
    try discriminate; injection Hu as <- <-;
    try apply wf_nil;
    try (apply wellformed_EncodeRune; assumption);
    try (apply wf_ascii; [|assumption]).
  all: try (rewrite byte_val_of by lia; lia).
  all: try (unfold RuneSelf in *; lia).
  all: match goal with
       | a : ascii |- byte_val (byte_of (byte_val ?a)) < _ =>
         pose proof (byte_val_range a); rewrite byte_val_of by lia; lia
       end.
Qed.



Lemma scan_value_shallow (fuel : nat) (s : string) (v : json) (k : string) :
  scan_value fuel s = Some (v, k) -> jwf v.
Proof.
  destruct fuel as [|fuel]; [discriminate|]. cbn [scan_value].
  intros Hs.
  repeat match type of Hs with
         | (if ?b then _ else _) = _ => destruct b eqn:?
         | match ?x with _ => _ end = _ => destruct x eqn:?
         | (let '(_, _) := ?x in _) = _ => destruct x eqn:?
         | option_map _ ?x = _ => destruct x eqn:?; cbn [option_map] in Hs
         end;
    try discriminate; injection Hs as <- <-; cbn [jwf]; auto.
  all: try (eapply unquote_wellformed; eassumption).
  all: try match goal with p : (_ * _)%type |- _ => destruct p end.
  all: try (eapply unquote_wellformed; eassumption).
Qed.

Lemma scan_members_shallow (fuel : nat) :
  forall (s : string) (ms : list (string * json)) (k : string),
    scan_members fuel s = Some (ms, k) -> Forall (fun m => jwf (snd m)) ms.
Proof.
  induction fuel as [|fuel IH]; intros s ms k Hs; [discriminate|].
  cbn [scan_members] in Hs.
  repeat match type of Hs with
         | (if ?b then _ else _) = _ => destruct b eqn:?
         | match ?x with _ => _ end = _ =>
           lazymatch x with
           | scan_members fuel ?y =>
             let E := fresh "Em" in
             destruct x as [[? ?]|] eqn:E; [apply IH in E|]
           | scan_value fuel ?y =>
             let E := fresh "Ev" in
             destruct x as [[? ?]|] eqn:E; [apply scan_value_shallow in E|]
           | _ => destruct x eqn:?
           end
         end;
    try discriminate; injection Hs as <- <-;
    repeat constructor; assumption.
Qed.

Lemma scan_value_object (fuel : nat) (s : string) (ms : list (string * json))
    (k : string) :
  scan_value fuel s = Some (JObject ms, k) -> Forall (fun m => jwf (snd m)) ms.
Proof.
  destruct fuel as [|fuel]; [discriminate|]. cbn [scan_value].
  intros Hs.
  repeat match type of Hs with
         | (if ?b then _ else _) = _ => destruct b eqn:?
         | match ?x with _ => _ end = _ =>
           lazymatch x with
           | scan_members fuel ?y =>
             let E := fresh "Em" in
             destruct x as [[? ?]|] eqn:E; [apply scan_members_shallow in E|]
           | _ => destruct x eqn:?
           end
         | (let '(_, _) := ?x in _) = _ => destruct x eqn:?
         | option_map _ ?x = _ => destruct x eqn:?; cbn [option_map] in Hs
         end;
    try discriminate; injection Hs as <- <-; try constructor; assumption.
Qed.

Lemma parse_json_members (data : string) (ms : list (string * json)) :
  parse_json data = Some (JObject ms) -> Forall (fun m => jwf (snd m)) ms.
Proof.
  unfold parse_json.
  destruct (scan_value _ data) as [[v k]|] eqn:Hs; [|discriminate].
  destruct (skip_ws k); [|discriminate]. intros [= ->].
  eapply scan_value_object; eassumption.
Qed.

Lemma same_kind_refl (v : govalue) : same_kind v v = true.
Proof. destruct v; reflexivity. Qed.

Lemma same_kind_trans (u v w : govalue) :
  same_kind u v = true -> same_kind v w = true -> same_kind u w = true.
Proof. destruct u, v, w; simpl; congruence. Qed.

Lemma same_field_refl (fs : gofields) : Forall2 same_field fs fs.
Proof. induction fs; constructor; auto. split; auto using same_kind_refl. Qed.

Lemma same_field_trans (a b c : gofields) :
  Forall2 same_field a b -> Forall2 same_field b c -> Forall2 same_field a c.
Proof.
  intros Hab. revert c. induction Hab as [|x y a b [E1 K1] _ IH]; intros c Hbc.
  - inversion Hbc. constructor.
  - inversion Hbc as [|? z ? c' [E2 K2] Hbc']; subst. constructor; [|auto].
    split; [congruence | eapply same_kind_trans; eassumption].
Qed.

Lemma same_field_insert (fs : gofields) (i : nat) (name : string) (v old : govalue) :
  fs !! i = Some (name, old) -> same_kind v old = true ->
  Forall2 same_field (<[i := (name, v)]> fs) fs.
Proof.
  revert i. induction fs as [|f fs IH]; intros [|i] Hi Hk; try discriminate.
  - injection Hi as ->. constructor; [split; auto | apply same_field_refl].
  - constructor; [split; auto using same_kind_refl | eapply IH; eauto].
Qed.

Section DecodeInvariant.
Context `{Strconv}.

Lemma store_wf (name : string) (jv : json) (old v : govalue) :
jwf jv -> wf_value old = true -> store name jv old = Ok v ->
wf_value v = true /\ same_kind v old = true.
Proof.
intros Hj Ho Hs. destruct jv, old; cbn in Hs; try discriminate;
  try (injection Hs as <-; split; [assumption | reflexivity]).
- destruct (ParseInt lit) as [z'|] eqn:Ep; [|discriminate]. injection Hs as <-.
  split; [|reflexivity]. cbn. unfold ParseInt in Ep.
  destruct (NilZero.int_of_string lit) as [d|]; [|discriminate].
  destruct (is_int (Z.of_int d)) eqn:Ei; [|discriminate].
  injection Ep as <-. exact Ei.
- destruct (ParseFloat lit) as [f'|] eqn:Ep; [|discriminate]. injection Hs as <-.
  split; [|reflexivity]. cbn.
  destruct (ParseFloat_finite lit f' Hj Ep) as [-> ->]. reflexivity.
- injection Hs as <-. split; [|reflexivity]. cbn.
  apply wellformed_ValidString, Hj.
Qed.

Lemma decode_members_wf (ms : list (string * json)) :
forall (fs fs' : gofields),
  Forall (fun m => jwf (snd m)) ms ->
  Forall (fun f => wf_value (snd f) = true) fs ->
  decode_members ms fs = Ok fs' ->
  Forall (fun f => wf_value (snd f) = true) fs' /\ Forall2 same_field fs' fs.
Proof.
induction ms as [|[key jv] ms IH]; intros fs fs' Hms Hfs Hd.
- injection Hd as <-. split; [assumption | apply same_field_refl].
- apply Forall_cons in Hms as [Hj Hms]. cbn [decode_members] in Hd.
  destruct (field_index key fs) as [i|]; [|eauto].
  destruct (fs !! i) as [[name old]|] eqn:Hi; [|eauto].
  destruct (store name jv old) as [v|] eqn:Hst; [|discriminate].
  assert (Ho : wf_value old = true).
  { eapply (Forall_lookup_1 _ _ _ _ Hfs) in Hi. exact Hi. }
  destruct (store_wf name jv old v Hj Ho Hst) as [Hv Hk].
  destruct (IH (<[i := (name, v)]> fs) fs' Hms) as [Hwf Hsame]; [|exact Hd|].
  { apply Forall_insert; assumption. }
  split; [exact Hwf|].
  eapply same_field_trans; [exact Hsame|].
  eapply same_field_insert; eassumption.
Qed.

Lemma unmarshal_fields_wf (data : string) (target fs' : gofields) :
Forall (fun f => wf_value (snd f) = true) target ->
unmarshal_fields data target = Ok fs' ->
Forall (fun f => wf_value (snd f) = true) fs' /\ Forall2 same_field fs' target.
Proof.
intros Ht. unfold unmarshal_fields.
destruct (parse_json data) as [[| | | | |ms]|] eqn:Hp; try discriminate.
- intros [= <-]. split; [assumption | apply same_field_refl].
- apply decode_members_wf; [eapply parse_json_members; eassumption | assumption].
Qed.

End DecodeInvariant.



Lemma wf_encodable (v : govalue) : wf_value v = true -> encodable v = true.
Proof. destruct v; auto. Qed.

Lemma wf_coerce (v : govalue) : wf_value v = true -> coerce_value v = v.
Proof.
  destruct v; auto. cbn. intros Hv. rewrite ValidString_coerce by assumption. reflexivity.
Qed.

Lemma fields_wf_Forall (fs : gofields) :
  fields_wf fs = true <-> Forall (fun f => wf_value (snd f) = true) fs.
Proof.
  unfold fields_wf. rewrite forallb_forall, Forall_forall.
  split; intros Hf x Hx; apply Hf; [apply list_elem_of_In | apply list_elem_of_In]; exact Hx.
Qed.

Lemma coerce_fields_wf (fs : gofields) :
  Forall (fun f => wf_value (snd f) = true) fs -> map coerce_field fs = fs.
Proof.
  induction 1 as [|[n v] fs Hv _ IH]; [reflexivity|].
  cbn [map]. unfold coerce_field at 1. cbn [fst snd] in *.
  rewrite wf_coerce by assumption. rewrite IH. reflexivity.
Qed.

Ltac invert_fields H :=
  repeat match type of H with
         | Forall2 same_field ?l (_ :: _) =>
           let f := fresh "f" in let fs := fresh "fs" in
           let E := fresh "E" in let K := fresh "K" in
           let H' := fresh "H" in
           inversion H as [|[? f] ? fs ? [E K] H']; subst; clear H;
           cbn [fst snd] in E, K; subst; rename H' into H
         | Forall2 same_field ?l [] => inversion H; subst; clear H
         end.

Section Structs2.
Context `{Strconv}.

Lemma Bank_fields_of_fields (fs : gofields) :
Forall2 same_field fs (Bank.fields Bank.zero) -> Bank.fields (Bank.of_fields fs) = fs.
Proof.
unfold Bank.fields at 1. cbn [Bank.ID Bank.Applicant Bank.Amount Bank.Term
  Bank.InterestRate Bank.Status Bank.zero].
intros Hs. invert_fields Hs.
repeat match goal with
       | K : same_kind ?v _ = true |- _ => destruct v; try discriminate K; clear K
       end.
reflexivity.
Qed.

Lemma Pokemon_fields_of_fields (fs : gofields) :
Forall2 same_field fs (Pokemon.fields Pokemon.zero) ->
Pokemon.fields (Pokemon.of_fields fs) = fs.
Proof.
unfold Pokemon.fields at 1. cbn [Pokemon.ID Pokemon.Name Pokemon.Type_ Pokemon.Power
  Pokemon.Trainer Pokemon.Evolved Pokemon.Location Pokemon.zero].
intros Hs. invert_fields Hs.
repeat match goal with
       | K : same_kind ?v _ = true |- _ => destruct v; try discriminate K; clear K
       end.
reflexivity.
Qed.

(** What [ReadLoanApplication] and [ReadPokemon] return is well formed:
  valid UTF-8 strings, integers in range, a finite interest rate. *)
Lemma Bank_Unmarshal_wf (data : bytes) (x : Bank.LoanApplication) :
Bank.Unmarshal data Bank.zero = Ok x -> fields_wf (Bank.fields x) = true.
Proof.
unfold Bank.Unmarshal.
destruct (unmarshal_fields data (Bank.fields Bank.zero)) as [fs|] eqn:Hu; [|discriminate].
intros [= <-].
destruct (unmarshal_fields_wf data (Bank.fields Bank.zero) fs) as [Hwf Hsame];
  [|exact Hu|].
{ cbn. repeat constructor. }
rewrite Bank_fields_of_fields by exact Hsame. apply fields_wf_Forall, Hwf.
Qed.

Lemma Pokemon_Unmarshal_wf (data : bytes) (x : Pokemon.Pokemon) :
Pokemon.Unmarshal data Pokemon.zero = Ok x -> fields_wf (Pokemon.fields x) = true.
Proof.
unfold Pokemon.Unmarshal.
destruct (unmarshal_fields data (Pokemon.fields Pokemon.zero)) as [fs|] eqn:Hu;
  [|discriminate].
intros [= <-].
destruct (unmarshal_fields_wf data (Pokemon.fields Pokemon.zero) fs) as [Hwf Hsame];
  [|exact Hu|].
{ cbn. repeat constructor. }
rewrite Pokemon_fields_of_fields by exact Hsame. apply fields_wf_Forall, Hwf.
Qed.

Lemma Pokemon_roundtrip (x : Pokemon.Pokemon) (text : string) :
is_int (Pokemon.Power x) = true -> Pokemon.Marshal x = Ok text ->
Pokemon.Unmarshal text Pokemon.zero = Ok (pokemon_coerce x).
Proof.
intros Hp Hm. unfold Pokemon.Unmarshal, Pokemon.Marshal in *.
rewrite (unmarshal_marshal (Pokemon.fields x) (Pokemon.fields Pokemon.zero) text);
  [reflexivity | discriminate | | reflexivity | | | | exact Hm].
- cbn. apply (bool_decide_unpack _). vm_compute. reflexivity.
- cbn. repeat (constructor; [reflexivity|]). constructor.
- cbn. repeat constructor; cbn; auto.
- cbn. repeat (constructor; [reflexivity|]). constructor.
Qed.

(** A well-formed record is read back exactly as it was written. *)
Lemma Bank_roundtrip_wf (x : Bank.LoanApplication) (text : string) :
fields_wf (Bank.fields x) = true -> Bank.Marshal x = Ok text ->
Bank.Unmarshal text Bank.zero = Ok x.
Proof.
intros Hwf Hm. apply fields_wf_Forall in Hwf.
unfold Bank.Unmarshal, Bank.Marshal in *.
rewrite (unmarshal_marshal (Bank.fields x) (Bank.fields Bank.zero) text);
  [ | discriminate | | reflexivity | | | | exact Hm].
- rewrite coerce_fields_wf by assumption. destruct x; reflexivity.
- cbn. apply (bool_decide_unpack _). vm_compute. reflexivity.
- cbn. repeat (constructor; [reflexivity|]). constructor.
- eapply Forall_impl; [exact Hwf|]. intros f. apply wf_encodable.
- cbn. repeat (constructor; [reflexivity|]). constructor.
Qed.

Lemma Pokemon_roundtrip_wf (x : Pokemon.Pokemon) (text : string) :
fields_wf (Pokemon.fields x) = true -> Pokemon.Marshal x = Ok text ->
Pokemon.Unmarshal text Pokemon.zero = Ok x.
Proof.
intros Hwf Hm. apply fields_wf_Forall in Hwf.
unfold Pokemon.Unmarshal, Pokemon.Marshal in *.
rewrite (unmarshal_marshal (Pokemon.fields x) (Pokemon.fields Pokemon.zero) text);
  [ | discriminate | | reflexivity | | | | exact Hm].
- rewrite coerce_fields_wf by assumption. destruct x; reflexivity.
- cbn. apply (bool_decide_unpack _). vm_compute. reflexivity.
- cbn. repeat (constructor; [reflexivity|]). constructor.
- eapply Forall_impl; [exact Hwf|]. intros f. apply wf_encodable.
- cbn. repeat (constructor; [reflexivity|]). constructor.
Qed.

End Structs2.



Lemma filter_in_range_all (l : list (string * bytes)) :
  filter (fun p => in_range "" "" (fst p) = true) l = l.
Proof.
  induction l as [|p l IH]; [reflexivity|].
  rewrite filter_cons_True by reflexivity. rewrite IH. reflexivity.
Qed.

(** The full range scan yields every live key with its value, once. *)
Lemma ledger_range_all (l : Ledger) :
  exists kvs : list (string * bytes),
    ledger_range "" "" l = map (fun p => mkKV (fst p) (snd p)) kvs
    /\ kvs ≡ₚ map_to_list (world l)
    /\ Sorted key_le kvs.
Proof.
  unfold ledger_range. rewrite filter_in_range_all.
  exists (merge_sort key_le (map_to_list (world l))).
  split; [reflexivity|]. split; [apply merge_sort_Permutation|].
  apply Sorted_merge_sort. intros a b. unfold key_le.
  destruct (String.leb_total (fst a) (fst b)); auto.
Qed.

Lemma mapM_result_Forall2 {A B} (f : A -> result B) (l : list A) :
  Forall (fun a => exists b, f a = Ok b) l ->
  exists bs, mapM_result f l = Ok bs /\ Forall2 (fun a b => f a = Ok b) l bs.
Proof.
  induction 1 as [|a l [b Hb] _ (bs & Hbs & IH)].
  - exists []. split; [reflexivity | constructor].
  - exists (b :: bs). cbn [mapM_result]. rewrite Hb, Hbs. split; [reflexivity|].
    constructor; assumption.
Qed.

(** * The contracts on the ledger *)

Ltac tx_unfold :=
  unfold mbind, mret, tx_bind, tx_ret, bind, ret, fail, lift, wrap,
         getState, putState, delState, getStateByRange, getHistoryForKey in *.

Arguments appendString : simpl never.
Arguments FormatInt : simpl never.
Arguments CoerceUTF8 : simpl never.
Arguments ValidString : simpl never.
Arguments is_int : simpl never.
Arguments is_float64 : simpl never.
Arguments IsInfOrNaN : simpl never.
Arguments wrap64 : simpl never.

Section Serialization.
Context `{Strconv}.

Lemma encode_fields_ok (fs : gofields) (next : string) :
  Forall (fun f => representable (snd f) = true) fs ->
  exists text, encode_fields next fs = Ok text.
Proof.
  intros Hall. revert next. induction Hall as [|[name v] fs Hv _ IH]; intros next.
  - simpl. eauto.
  - cbn [encode_fields]. destruct (IH ",") as [r ->].
    destruct v as [s|z|f|b]; cbn [encode_value]; eauto.
    cbn in Hv. apply negb_true_iff in Hv. rewrite Hv. eauto.
Qed.

Lemma marshal_fields_ok (fs : gofields) :
  Forall (fun f => representable (snd f) = true) fs ->
  exists text, marshal_fields fs = Ok text.
Proof.
  intros Hall. unfold marshal_fields. destruct fs; [eauto|].
  apply encode_fields_ok, Hall.
Qed.

(** A loan is serialized unless its interest rate is an infinity or
    not-a-number, which JSON cannot write. *)
Lemma Bank_Marshal_finite (x : Bank.LoanApplication) :
  IsInfOrNaN (Bank.InterestRate x) = false -> exists v, Bank.Marshal x = Ok v.
Proof.
  intros Hf. apply marshal_fields_ok. unfold Bank.fields.
  repeat constructor. cbn. rewrite Hf. reflexivity.
Qed.

Lemma Bank_Marshal_nonfinite (x : Bank.LoanApplication) :
  IsInfOrNaN (Bank.InterestRate x) = true -> Bank.Marshal x = Err ErrUnsupportedValue.
Proof.
  intros Hf. unfold Bank.Marshal, marshal_fields, Bank.fields.
  cbn [encode_fields encode_value]. rewrite Hf. reflexivity.
Qed.

Lemma Pokemon_Marshal_ok (x : Pokemon.Pokemon) : exists v, Pokemon.Marshal x = Ok v.
Proof. apply marshal_fields_ok. unfold Pokemon.fields. repeat constructor. Qed.

Lemma Identity_Marshal_ok (x : Identity.Identity) : exists v, Identity.Marshal x = Ok v.
Proof. apply marshal_fields_ok. unfold Identity.fields. repeat constructor. Qed.

End Serialization.

Lemma is_int_wrap64 (z : Z) : is_int (wrap64 z) = true.
Proof.
  unfold is_int, wrap64, MinInt64, MaxInt64.
  pose proof (Z.mod_pos_bound (z + 2 ^ 63) (2 ^ 64) ltac:(lia)). lia.
Qed.

Lemma wrap64_small (z : Z) : - 2 ^ 63 <= z <= 2 ^ 63 - 1 -> wrap64 z = z.
Proof. intros Hz. unfold wrap64. rewrite Z.mod_small by lia. lia. Qed.

Section Claims.
Context `{Strconv}.

(** C1 (amended).  On a key that has a live value, [CreateLoanApplication]
    and [CreateIdentity] fail with their already-exists error and leave the
    state as it was.  On a key with no live value [CreateIdentity] succeeds
    and the serialized record becomes the live value of that key;
    [CreateLoanApplication] does the same whenever the record can be
    serialized, and fails with the encoder's unsupported-value error, writing
    nothing, when the interest rate is an infinity or not-a-number. *)
Theorem create_checks_existence (s : Stub) (id applicant : string) (amount term : Z)
    (rate : float64) (title firstName lastName cnic dob gender mobile : string) :
  match world (ledger s) !! id with
  | Some _ =>
      Bank.CreateLoanApplication id applicant amount term rate s
      = (Err (ErrAlreadyExists "the loan application" id), s)
      /\ Identity.CreateIdentity id title firstName lastName cnic dob gender mobile s
         = (Err (ErrAlreadyExists "the identity" id), s)
  | None =>
      (if IsInfOrNaN rate
       then Bank.CreateLoanApplication id applicant amount term rate s
            = (Err ErrUnsupportedValue, s)
       else exists v s',
           Bank.Marshal (Bank.mkLoanApplication id applicant amount term rate "Pending")
           = Ok v
           /\ Bank.CreateLoanApplication id applicant amount term rate s = (Ok tt, s')
           /\ world (ledger s') = <[id := v]> (world (ledger s)))
      /\ exists v s',
          Identity.Marshal
            (Identity.new_identity id title firstName lastName cnic dob gender mobile)
          = Ok v
          /\ Identity.CreateIdentity id title firstName lastName cnic dob gender mobile s
             = (Ok tt, s')
          /\ world (ledger s') = <[id := v]> (world (ledger s))
  end.
Proof.
  unfold Bank.CreateLoanApplication, Bank.LoanExists,
    Identity.CreateIdentity, Identity.IdentityExists.
  tx_unfold. cbn [GetState PutState LedgerStub].
  destruct (world (ledger s) !! id) as [v0|] eqn:Hk.
  - rewrite !bool_decide_true by discriminate. split; reflexivity.
  - rewrite !bool_decide_false by (intros Hc; apply Hc; reflexivity). split.
    + destruct (IsInfOrNaN rate) eqn:Hr.
      * rewrite Bank_Marshal_nonfinite by exact Hr. reflexivity.
      * destruct (Bank_Marshal_finite
                    (Bank.mkLoanApplication id applicant amount term rate "Pending") Hr)
          as [v Hv].
        rewrite Hv. eexists _, _. repeat split.
    + destruct (Identity_Marshal_ok
                  (Identity.new_identity id title firstName lastName cnic dob gender mobile))
        as [v Hv].
      rewrite Hv. eexists _, _. repeat split.
Qed.

(** C3.  On a key with no live value, [ReadLoanApplication],
    [UpdateLoanStatus], [UpdateIdentity] and [DeleteLoanApplication] each
    fail with their does-not-exist error, a not-found error, and leave the
    state as it was: nothing is written, so an update never creates the
    key. *)
Theorem missing_key_is_not_found (s : Stub) (k : string) :
  world (ledger s) !! k = None ->
  Bank.ReadLoanApplication k s = (Err (ErrDoesNotExist "the loan application" k), s)
  /\ (forall newStatus,
         Bank.UpdateLoanStatus k newStatus s
         = (Err (ErrDoesNotExist "the loan application" k), s))
  /\ (forall mobile address,
         Identity.UpdateIdentity k mobile address s
         = (Err (ErrDoesNotExist "the identity" k), s))
  /\ Bank.DeleteLoanApplication k s
     = (Err (ErrDoesNotExist "the loan application" k), s)
  /\ kind (ErrDoesNotExist "the loan application" k) = NotFoundError
  /\ kind (ErrDoesNotExist "the identity" k) = NotFoundError.
Proof.
  intros Hk.
  unfold Bank.UpdateLoanStatus, Bank.ReadLoanApplication, Bank.DeleteLoanApplication,
    Bank.LoanExists, Identity.UpdateIdentity, Identity.IdentityExists.
  tx_unfold. cbn [GetState LedgerStub]. rewrite Hk.
  rewrite !bool_decide_false by (intros Hc; apply Hc; reflexivity).
  repeat split; reflexivity.
Qed.

(** C4.  After a successful [CreatePokemon] on [k] and a [DeletePokemon] on
    [k], which then succeeds: [PokemonExists k] is false, [ReadPokemon k]
    and a second [DeletePokemon k] fail with the does-not-exist error, a
    not-found error, and the delete removed the live value of [k] and of no
    other key. *)
Theorem delete_clears_key (l l1 : Ledger) (tx1 tx2 tx3 : string)
    (k name ptype trainer location : string) (power : Z) :
  invoke tx1 (Pokemon.CreatePokemon k name ptype trainer location power) l = (Ok tt, l1) ->
  exists l2,
    invoke tx2 (Pokemon.DeletePokemon k) l1 = (Ok tt, l2)
    /\ world l2 = delete k (world l1)
    /\ invoke tx3 (Pokemon.PokemonExists k) l2 = (Ok false, l2)
    /\ invoke tx3 (Pokemon.ReadPokemon k) l2 = (Err (ErrDoesNotExist "Pokemon" k), l2)
    /\ invoke tx3 (Pokemon.DeletePokemon k) l2 = (Err (ErrDoesNotExist "Pokemon" k), l2)
    /\ kind (ErrDoesNotExist "Pokemon" k) = NotFoundError.
Proof.
  unfold invoke, Pokemon.CreatePokemon, Pokemon.DeletePokemon, Pokemon.ReadPokemon,
    Pokemon.PokemonExists.
  tx_unfold. cbn [GetState PutState DelState LedgerStub ledger TxID].
  destruct (world l !! k) as [v0|] eqn:Hk.
  { rewrite bool_decide_true by discriminate. discriminate. }
  rewrite bool_decide_false by (intros Hc; apply Hc; reflexivity).
  destruct (Pokemon_Marshal_ok
              (Pokemon.mkPokemon k name ptype power trainer false location)) as [v Hv].
  rewrite Hv. cbn [ledger world]. intros [= <-]. cbn [world].
  rewrite lookup_insert_eq. rewrite bool_decide_true by discriminate. cbn [negb].
  eexists. split; [reflexivity|]. cbn [world ledger TxID].
  rewrite !lookup_delete_eq.
  rewrite !bool_decide_false by (intros Hc; apply Hc; reflexivity).
  repeat split; reflexivity.
Qed.

(** C2 (amended).  After a successful [CreateLoanApplication] on [id],
    [ReadLoanApplication id] returns the created record with every byte
    of [id] and [applicant] that is not part of a valid UTF-8 encoding
    replaced by U+FFFD, the encoder's treatment of such bytes; amount,
    term, interest rate and the status "Pending" come back as written.
    When [id] and [applicant] are valid UTF-8 the record comes back
    unchanged. *)
Theorem read_after_create (s s' : Stub) (id applicant : string) (amount term : Z)
    (rate : float64) :
  is_int amount = true -> is_int term = true -> is_float64 rate = true ->
  Bank.CreateLoanApplication id applicant amount term rate s = (Ok tt, s') ->
  Bank.ReadLoanApplication id s'
  = (Ok (Bank.mkLoanApplication (CoerceUTF8 id) (CoerceUTF8 applicant)
           amount term rate "Pending"), s')
  /\ (ValidString id = true -> ValidString applicant = true ->
      Bank.ReadLoanApplication id s'
      = (Ok (Bank.mkLoanApplication id applicant amount term rate "Pending"), s')).
Proof.
  intros Ha Ht Hf Hc.
  assert (Hread : Bank.ReadLoanApplication id s'
                  = (Ok (Bank.mkLoanApplication (CoerceUTF8 id) (CoerceUTF8 applicant)
                           amount term rate "Pending"), s')).
  { revert Hc. unfold Bank.CreateLoanApplication, Bank.LoanExists, Bank.ReadLoanApplication.
    tx_unfold. cbn [GetState PutState LedgerStub].
    destruct (world (ledger s) !! id) as [v0|] eqn:Hk.
    { rewrite bool_decide_true by discriminate. discriminate. }
    rewrite bool_decide_false by (intros Hx; apply Hx; reflexivity).
    destruct (IsInfOrNaN rate) eqn:Hr.
    { rewrite Bank_Marshal_nonfinite by exact Hr. discriminate. }
    destruct (Bank.Marshal (Bank.mkLoanApplication id applicant amount term rate "Pending"))
      as [v|] eqn:Hv; [|discriminate].
    intros [= <-]. cbn [ledger world]. rewrite lookup_insert_eq.
    rewrite (Bank_roundtrip
               (Bank.mkLoanApplication id applicant amount term rate "Pending") v);
      [reflexivity | | exact Hv].
    unfold loan_ok. cbn. rewrite Ha, Ht, Hf, Hr. reflexivity. }
  split; [exact Hread|].
  intros Hid Hap. rewrite Hread.
  rewrite (ValidString_coerce id Hid), (ValidString_coerce applicant Hap). reflexivity.
Qed.

(** C7 (amended).  Let [p] be the record stored at a live key [k].  If
    [p.Evolved] is set, [EvolvePokemon k] fails with the already-evolved
    error and writes nothing.  Otherwise it succeeds and the record stored
    at [k], and read back from it, is [p] with [Evolved] set and [Power]
    replaced by [Power + 30] in 64-bit arithmetic, every other field and
    every other key as before; [Power] has grown by exactly 30 whenever
    [Power + 30] does not exceed the largest [int]. *)
Theorem evolve_pokemon (s : Stub) (k : string) (v : bytes) (p : Pokemon.Pokemon) :
  world (ledger s) !! k = Some v ->
  Pokemon.Unmarshal v Pokemon.zero = Ok p ->
  if Pokemon.Evolved p
  then Pokemon.EvolvePokemon k s = (Err (ErrAlreadyEvolved k), s)
       /\ kind (ErrAlreadyEvolved k) = AlreadyInTargetStateError
  else
    let p' := Pokemon.mkPokemon (Pokemon.ID p) (Pokemon.Name p) (Pokemon.Type_ p)
                (wrap64 (Pokemon.Power p + 30)) (Pokemon.Trainer p) true
                (Pokemon.Location p) in
    exists v' s',
      Pokemon.Marshal p' = Ok v'
      /\ Pokemon.EvolvePokemon k s = (Ok tt, s')
      /\ world (ledger s') = <[k := v']> (world (ledger s))
      /\ Pokemon.ReadPokemon k s' = (Ok p', s')
      /\ (Pokemon.Power p <= MaxInt64 - 30 ->
          Pokemon.Power p' = Pokemon.Power p + 30).
Proof.
  intros Hk Hu.
  pose proof (Pokemon_Unmarshal_wf v p Hu) as Hwf.
  destruct p as [pid pname ptype ppower ptrainer pevolved plocation].
  unfold fields_wf in Hwf. cbn in Hwf.
  repeat match type of Hwf with
         | _ && _ = true => apply andb_true_iff in Hwf as [? Hwf]
         end.
  cbn [Pokemon.ID Pokemon.Name Pokemon.Type_ Pokemon.Power Pokemon.Trainer
       Pokemon.Evolved Pokemon.Location].
  unfold Pokemon.EvolvePokemon, Pokemon.ReadPokemon.
  tx_unfold. cbn [GetState PutState LedgerStub]. rewrite Hk, Hu.
  cbn [Pokemon.Evolved].
  destruct pevolved; [split; reflexivity|].
  cbn zeta. unfold Pokemon.with_Power, Pokemon.with_Evolved.
  cbn [Pokemon.ID Pokemon.Name Pokemon.Type_ Pokemon.Power Pokemon.Trainer
       Pokemon.Evolved Pokemon.Location].
  set (p' := Pokemon.mkPokemon pid pname ptype (wrap64 (ppower + 30)) ptrainer true
               plocation).
  destruct (Pokemon_Marshal_ok p') as [v' Hv'].
  rewrite Hv'. eexists v', _. split; [reflexivity|]. split; [reflexivity|].
  cbn [ledger world]. split; [reflexivity|]. rewrite lookup_insert_eq.
  assert (Hwf' : fields_wf (Pokemon.fields p') = true).
  { unfold fields_wf, p'. cbn.
    repeat match goal with
           | Hs : ValidString _ = true |- _ => rewrite Hs; clear Hs
           end.
    rewrite is_int_wrap64. reflexivity. }
  rewrite (Pokemon_roundtrip_wf p' v' Hwf' Hv'). split; [reflexivity|].
  intros Hle. apply wrap64_small.
  match goal with Hp : is_int ppower = true |- _ => unfold is_int in Hp end.
  unfold MinInt64, MaxInt64 in *. lia.
Qed.


(** What a successful create leaves on the ledger. *)
Lemma CreateLoanApplication_ok (s s' : Stub) (id applicant : string) (amount term : Z)
    (rate : float64) :
  Bank.CreateLoanApplication id applicant amount term rate s = (Ok tt, s') ->
  exists v,
    world (ledger s) !! id = None
    /\ IsInfOrNaN rate = false
    /\ Bank.Marshal (Bank.mkLoanApplication id applicant amount term rate "Pending") = Ok v
    /\ PutState id v s = Ok s'.
Proof.
  unfold Bank.CreateLoanApplication, Bank.LoanExists.
  tx_unfold. cbn [GetState LedgerStub].
  destruct (world (ledger s) !! id) as [v0|] eqn:Hk.
  { rewrite bool_decide_true by discriminate. discriminate. }
  rewrite bool_decide_false by (intros Hx; apply Hx; reflexivity).
  destruct (IsInfOrNaN rate) eqn:Hr.
  { rewrite Bank_Marshal_nonfinite by exact Hr. discriminate. }
  destruct (Bank.Marshal _) as [v|] eqn:Hv; [|discriminate].
  destruct (PutState id v s) as [s1|] eqn:Hp; [|discriminate].
  intros [= <-]. exists v. auto.
Qed.

Lemma CreatePokemon_ok (s s' : Stub) (id name ptype trainer location : string)
    (power : Z) :
  Pokemon.CreatePokemon id name ptype trainer location power s = (Ok tt, s') ->
  exists v,
    world (ledger s) !! id = None
    /\ Pokemon.Marshal (Pokemon.mkPokemon id name ptype power trainer false location)
       = Ok v
    /\ PutState id v s = Ok s'.
Proof.
  unfold Pokemon.CreatePokemon, Pokemon.PokemonExists.
  tx_unfold. cbn [GetState LedgerStub].
  destruct (world (ledger s) !! id) as [v0|] eqn:Hk.
  { rewrite bool_decide_true by discriminate. discriminate. }
  rewrite bool_decide_false by (intros Hx; apply Hx; reflexivity).
  destruct (Pokemon.Marshal _) as [v|] eqn:Hv; [|discriminate].
  destruct (PutState id v s) as [s1|] eqn:Hp; [|discriminate].
  intros [= <-]. exists v. auto.
Qed.

Lemma invoke_ok {A} (tx : string) (m : Tx Stub A) (l l' : Ledger) (a : A) :
  invoke tx m l = (Ok a, l') ->
  exists s', m (mkStub tx l) = (Ok a, s') /\ l' = ledger s'.
Proof.
  unfold invoke. destruct (m (mkStub tx l)) as [[a'|e] s']; [|discriminate].
  intros [= -> <-]. eauto.
Qed.

(** C9.  The record a successful [CreateLoanApplication] writes has
    [Status] "Pending" and the record a successful [CreatePokemon] writes
    has [Evolved] false, whatever the arguments: neither method has a
    parameter for the field.  Hence on every ledger reached through creates
    only, each stored loan reads back with status "Pending" and each stored
    Pokemon with [Evolved] false. *)
Theorem created_fields_are_fixed :
  (forall (s s' : Stub) (id applicant : string) (amount term : Z) (rate : float64),
      Bank.CreateLoanApplication id applicant amount term rate s = (Ok tt, s') ->
      exists v,
        world (ledger s') !! id = Some v
        /\ Bank.Marshal (Bank.mkLoanApplication id applicant amount term rate "Pending")
           = Ok v)
  /\ (forall (s s' : Stub) (id name ptype trainer location : string) (power : Z),
         Pokemon.CreatePokemon id name ptype trainer location power s = (Ok tt, s') ->
         exists v,
           world (ledger s') !! id = Some v
           /\ Pokemon.Marshal (Pokemon.mkPokemon id name ptype power trainer false location)
              = Ok v)
  /\ (forall l : Ledger, loans_created l ->
        forall (k : string) (v : bytes), world l !! k = Some v ->
          exists loan, Bank.Unmarshal v Bank.zero = Ok loan
                       /\ Bank.Status loan = "Pending")
  /\ (forall l : Ledger, pokemons_created l ->
        forall (k : string) (v : bytes), world l !! k = Some v ->
          exists p, Pokemon.Unmarshal v Pokemon.zero = Ok p
                    /\ Pokemon.Evolved p = false).
Proof.
  split; [|split; [|split]].
  - intros s s' id applicant amount term rate Hc.
    destruct (CreateLoanApplication_ok _ _ _ _ _ _ _ Hc) as (v & _ & _ & Hv & Hp).
    exists v. split; [|exact Hv]. cbn in Hp. injection Hp as <-.
    cbn. apply lookup_insert_eq.
  - intros s s' id name ptype trainer location power Hc.
    destruct (CreatePokemon_ok _ _ _ _ _ _ _ _ Hc) as (v & _ & Hv & Hp).
    exists v. split; [|exact Hv]. cbn in Hp. injection Hp as <-.
    cbn. apply lookup_insert_eq.
  - induction 1 as [|l l' tx id applicant amount term rate _ IH Ha Ht Hf Hinv];
      intros k v Hk.
    + unfold empty_ledger in Hk. cbn [world] in Hk.
      rewrite lookup_empty in Hk. discriminate.
    + destruct (invoke_ok _ _ _ _ _ Hinv) as (s' & Hc & ->).
      destruct (CreateLoanApplication_ok _ _ _ _ _ _ _ Hc) as (v' & _ & Hr & Hv & Hp).
      cbn in Hp. injection Hp as <-. cbn in Hk.
      destruct (decide (k = id)) as [->|Hne].
      * rewrite lookup_insert_eq in Hk. injection Hk as <-.
        eexists. split.
        { apply (Bank_roundtrip
                   (Bank.mkLoanApplication id applicant amount term rate "Pending") v');
            [|exact Hv].
          unfold loan_ok. cbn. rewrite Ha, Ht, Hf, Hr. reflexivity. }
        reflexivity.
      * rewrite lookup_insert_ne in Hk by congruence. eauto.
  - induction 1 as [|l l' tx id name ptype trainer location power _ IH Hpw Hinv];
      intros k v Hk.
    + unfold empty_ledger in Hk. cbn [world] in Hk.
      rewrite lookup_empty in Hk. discriminate.
    + destruct (invoke_ok _ _ _ _ _ Hinv) as (s' & Hc & ->).
      destruct (CreatePokemon_ok _ _ _ _ _ _ _ _ Hc) as (v' & _ & Hv & Hp).
      cbn in Hp. injection Hp as <-. cbn in Hk.
      destruct (decide (k = id)) as [->|Hne].
      * rewrite lookup_insert_eq in Hk. injection Hk as <-.
        eexists. split.
        { apply (Pokemon_roundtrip
                   (Pokemon.mkPokemon id name ptype power trainer false location) v');
            [exact Hpw | exact Hv]. }
        reflexivity.
      * rewrite lookup_insert_ne in Hk by congruence. eauto.
Qed.

Lemma history_of_record (l : Ledger) (k : string) (m : KeyModification)
    (w : gmap string bytes) :
  history_of (mkLedger w (record_revision k m l)) k = history_of l k ++ [m].
Proof. unfold history_of, record_revision. cbn. rewrite lookup_insert_eq. reflexivity. Qed.

(** C5 (amended).  [GetHistory k] returns one text for each revision the
    stub's history iterator yields for [k], in the iterator's order,
    whatever that order is: the method does not sort.  A deletion gives
    "Deleted at TxID: <tx>", with no value; a write gives
    "TxID: <tx>, Data: <value>".  After a create, an update and a delete of
    [k], in transactions [tx1], [tx2], [tx3], the key has three more
    revisions: the created value, the updated value, the tombstone.  On the
    ledger, whose iterator yields the newest revision first, [GetHistory k]
    then returns exactly three entries, the tombstone, the updated value,
    the created value, followed by those of the history [k] had before.  On
    a key without earlier revisions these three are the whole history. *)
Theorem history_create_update_delete (l l1 : Ledger) (tx1 tx2 tx3 tx4 : string)
    (k name ptype trainer location : string) (power : Z)
    (trainer2 : string) (power2 : Z) :
  is_int power = true ->
  invoke tx1 (Pokemon.CreatePokemon k name ptype trainer location power) l = (Ok tt, l1) ->
  (forall (S : Type) (stub : ChaincodeStub S) (s : S) (id : string),
      Pokemon.GetHistory id s
      = match GetHistoryForKey id s with
        | Ok revisions => (Ok (map Pokemon.historyEntry revisions), s)
        | Err e => (Err e, s)
        end)
  /\ (forall (tx v : string),
         Pokemon.historyEntry (mkKeyModification tx v true) = "Deleted at TxID: " +:+ tx
         /\ Pokemon.historyEntry (mkKeyModification tx v false)
            = "TxID: " +:+ tx +:+ ", Data: " +:+ v)
  /\ exists (v1 v2 : bytes) (l2 l3 : Ledger),
    Pokemon.Marshal (Pokemon.mkPokemon k name ptype power trainer false location) = Ok v1
    /\ Pokemon.Marshal
         (Pokemon.mkPokemon (CoerceUTF8 k) (CoerceUTF8 name) (CoerceUTF8 ptype) power2
            trainer2 false (CoerceUTF8 location)) = Ok v2
    /\ invoke tx2 (Pokemon.UpdatePokemon k trainer2 power2) l1 = (Ok tt, l2)
    /\ invoke tx3 (Pokemon.DeletePokemon k) l2 = (Ok tt, l3)
    /\ history_of l3 k
       = history_of l k
         ++ [ mkKeyModification tx1 v1 false; mkKeyModification tx2 v2 false;
              mkKeyModification tx3 "" true ]
    /\ invoke tx4 (Pokemon.GetHistory k) l3
       = (Ok ([ "Deleted at TxID: " +:+ tx3;
                "TxID: " +:+ tx2 +:+ ", Data: " +:+ v2;
                "TxID: " +:+ tx1 +:+ ", Data: " +:+ v1 ]
              ++ map Pokemon.historyEntry (rev (history_of l k))), l3)
    /\ (history_of l k = [] ->
        invoke tx4 (Pokemon.GetHistory k) l3
        = (Ok [ "Deleted at TxID: " +:+ tx3;
                "TxID: " +:+ tx2 +:+ ", Data: " +:+ v2;
                "TxID: " +:+ tx1 +:+ ", Data: " +:+ v1 ], l3)).
Proof.
  intros Hpw Hinv.
  split.
  { intros S stub s id. unfold Pokemon.GetHistory. tx_unfold.
    destruct (GetHistoryForKey id s); reflexivity. }
  split; [intros tx v; split; reflexivity|].
  destruct (invoke_ok _ _ _ _ _ Hinv) as (s1 & Hc & ->).
  destruct (CreatePokemon_ok _ _ _ _ _ _ _ _ Hc) as (v1 & Hfree & Hv1 & Hp).
  cbn in Hp. injection Hp as <-.
  set (p2 := Pokemon.mkPokemon (CoerceUTF8 k) (CoerceUTF8 name) (CoerceUTF8 ptype) power2
               trainer2 false (CoerceUTF8 location)).
  destruct (Pokemon_Marshal_ok p2) as [v2 Hv2].
  assert (Hhist : forall l0 : Ledger,
             invoke tx4 (Pokemon.GetHistory k) l0
             = (Ok (map Pokemon.historyEntry (rev (history_of l0 k))), l0)).
  { intros l0. unfold invoke, Pokemon.GetHistory. tx_unfold.
    cbn [GetHistoryForKey LedgerStub ledger]. reflexivity. }
  cbn [ledger].
  set (l1 := mkLedger (<[k := v1]> (world l))
               (record_revision k (mkKeyModification tx1 v1 false) l)).
  set (l2 := mkLedger (<[k := v2]> (world l1))
               (record_revision k (mkKeyModification tx2 v2 false) l1)).
  set (l3 := mkLedger (delete k (world l2))
               (record_revision k (mkKeyModification tx3 "" true) l2)).
  exists v1, v2, l2, l3.
  split; [exact Hv1|]. split; [exact Hv2|].
  split.
  { unfold invoke, Pokemon.UpdatePokemon, Pokemon.ReadPokemon. tx_unfold.
    cbn [GetState PutState LedgerStub ledger world TxID].
    unfold l1 at 1. cbn [world].
    assert (E : <[k := v1]> (world l) !! k = Some v1) by apply lookup_insert_eq.
    rewrite E.
    rewrite (Pokemon_roundtrip
               (Pokemon.mkPokemon k name ptype power trainer false location)
               v1 Hpw Hv1).
    unfold Pokemon.with_Power_Trainer, pokemon_coerce.
    cbn [Pokemon.ID Pokemon.Name Pokemon.Type_ Pokemon.Power Pokemon.Trainer
         Pokemon.Evolved Pokemon.Location].
    fold p2. rewrite Hv2. reflexivity. }
  split.
  { unfold invoke, Pokemon.DeletePokemon, Pokemon.PokemonExists. tx_unfold.
    cbn [GetState DelState LedgerStub ledger world TxID].
    unfold l2 at 1. cbn [world].
    assert (E : <[k := v2]> (world l1) !! k = Some v2) by apply lookup_insert_eq.
    rewrite bool_decide_true by (rewrite E; discriminate). reflexivity. }
  assert (Hlog : history_of l3 k
                 = history_of l k
                   ++ [ mkKeyModification tx1 v1 false; mkKeyModification tx2 v2 false;
                        mkKeyModification tx3 "" true ]).
  { unfold l3. rewrite history_of_record.
    unfold l2 at 1. rewrite history_of_record.
    unfold l1 at 1. rewrite history_of_record.
    rewrite <- !app_assoc. reflexivity. }
  split; [exact Hlog|].
  assert (Hfinal :
            invoke tx4 (Pokemon.GetHistory k) l3
            = (Ok ([ "Deleted at TxID: " +:+ tx3;
                     "TxID: " +:+ tx2 +:+ ", Data: " +:+ v2;
                     "TxID: " +:+ tx1 +:+ ", Data: " +:+ v1 ]
                   ++ map Pokemon.historyEntry (rev (history_of l k))), l3)).
  { rewrite Hhist, Hlog, rev_app_distr. reflexivity. }
  split; [exact Hfinal|].
  intros Hnone. rewrite Hfinal, Hnone. reflexivity.
Qed.

(** The full scan, decoded by [f]: when every live value decodes, the
    result lists the decoded live values, one for each live key, in key
    order. *)
Lemma scan_all_live {A} (f : bytes -> result A) (l : Ledger) :
  (forall k v, world l !! k = Some v -> exists x, f v = Ok x) ->
  exists (kvs : list (string * bytes)) (rs : list A),
    mapM_result (fun q => f (KVValue q)) (ledger_range "" "" l) = Ok rs
    /\ kvs ≡ₚ map_to_list (world l)
    /\ Sorted key_le kvs
    /\ Forall2 (fun kv r => world l !! fst kv = Some (snd kv) /\ f (snd kv) = Ok r) kvs rs.
Proof.
  intros Hall. destruct (ledger_range_all l) as (kvs & -> & Hperm & Hsorted).
  assert (Hin : Forall (fun kv => world l !! fst kv = Some (snd kv)) kvs).
  { apply Forall_forall. intros [k v] Hkv. rewrite Hperm in Hkv.
    apply elem_of_map_to_list in Hkv. exact Hkv. }
  exists kvs.
  assert (Hrs : exists rs,
             mapM_result (fun q => f (KVValue q))
               (map (fun p => mkKV (fst p) (snd p)) kvs) = Ok rs
             /\ Forall2 (fun kv r => world l !! fst kv = Some (snd kv) /\ f (snd kv) = Ok r)
                  kvs rs).
  { clear Hperm Hsorted. induction Hin as [|[k v] kvs Hkv _ (rs & Hrs & IH)].
    - exists []. split; [reflexivity | constructor].
    - destruct (Hall k v Hkv) as [x Hx]. exists (x :: rs).
      cbn [map mapM_result KVValue fst snd]. rewrite Hx, Hrs.
      split; [reflexivity|]. constructor; [split; assumption | exact IH]. }
  destruct Hrs as (rs & Hrs & HF). exists rs. auto.
Qed.

Lemma live_keys_once (l : Ledger) (kvs : list (string * bytes)) :
  kvs ≡ₚ map_to_list (world l) ->
  NoDup (map fst kvs) /\ (forall k, k ∈ map fst kvs <-> is_Some (world l !! k)).
Proof.
  intros Hperm. split.
  - rewrite Hperm. apply NoDup_fst_map_to_list.
  - intros k. rewrite Hperm. rewrite list_elem_of_fmap. split.
    + intros ([k' v] & -> & Hkv). apply elem_of_map_to_list in Hkv. eauto.
    + intros [v Hv]. exists (k, v). split; [reflexivity|].
      apply elem_of_map_to_list. exact Hv.
Qed.

(** When every live value deserializes, the two list methods return, in key
    order, one record for every live key and nothing else. *)
Lemma GetAll_live (s : Stub) :
  ((forall k v, world (ledger s) !! k = Some v ->
                exists x, Bank.Unmarshal v Bank.zero = Ok x) ->
   exists (keys : list string) (rs : list Bank.LoanApplication),
     Bank.GetAllLoanApplications s = (Ok rs, s)
     /\ NoDup keys
     /\ (forall k, k ∈ keys <-> is_Some (world (ledger s) !! k))
     /\ Sorted String.le keys
     /\ Forall2 (fun k r => Bank.ReadLoanApplication k s = (Ok r, s)) keys rs)
  /\ ((forall k v, world (ledger s) !! k = Some v ->
                   exists x, Identity.Unmarshal v Identity.zero = Ok x) ->
      exists (keys : list string) (rs : list Identity.Identity),
        Identity.GetAllIdentities s = (Ok rs, s)
        /\ NoDup keys
        /\ (forall k, k ∈ keys <-> is_Some (world (ledger s) !! k))
        /\ Sorted String.le keys
        /\ Forall2 (fun k r => Identity.ReadIdentity k s = (Ok r, s)) keys rs).
Proof.
  assert (Hsorted : forall kvs : list (string * bytes),
             Sorted key_le kvs -> Sorted String.le (map fst kvs)).
  { induction 1 as [|a kvs _ IH Hhd]; cbn [map]; constructor; [exact IH|].
    destruct Hhd as [|b kvs' Hab]; cbn [map]; constructor. unfold String.le.
    unfold key_le in Hab. rewrite Hab. exact I. }
  split; intros Hall.
  - destruct (scan_all_live (fun v => Bank.Unmarshal v Bank.zero) (ledger s) Hall)
      as (kvs & rs & Hm & Hperm & Hs & HF).
    destruct (live_keys_once (ledger s) kvs Hperm) as [Hnd Hdom].
    exists (map fst kvs), rs.
    split.
    { unfold Bank.GetAllLoanApplications. tx_unfold.
      cbn [GetStateByRange LedgerStub]. rewrite Hm. reflexivity. }
    split; [exact Hnd|]. split; [exact Hdom|]. split; [apply Hsorted, Hs|].
    clear -HF. induction HF as [|[k v] r kvs rs [Hk Hu] _ IH]; cbn [map]; constructor.
    + unfold Bank.ReadLoanApplication. tx_unfold. cbn [GetState LedgerStub fst snd] in *.
      rewrite Hk, Hu. reflexivity.
    + exact IH.
  - destruct (scan_all_live (fun v => Identity.Unmarshal v Identity.zero) (ledger s) Hall)
      as (kvs & rs & Hm & Hperm & Hs & HF).
    destruct (live_keys_once (ledger s) kvs Hperm) as [Hnd Hdom].
    exists (map fst kvs), rs.
    split.
    { unfold Identity.GetAllIdentities. tx_unfold.
      cbn [GetStateByRange LedgerStub]. rewrite Hm. reflexivity. }
    split; [exact Hnd|]. split; [exact Hdom|]. split; [apply Hsorted, Hs|].
    clear -HF. induction HF as [|[k v] r kvs rs [Hk Hu] _ IH]; cbn [map]; constructor.
    + unfold Identity.ReadIdentity. tx_unfold. cbn [GetState LedgerStub fst snd] in *.
      rewrite Hk, Hu. reflexivity.
    + exact IH.
Qed.

Lemma CreateLoanApplication_succeeds (s : Stub) (id : string) (x : LoanArgs) :
  world (ledger s) !! id = None -> args_ok x = true ->
  exists v,
    Bank.Marshal (Bank.mkLoanApplication id (arg_applicant x) (arg_amount x)
                    (arg_term x) (arg_rate x) "Pending") = Ok v
    /\ Bank.Unmarshal v Bank.zero = Ok (created_loan id x)
    /\ Bank.CreateLoanApplication id (arg_applicant x) (arg_amount x) (arg_term x)
         (arg_rate x) s
       = (Ok tt, mkStub (TxID s)
                   (mkLedger (<[id := v]> (world (ledger s)))
                      (record_revision id (mkKeyModification (TxID s) v false)
                         (ledger s)))).
Proof.
  intros Hk Hok.
  assert (Hfin : IsInfOrNaN (arg_rate x) = false).
  { unfold args_ok in Hok. apply andb_true_iff in Hok as [_ Hn].
    apply negb_true_iff in Hn. exact Hn. }
  destruct (Bank_Marshal_finite
              (Bank.mkLoanApplication id (arg_applicant x) (arg_amount x)
                 (arg_term x) (arg_rate x) "Pending") Hfin) as [v Hv].
  exists v. split; [exact Hv|]. split.
  - apply (Bank_roundtrip
             (Bank.mkLoanApplication id (arg_applicant x) (arg_amount x)
                (arg_term x) (arg_rate x) "Pending") v); [exact Hok | exact Hv].
  - unfold Bank.CreateLoanApplication, Bank.LoanExists. tx_unfold.
    cbn [GetState PutState LedgerStub]. rewrite Hk.
    rewrite bool_decide_false by (intros Hx; apply Hx; reflexivity).
    rewrite Hv. reflexivity.
Qed.

Lemma Forall2_decoded {A} (f : bytes -> result A) (d : A)
    (P : string * bytes -> Prop) (kvs : list (string * bytes)) (rs : list A) :
  Forall2 (fun kv r => P kv /\ f (snd kv) = Ok r) kvs rs ->
  rs = map (fun kv => match f (snd kv) with Ok r => r | Err _ => d end) kvs.
Proof.
  induction 1 as [|kv r kvs rs [_ Hf] _ IH]; [reflexivity|].
  cbn [map]. rewrite Hf, <- IH. reflexivity.
Qed.

(** C6.  When every live value deserializes (as every value written by the
    contract does), [GetAllLoanApplications] and [GetAllIdentities] succeed
    and return, in key order, exactly one record for every live key and
    nothing else: the record [ReadLoanApplication] ([ReadIdentity]) returns
    for that key.  In particular, after loans are created under three keys
    [a], [b], [c] of an empty ledger and [b] is deleted,
    [GetAllLoanApplications] returns the records of [a] and [c], each once,
    and no record of [b]. *)
Theorem list_all_live_records :
  (forall s : Stub,
      ((forall k v, world (ledger s) !! k = Some v ->
                    exists x, Bank.Unmarshal v Bank.zero = Ok x) ->
       exists (keys : list string) (rs : list Bank.LoanApplication),
         Bank.GetAllLoanApplications s = (Ok rs, s)
         /\ NoDup keys
         /\ (forall k, k ∈ keys <-> is_Some (world (ledger s) !! k))
         /\ Sorted String.le keys
         /\ Forall2 (fun k r => Bank.ReadLoanApplication k s = (Ok r, s)) keys rs)
      /\ ((forall k v, world (ledger s) !! k = Some v ->
                       exists x, Identity.Unmarshal v Identity.zero = Ok x) ->
          exists (keys : list string) (rs : list Identity.Identity),
            Identity.GetAllIdentities s = (Ok rs, s)
            /\ NoDup keys
            /\ (forall k, k ∈ keys <-> is_Some (world (ledger s) !! k))
            /\ Sorted String.le keys
            /\ Forall2 (fun k r => Identity.ReadIdentity k s = (Ok r, s)) keys rs))
  /\ (forall (a b c : string) (xa xb xc : LoanArgs) (t1 t2 t3 t4 t5 : string),
         a <> b -> a <> c -> b <> c ->
         args_ok xa = true -> args_ok xb = true -> args_ok xc = true ->
         exists (l1 l2 l3 l4 : Ledger) (rs : list Bank.LoanApplication),
           invoke t1 (Bank.CreateLoanApplication a (arg_applicant xa) (arg_amount xa)
                        (arg_term xa) (arg_rate xa)) empty_ledger = (Ok tt, l1)
           /\ invoke t2 (Bank.CreateLoanApplication b (arg_applicant xb) (arg_amount xb)
                           (arg_term xb) (arg_rate xb)) l1 = (Ok tt, l2)
           /\ invoke t3 (Bank.CreateLoanApplication c (arg_applicant xc) (arg_amount xc)
                           (arg_term xc) (arg_rate xc)) l2 = (Ok tt, l3)
           /\ invoke t4 (Bank.DeleteLoanApplication b) l3 = (Ok tt, l4)
           /\ invoke t5 Bank.GetAllLoanApplications l4 = (Ok rs, l4)
           /\ rs ≡ₚ [created_loan a xa; created_loan c xc]).
Proof.
  split; [exact GetAll_live|].
  intros a b c xa xb xc t1 t2 t3 t4 t5 Hab Hac Hbc Hxa Hxb Hxc.
  destruct (CreateLoanApplication_succeeds (mkStub t1 empty_ledger) a xa
              (lookup_empty a) Hxa) as (va & _ & Hua & Hca).
  cbn [TxID ledger] in Hca.
  set (l1 := mkLedger _ _) in Hca.
  destruct (CreateLoanApplication_succeeds (mkStub t2 l1) b xb) as (vb & _ & Hub & Hcb);
    [|exact Hxb|].
  { unfold l1. cbn. rewrite lookup_insert_ne by congruence. apply lookup_empty. }
  cbn [TxID ledger] in Hcb.
  set (l2 := mkLedger _ _) in Hcb.
  destruct (CreateLoanApplication_succeeds (mkStub t3 l2) c xc) as (vc & _ & Huc & Hcc);
    [|exact Hxc|].
  { unfold l2, l1. cbn. rewrite !lookup_insert_ne by congruence. apply lookup_empty. }
  cbn [TxID ledger] in Hcc.
  set (l3 := mkLedger _ _) in Hcc.
  set (l4 := mkLedger (delete b (world l3))
               (record_revision b (mkKeyModification t4 "" true) l3)).
  assert (Hw4 : world l4 = <[c := vc]> (<[a := va]> ∅)).
  { unfold l4, l3, l2, l1. cbn [world empty_ledger].
    rewrite delete_insert_ne by congruence. rewrite delete_insert_eq.
    rewrite delete_insert_ne by congruence. rewrite delete_empty. reflexivity. }
  assert (Hdec : forall k v, world l4 !! k = Some v ->
                             exists x, Bank.Unmarshal v Bank.zero = Ok x).
  { intros k v. rewrite Hw4.
    destruct (decide (k = c)) as [->|Hkc].
    { rewrite lookup_insert_eq. intros [= <-]. eauto. }
    rewrite lookup_insert_ne by congruence.
    destruct (decide (k = a)) as [->|Hka].
    { rewrite lookup_insert_eq. intros [= <-]. eauto. }
    rewrite lookup_insert_ne by congruence. rewrite lookup_empty. discriminate. }
  destruct (scan_all_live (fun v => Bank.Unmarshal v Bank.zero) l4 Hdec)
    as (kvs & rs & Hm & Hperm & _ & HF).
  exists l1, l2, l3, l4, rs.
  split; [unfold invoke; rewrite Hca; reflexivity|].
  split; [unfold invoke; rewrite Hcb; reflexivity|].
  split; [unfold invoke; rewrite Hcc; reflexivity|].
  split.
  { unfold invoke, Bank.DeleteLoanApplication, Bank.LoanExists. tx_unfold.
    cbn [GetState DelState LedgerStub ledger TxID].
    assert (E : world l3 !! b = Some vb).
    { unfold l3, l2. cbn [world]. rewrite lookup_insert_ne by congruence.
      apply lookup_insert_eq. }
    rewrite bool_decide_true by (rewrite E; discriminate). reflexivity. }
  split.
  { unfold invoke, Bank.GetAllLoanApplications. tx_unfold.
    cbn [GetStateByRange LedgerStub ledger]. rewrite Hm. reflexivity. }
  rewrite (Forall2_decoded (fun v => Bank.Unmarshal v Bank.zero) Bank.zero
             (fun kv => world l4 !! fst kv = Some (snd kv)) kvs rs HF).
  rewrite Hperm, Hw4.
  rewrite map_to_list_insert.
  2:{ rewrite lookup_insert_ne by congruence. apply lookup_empty. }
  rewrite insert_empty, map_to_list_singleton.
  cbn [map fst snd]. rewrite Hua, Huc. apply perm_swap.
Qed.

End Claims.

(** C10 (amended).  The create methods pass the key to the stub as it is.
    Whatever the stub and whatever the key, the empty string included,
    [CreateLoanApplication] returns the error of [GetState] if it fails, the
    already-exists error if it finds a value, the encoder's
    unsupported-value error if the interest rate is an infinity or
    not-a-number, and otherwise what [PutState] of the serialized record
    under that very key returns; [CreateIdentity] does the same, its record
    being always serializable.  Neither has an error of its own about the
    key: on the ledger, whose state access never fails, the only errors are
    the already-exists error and, for loans, the unsupported-value error. *)
Theorem create_passes_key_to_stub {S : Type} `{ChaincodeStub S} `{Strconv}
    (s : S) (id applicant : string) (amount term : Z) (rate : float64)
    (title firstName lastName cnic dob gender mobile : string) :
  (match GetState id s with
  | Err e =>
      Bank.CreateLoanApplication id applicant amount term rate s = (Err e, s)
      /\ Identity.CreateIdentity id title firstName lastName cnic dob gender mobile s
         = (Err (ErrReadWorldState e), s)
  | Ok (Some _) =>
      Bank.CreateLoanApplication id applicant amount term rate s
      = (Err (ErrAlreadyExists "the loan application" id), s)
      /\ Identity.CreateIdentity id title firstName lastName cnic dob gender mobile s
         = (Err (ErrAlreadyExists "the identity" id), s)
  | Ok None =>
      (if IsInfOrNaN rate
       then Bank.CreateLoanApplication id applicant amount term rate s
            = (Err ErrUnsupportedValue, s)
       else exists v,
           Bank.Marshal (Bank.mkLoanApplication id applicant amount term rate "Pending")
           = Ok v
           /\ Bank.CreateLoanApplication id applicant amount term rate s
              = match PutState id v s with
                | Ok s' => (Ok tt, s')
                | Err e => (Err e, s)
                end)
      /\ exists v,
          Identity.Marshal
            (Identity.new_identity id title firstName lastName cnic dob gender mobile)
          = Ok v
          /\ Identity.CreateIdentity id title firstName lastName cnic dob gender mobile s
             = match PutState id v s with
               | Ok s' => (Ok tt, s')
               | Err e => (Err e, s)
               end
   end)
  /\ (forall (s0 : Stub) (e : error),
         (fst (Bank.CreateLoanApplication id applicant amount term rate s0) = Err e ->
          e = ErrAlreadyExists "the loan application" id \/ e = ErrUnsupportedValue)
         /\ (fst (Identity.CreateIdentity id title firstName lastName cnic dob gender
                    mobile s0) = Err e ->
             e = ErrAlreadyExists "the identity" id)).
Proof.
  split.
  2:{ intros s0 e.
      unfold Bank.CreateLoanApplication, Bank.LoanExists,
        Identity.CreateIdentity, Identity.IdentityExists.
      tx_unfold. cbn [GetState PutState LedgerStub].
      destruct (world (ledger s0) !! id) as [v0|].
      - rewrite !bool_decide_true by discriminate. cbn [fst].
        split; intros [= <-]; auto.
      - rewrite !bool_decide_false by (intros Hx; apply Hx; reflexivity).
        destruct (Identity_Marshal_ok
                    (Identity.new_identity id title firstName lastName cnic dob
                       gender mobile)) as [vi Hi].
        rewrite Hi. cbn [fst]. split; [|discriminate].
        destruct (IsInfOrNaN rate) eqn:Hr.
        + rewrite Bank_Marshal_nonfinite by exact Hr. cbn [fst]. intros [= <-]. auto.
        + destruct (Bank_Marshal_finite
                      (Bank.mkLoanApplication id applicant amount term rate "Pending")
                      Hr) as [vl Hl].
          rewrite Hl. discriminate. }
  unfold Bank.CreateLoanApplication, Bank.LoanExists,
    Identity.CreateIdentity, Identity.IdentityExists.
  tx_unfold.
  destruct (GetState id s) as [[v0|]|e] eqn:Hg.
  - rewrite !bool_decide_true by discriminate. split; reflexivity.
  - rewrite !bool_decide_false by (intros Hc; apply Hc; reflexivity). split.
    + destruct (IsInfOrNaN rate) eqn:Hr.
      * rewrite Bank_Marshal_nonfinite by exact Hr. reflexivity.
      * destruct (Bank_Marshal_finite
                    (Bank.mkLoanApplication id applicant amount term rate "Pending") Hr)
          as [v Hv].
        rewrite Hv. exists v. split; [reflexivity|].
        destruct (PutState id v s); reflexivity.
    + destruct (Identity_Marshal_ok
                  (Identity.new_identity id title firstName lastName cnic dob gender mobile))
        as [v Hv].
      rewrite Hv. exists v. split; [reflexivity|].
      destruct (PutState id v s); reflexivity.
  - split; reflexivity.
Qed.

(** * More of the contracts

    ** Identities: what is read is well formed *)

Section Structs3.
Context `{Strconv}.

Lemma Identity_fields_of_fields (fs : gofields) :
  Forall2 same_field fs (Identity.fields Identity.zero) ->
  Identity.fields (Identity.of_fields fs) = fs.
Proof.
  intros Hs. unfold Identity.fields, Identity.zero in Hs. cbn in Hs. invert_fields Hs.
  repeat match goal with
         | K : same_kind ?v _ = true |- _ => destruct v; try discriminate K; clear K
         end.
  reflexivity.
Qed.

Lemma Identity_Unmarshal_wf (data : bytes) (x : Identity.Identity) :
  Identity.Unmarshal data Identity.zero = Ok x -> fields_wf (Identity.fields x) = true.
Proof.
  unfold Identity.Unmarshal.
  destruct (unmarshal_fields data (Identity.fields Identity.zero)) as [fs|] eqn:Hu;
    [|discriminate].
  intros [= <-].
  destruct (unmarshal_fields_wf data (Identity.fields Identity.zero) fs) as [Hwf Hsame];
    [|exact Hu|].
  { unfold Identity.fields, Identity.zero. cbn. repeat constructor. }
  rewrite Identity_fields_of_fields by exact Hsame. apply fields_wf_Forall, Hwf.
Qed.

End Structs3.

Lemma mapM_result_Err {A B} (f : A -> result B) (l : list A) (a : A) (e : error) :
  a ∈ l -> f a = Err e ->
  exists a' e', a' ∈ l /\ f a' = Err e' /\ mapM_result f l = Err e'.
Proof.
  induction l as [|b l IH]; intros Hin Hf; [inversion Hin|].
  cbn [mapM_result]. destruct (f b) as [y|e0] eqn:Hb.
  - apply elem_of_cons in Hin as [->|Hin]; [congruence|].
    destruct (IH Hin Hf) as (a' & e' & Ha' & Hfa' & ->).
    exists a', e'. split; [right; exact Ha' | auto].
  - exists b, e0. split; [left | auto].
Qed.

Lemma invoke_cases {A} (tx : string) (m : Tx Stub A) (l l' : Ledger) (r : result A) :
  invoke tx m l = (r, l') ->
  l' = l \/ exists s', m (mkStub tx l) = (r, s') /\ l' = ledger s' /\ is_ok r = true.
Proof.
  unfold invoke. destruct (m (mkStub tx l)) as [[a|e] s'] eqn:Hm; intros [= <- <-].
  - right. eauto.
  - left. reflexivity.
Qed.

Ltac split_wf Hwf :=
  unfold fields_wf in Hwf; cbn in Hwf;
  repeat match type of Hwf with
         | _ && _ = true => apply andb_true_iff in Hwf as [? Hwf]
         end.

Ltac coerce_valid :=
  repeat match goal with
         | Hs : ValidString ?a = true |- context [CoerceUTF8 ?a] =>
           rewrite (ValidString_coerce a Hs)
         end.

(** ** The ledgers the contracts reach *)

Section Reachable.
Context `{Strconv}.

Lemma loans_stored (l : Ledger) :
  loans_reachable l ->
  forall k v, world l !! k = Some v ->
    exists loan, Bank.Unmarshal v Bank.zero = Ok loan /\ Bank.ID loan = CoerceUTF8 k.
Proof.
  induction 1 as [|l l' tx c r _ IH Hok Hinv]; intros k v Hk.
  { unfold empty_ledger in Hk. cbn [world] in Hk. rewrite lookup_empty in Hk.
    discriminate. }
  apply invoke_cases in Hinv as [->|(s' & Hrun & -> & Hr)]; [eauto|].
  destruct r as [[]|]; [clear Hr|discriminate].
  destruct c as [|id applicant amount term rate|id newStatus|id]; cbn [run_loan_call] in Hrun.
  - (* InitLedger *)
    set (x1 := Bank.mkLoanApplication "loan1" "Afraz" 10000 12 0x4016000000000000
                 "Pending").
    set (x2 := Bank.mkLoanApplication "loan2" "Alam" 5000 6 0x4010CCCCCCCCCCCD
                 "Approved").
    destruct (Bank_Marshal_finite x1) as [v1 Hv1]; [vm_compute; reflexivity|].
    destruct (Bank_Marshal_finite x2) as [v2 Hv2]; [vm_compute; reflexivity|].
    revert Hrun. unfold Bank.InitLedger. cbn [foldr]. fold x1 x2. tx_unfold.
    rewrite Hv1. cbn [PutState LedgerStub Bank.ID x1]. rewrite Hv2.
    cbn [PutState LedgerStub Bank.ID x2 TxID ledger]. intros [= <-].
    cbn [ledger world] in Hk.
    destruct (decide (k = "loan2")) as [->|Hn2].
    { rewrite lookup_insert_eq in Hk. injection Hk as <-.
      exists (loan_coerce x2). split.
      - apply Bank_roundtrip; [vm_compute; reflexivity | exact Hv2].
      - vm_compute. reflexivity. }
    rewrite lookup_insert_ne in Hk by congruence.
    destruct (decide (k = "loan1")) as [->|Hn1].
    { rewrite lookup_insert_eq in Hk. injection Hk as <-.
      exists (loan_coerce x1). split.
      - apply Bank_roundtrip; [vm_compute; reflexivity | exact Hv1].
      - vm_compute. reflexivity. }
    rewrite lookup_insert_ne in Hk by congruence. eauto.
  - (* CreateLoanApplication *)
    cbn in Hok. apply andb_true_iff in Hok as [Hok Hfl].
    apply andb_true_iff in Hok as [Ha Ht].
    revert Hrun. unfold Bank.CreateLoanApplication, Bank.LoanExists. tx_unfold.
    cbn [GetState PutState LedgerStub ledger].
    destruct (world l !! id) as [v0|] eqn:Hid.
    { rewrite bool_decide_true by discriminate. discriminate. }
    rewrite bool_decide_false by (intros Hx; apply Hx; reflexivity).
    destruct (IsInfOrNaN rate) eqn:Hr.
    { rewrite Bank_Marshal_nonfinite by exact Hr. discriminate. }
    destruct (Bank.Marshal _) as [v1|] eqn:Hv1; [|discriminate].
    intros [= <-]. cbn [ledger world] in Hk.
    destruct (decide (k = id)) as [->|Hne].
    + rewrite lookup_insert_eq in Hk. injection Hk as <-.
      eexists. split.
      * apply (Bank_roundtrip
                 (Bank.mkLoanApplication id applicant amount term rate "Pending") v1);
          [|exact Hv1].
        unfold loan_ok. cbn. rewrite Ha, Ht, Hfl, Hr. reflexivity.
      * reflexivity.
    + rewrite lookup_insert_ne in Hk by congruence. eauto.
  - (* UpdateLoanStatus *)
    revert Hrun. unfold Bank.UpdateLoanStatus, Bank.ReadLoanApplication. tx_unfold.
    cbn [GetState PutState LedgerStub ledger].
    destruct (world l !! id) as [v0|] eqn:Hid; [|discriminate].
    destruct (Bank.Unmarshal v0 Bank.zero) as [loan|] eqn:Hu; [|discriminate].
    destruct (IH id v0 Hid) as (loan0 & Hu0 & Hid0).
    assert (loan0 = loan) by congruence. subst loan0.
    pose proof (Bank_Unmarshal_wf v0 loan Hu) as Hwf.
    destruct loan as [lid lapplicant lamount lterm lrate lstatus].
    split_wf Hwf.
    match goal with
    | Hr : is_float64 lrate && negb (IsInfOrNaN lrate) = true |- _ =>
      apply andb_true_iff in Hr as [Hfl Hfin]; apply negb_true_iff in Hfin
    end.
    unfold Bank.with_Status.
    cbn [Bank.ID Bank.Applicant Bank.Amount Bank.Term Bank.InterestRate] in *.
    destruct (Bank.Marshal _) as [v1|] eqn:Hv1; [|discriminate].
    intros [= <-]. cbn [ledger world] in Hk.
    destruct (decide (k = id)) as [->|Hne].
    + rewrite lookup_insert_eq in Hk. injection Hk as <-.
      eexists. split.
      * apply (Bank_roundtrip
                 (Bank.mkLoanApplication lid lapplicant lamount lterm lrate newStatus) v1);
          [|exact Hv1].
        unfold loan_ok. cbn.
        repeat match goal with
               | Hi : is_int _ = true |- _ => rewrite Hi; clear Hi
               end.
        rewrite Hfl, Hfin. reflexivity.
      * cbn. rewrite ValidString_coerce by assumption. exact Hid0.
    + rewrite lookup_insert_ne in Hk by congruence. eauto.
  - (* DeleteLoanApplication *)
    revert Hrun. unfold Bank.DeleteLoanApplication, Bank.LoanExists. tx_unfold.
    cbn [GetState DelState LedgerStub ledger].
    destruct (world l !! id) as [v0|] eqn:Hid.
    2:{ rewrite bool_decide_false by (intros Hx; apply Hx; reflexivity). discriminate. }
    rewrite bool_decide_true by discriminate. cbn [negb].
    intros [= <-]. cbn [ledger world] in Hk.
    apply lookup_delete_Some in Hk as [_ Hk]. eauto.
Qed.

Lemma pokemons_stored (l : Ledger) :
  pokemons_reachable l ->
  forall k v, world l !! k = Some v ->
    exists p, Pokemon.Unmarshal v Pokemon.zero = Ok p /\ Pokemon.ID p = CoerceUTF8 k.
Proof.
  induction 1 as [|l l' tx c r _ IH Hok Hinv]; intros k v Hk.
  { unfold empty_ledger in Hk. cbn [world] in Hk. rewrite lookup_empty in Hk.
    discriminate. }
  apply invoke_cases in Hinv as [->|(s' & Hrun & -> & Hr)]; [eauto|].
  destruct r as [[]|]; [clear Hr|discriminate].
  destruct c as [|id name ptype trainer location power|id trainer power|id|id];
    cbn [run_pokemon_call] in Hrun.
  - (* InitLedger *)
    set (p1 := Pokemon.mkPokemon "poke1" "Pikachu" "Electric" 55 "Ash" false
                 "Pallet Town").
    set (p2 := Pokemon.mkPokemon "poke2" "Charmander" "Fire" 52 "Red" false
                 "Cinnabar Island").
    set (p3 := Pokemon.mkPokemon "poke3" "Squirtle" "Water" 48 "Misty" false
                 "Cerulean City").
    destruct (Pokemon_Marshal_ok p1) as [v1 Hv1].
    destruct (Pokemon_Marshal_ok p2) as [v2 Hv2].
    destruct (Pokemon_Marshal_ok p3) as [v3 Hv3].
    revert Hrun. unfold Pokemon.InitLedger. cbn [foldr]. fold p1 p2 p3. tx_unfold.
    rewrite Hv1. cbn [PutState LedgerStub Pokemon.ID p1]. rewrite Hv2.
    cbn [PutState LedgerStub Pokemon.ID p2]. rewrite Hv3.
    cbn [PutState LedgerStub Pokemon.ID p3 TxID ledger]. intros [= <-].
    cbn [ledger world] in Hk.
    destruct (decide (k = "poke3")) as [->|Hn3].
    { rewrite lookup_insert_eq in Hk. injection Hk as <-.
      exists (pokemon_coerce p3). split.
      - apply Pokemon_roundtrip; [vm_compute; reflexivity | exact Hv3].
      - vm_compute. reflexivity. }
    rewrite lookup_insert_ne in Hk by congruence.
    destruct (decide (k = "poke2")) as [->|Hn2].
    { rewrite lookup_insert_eq in Hk. injection Hk as <-.
      exists (pokemon_coerce p2). split.
      - apply Pokemon_roundtrip; [vm_compute; reflexivity | exact Hv2].
      - vm_compute. reflexivity. }
    rewrite lookup_insert_ne in Hk by congruence.
    destruct (decide (k = "poke1")) as [->|Hn1].
    { rewrite lookup_insert_eq in Hk. injection Hk as <-.
      exists (pokemon_coerce p1). split.
      - apply Pokemon_roundtrip; [vm_compute; reflexivity | exact Hv1].
      - vm_compute. reflexivity. }
    rewrite lookup_insert_ne in Hk by congruence. eauto.
  - (* CreatePokemon *)
    cbn in Hok.
    revert Hrun. unfold Pokemon.CreatePokemon, Pokemon.PokemonExists. tx_unfold.
    cbn [GetState PutState LedgerStub ledger].
    destruct (world l !! id) as [v0|] eqn:Hid.
    { rewrite bool_decide_true by discriminate. discriminate. }
    rewrite bool_decide_false by (intros Hx; apply Hx; reflexivity).
    destruct (Pokemon.Marshal _) as [v1|] eqn:Hv1; [|discriminate].
    intros [= <-]. cbn [ledger world] in Hk.
    destruct (decide (k = id)) as [->|Hne].
    + rewrite lookup_insert_eq in Hk. injection Hk as <-.
      eexists. split.
      * apply (Pokemon_roundtrip
                 (Pokemon.mkPokemon id name ptype power trainer false location) v1);
          [exact Hok | exact Hv1].
      * reflexivity.
    + rewrite lookup_insert_ne in Hk by congruence. eauto.
  - (* UpdatePokemon *)
    cbn in Hok.
    revert Hrun. unfold Pokemon.UpdatePokemon, Pokemon.ReadPokemon. tx_unfold.
    cbn [GetState PutState LedgerStub ledger].
    destruct (world l !! id) as [v0|] eqn:Hid; [|discriminate].
    destruct (Pokemon.Unmarshal v0 Pokemon.zero) as [p|] eqn:Hu; [|discriminate].
    destruct (IH id v0 Hid) as (p0 & Hu0 & Hid0).
    assert (p0 = p) by congruence. subst p0.
    pose proof (Pokemon_Unmarshal_wf v0 p Hu) as Hwf.
    destruct p as [pid pname ptype ppower ptrainer pevolved plocation].
    split_wf Hwf.
    unfold Pokemon.with_Power_Trainer.
    cbn [Pokemon.ID Pokemon.Name Pokemon.Type_ Pokemon.Power Pokemon.Trainer
         Pokemon.Evolved Pokemon.Location] in *.
    destruct (Pokemon.Marshal _) as [v1|] eqn:Hv1; [|discriminate].
    intros [= <-]. cbn [ledger world] in Hk.
    destruct (decide (k = id)) as [->|Hne].
    + rewrite lookup_insert_eq in Hk. injection Hk as <-.
      eexists. split.
      * apply (Pokemon_roundtrip
                 (Pokemon.mkPokemon pid pname ptype power trainer pevolved plocation) v1);
          [exact Hok | exact Hv1].
      * cbn. rewrite ValidString_coerce by assumption. exact Hid0.
    + rewrite lookup_insert_ne in Hk by congruence. eauto.
  - (* EvolvePokemon *)
    revert Hrun. unfold Pokemon.EvolvePokemon, Pokemon.ReadPokemon. tx_unfold.
    cbn [GetState PutState LedgerStub ledger].
    destruct (world l !! id) as [v0|] eqn:Hid; [|discriminate].
    destruct (Pokemon.Unmarshal v0 Pokemon.zero) as [p|] eqn:Hu; [|discriminate].
    destruct (IH id v0 Hid) as (p0 & Hu0 & Hid0).
    assert (p0 = p) by congruence. subst p0.
    pose proof (Pokemon_Unmarshal_wf v0 p Hu) as Hwf.
    destruct p as [pid pname ptype ppower ptrainer pevolved plocation].
    split_wf Hwf.
    cbn [Pokemon.Evolved]. destruct pevolved; [discriminate|].
    unfold Pokemon.with_Power, Pokemon.with_Evolved.
    cbn [Pokemon.ID Pokemon.Name Pokemon.Type_ Pokemon.Power Pokemon.Trainer
         Pokemon.Evolved Pokemon.Location] in *.
    destruct (Pokemon.Marshal _) as [v1|] eqn:Hv1; [|discriminate].
    intros [= <-]. cbn [ledger world] in Hk.
    destruct (decide (k = id)) as [->|Hne].
    + rewrite lookup_insert_eq in Hk. injection Hk as <-.
      eexists. split.
      * apply (Pokemon_roundtrip
                 (Pokemon.mkPokemon pid pname ptype (wrap64 (ppower + 30)) ptrainer true
                    plocation) v1);
          [apply is_int_wrap64 | exact Hv1].
      * cbn. rewrite ValidString_coerce by assumption. exact Hid0.
    + rewrite lookup_insert_ne in Hk by congruence. eauto.
  - (* DeletePokemon *)
    revert Hrun. unfold Pokemon.DeletePokemon, Pokemon.PokemonExists. tx_unfold.
    cbn [GetState DelState LedgerStub ledger].
    destruct (world l !! id) as [v0|] eqn:Hid.
    2:{ rewrite bool_decide_false by (intros Hx; apply Hx; reflexivity). discriminate. }
    rewrite bool_decide_true by discriminate. cbn [negb].
    intros [= <-]. cbn [ledger world] in Hk.
    apply lookup_delete_Some in Hk as [_ Hk]. eauto.
Qed.

Lemma identities_stored (l : Ledger) :
  identities_reachable l ->
  forall k v, world l !! k = Some v ->
    exists x, Identity.Unmarshal v Identity.zero = Ok x /\ Identity.ID x = CoerceUTF8 k.
Proof.
  induction 1 as [|l l' tx c r _ IH Hinv]; intros k v Hk.
  { unfold empty_ledger in Hk. cbn [world] in Hk. rewrite lookup_empty in Hk.
    discriminate. }
  apply invoke_cases in Hinv as [->|(s' & Hrun & -> & Hr)]; [eauto|].
  destruct r as [[]|]; [clear Hr|discriminate].
  destruct c as [|id title firstName lastName cnic dob gender mobile|id mobile address|id];
    cbn [run_identity_call] in Hrun.
  - (* InitLedger *)
    set (x := Identity.new_identity "identity1" "Mr." "John" "Doe"
                "12345-6789012-3" "01-01-1980" "Male" "03001234567").
    destruct (Identity_Marshal_ok x) as [v1 Hv1].
    revert Hrun. unfold Identity.InitLedger. cbn [foldr]. fold x. tx_unfold.
    rewrite Hv1. change (Identity.ID x) with "identity1".
    cbn [PutState LedgerStub TxID ledger]. intros [= <-].
    cbn [ledger world] in Hk.
    destruct (decide (k = "identity1")) as [->|Hn1].
    { rewrite lookup_insert_eq in Hk. injection Hk as <-.
      eexists. split; [apply Identity_roundtrip; exact Hv1|].
      vm_compute. reflexivity. }
    rewrite lookup_insert_ne in Hk by congruence. eauto.
  - (* CreateIdentity *)
    revert Hrun. unfold Identity.CreateIdentity, Identity.IdentityExists. tx_unfold.
    cbn [GetState PutState LedgerStub ledger].
    destruct (world l !! id) as [v0|] eqn:Hid.
    { rewrite bool_decide_true by discriminate. discriminate. }
    rewrite bool_decide_false by (intros Hx; apply Hx; reflexivity).
    destruct (Identity.Marshal _) as [v1|] eqn:Hv1; [|discriminate].
    intros [= <-]. cbn [ledger world] in Hk.
    destruct (decide (k = id)) as [->|Hne].
    + rewrite lookup_insert_eq in Hk. injection Hk as <-.
      eexists. split; [apply Identity_roundtrip; exact Hv1|].
      reflexivity.
    + rewrite lookup_insert_ne in Hk by congruence. eauto.
  - (* UpdateIdentity *)
    revert Hrun. unfold Identity.UpdateIdentity, Identity.IdentityExists,
      Identity.ReadIdentity. tx_unfold.
    cbn [GetState PutState LedgerStub ledger].
    destruct (world l !! id) as [v0|] eqn:Hid.
    2:{ rewrite bool_decide_false by (intros Hx; apply Hx; reflexivity). discriminate. }
    rewrite bool_decide_true by discriminate. cbn [negb ledger]. rewrite Hid.
    destruct (Identity.Unmarshal v0 Identity.zero) as [x|] eqn:Hu; [|discriminate].
    destruct (IH id v0 Hid) as (x0 & Hu0 & Hid0).
    assert (x0 = x) by congruence. subst x0.
    pose proof (Identity_Unmarshal_wf v0 x Hu) as Hwf.
    destruct (Identity.Marshal _) as [v1|] eqn:Hv1; [|discriminate].
    intros [= <-]. cbn [ledger world] in Hk.
    destruct (decide (k = id)) as [->|Hne].
    + rewrite lookup_insert_eq in Hk. injection Hk as <-.
      eexists. split; [apply Identity_roundtrip; exact Hv1|].
      destruct x. split_wf Hwf. cbn in Hid0 |- *.
      rewrite ValidString_coerce by assumption. exact Hid0.
    + rewrite lookup_insert_ne in Hk by congruence. eauto.
  - (* DeleteIdentity *)
    revert Hrun. unfold Identity.DeleteIdentity, Identity.IdentityExists. tx_unfold.
    cbn [GetState DelState LedgerStub ledger].
    destruct (world l !! id) as [v0|] eqn:Hid.
    2:{ rewrite bool_decide_false by (intros Hx; apply Hx; reflexivity). discriminate. }
    rewrite bool_decide_true by discriminate. cbn [negb].
    intros [= <-]. cbn [ledger world] in Hk.
    apply lookup_delete_Some in Hk as [_ Hk]. eauto.
Qed.

(** X1.  Whatever sequence of the loan contract's transactions a ledger has seen,
    every live value is a loan record written by the contract: it decodes,
    its ID is its key (as the encoder wrote the key), and so
    [ReadLoanApplication] succeeds on every live key and
    [GetAllLoanApplications] succeeds, with one record for each live key.
    No deserialization error can occur on such a ledger. *)
Theorem reachable_loans_decode (l : Ledger) :
  loans_reachable l ->
  (forall (k : string) (v : bytes),
      world l !! k = Some v ->
      exists loan,
        Bank.Unmarshal v Bank.zero = Ok loan
        /\ Bank.ID loan = CoerceUTF8 k
        /\ forall tx, invoke tx (Bank.ReadLoanApplication k) l = (Ok loan, l))
  /\ (forall tx, exists rs,
         invoke tx Bank.GetAllLoanApplications l = (Ok rs, l)
         /\ length rs = size (world l)).
Proof.
  intros Hreach. pose proof (loans_stored l Hreach) as Hst. split.
  - intros k v Hk. destruct (Hst k v Hk) as (loan & Hu & Hid).
    exists loan. split; [exact Hu|]. split; [exact Hid|].
    intros tx. unfold invoke, Bank.ReadLoanApplication. tx_unfold.
    cbn [GetState LedgerStub ledger]. rewrite Hk, Hu. reflexivity.
  - intros tx.
    destruct (scan_all_live (fun v => Bank.Unmarshal v Bank.zero) l)
      as (kvs & rs & Hm & Hperm & _ & HF).
    { intros k v Hk. destruct (Hst k v Hk) as (loan & Hu & _). eauto. }
    exists rs. split.
    + unfold invoke, Bank.GetAllLoanApplications. tx_unfold.
      cbn [GetStateByRange LedgerStub ledger]. rewrite Hm. reflexivity.
    + rewrite <- (Forall2_length _ _ _ HF), Hperm. apply length_map_to_list.
Qed.

(** X2.  The same for the Pokemon contract, whose transactions are InitLedger,
    create, update, evolve and delete: every live value decodes to a
    Pokemon whose ID is its key, and [ReadPokemon] succeeds on every live
    key. *)
Theorem reachable_pokemons_decode (l : Ledger) :
  pokemons_reachable l ->
  forall (k : string) (v : bytes),
    world l !! k = Some v ->
    exists p,
      Pokemon.Unmarshal v Pokemon.zero = Ok p
      /\ Pokemon.ID p = CoerceUTF8 k
      /\ is_int (Pokemon.Power p) = true
      /\ forall tx, invoke tx (Pokemon.ReadPokemon k) l = (Ok p, l).
Proof.
  intros Hreach k v Hk. destruct (pokemons_stored l Hreach k v Hk) as (p & Hu & Hid).
  exists p. split; [exact Hu|]. split; [exact Hid|]. split.
  - pose proof (Pokemon_Unmarshal_wf v p Hu) as Hwf. destruct p.
    unfold fields_wf in Hwf. cbn in Hwf.
    repeat match type of Hwf with
           | _ && _ = true => apply andb_true_iff in Hwf as [? Hwf]
           end.
    assumption.
  - intros tx. unfold invoke, Pokemon.ReadPokemon. tx_unfold.
    cbn [GetState LedgerStub ledger]. rewrite Hk, Hu. reflexivity.
Qed.

(** X3.  The same for the identity contract: on every ledger its transactions
    reach, [ReadIdentity] succeeds on every live key and [GetAllIdentities]
    succeeds, with one record for each live key. *)
Theorem reachable_identities_decode (l : Ledger) :
  identities_reachable l ->
  (forall (k : string) (v : bytes),
      world l !! k = Some v ->
      exists x,
        Identity.Unmarshal v Identity.zero = Ok x
        /\ Identity.ID x = CoerceUTF8 k
        /\ forall tx, invoke tx (Identity.ReadIdentity k) l = (Ok x, l))
  /\ (forall tx, exists rs,
         invoke tx Identity.GetAllIdentities l = (Ok rs, l)
         /\ length rs = size (world l)).
Proof.
  intros Hreach. pose proof (identities_stored l Hreach) as Hst. split.
  - intros k v Hk. destruct (Hst k v Hk) as (x & Hu & Hid).
    exists x. split; [exact Hu|]. split; [exact Hid|].
    intros tx. unfold invoke, Identity.ReadIdentity. tx_unfold.
    cbn [GetState LedgerStub ledger]. rewrite Hk, Hu. reflexivity.
  - intros tx.
    destruct (scan_all_live (fun v => Identity.Unmarshal v Identity.zero) l)
      as (kvs & rs & Hm & Hperm & _ & HF).
    { intros k v Hk. destruct (Hst k v Hk) as (x & Hu & _). eauto. }
    exists rs. split.
    + unfold invoke, Identity.GetAllIdentities. tx_unfold.
      cbn [GetStateByRange LedgerStub ledger]. rewrite Hm. reflexivity.
    + rewrite <- (Forall2_length _ _ _ HF), Hperm. apply length_map_to_list.
Qed.

End Reachable.

(** ** One write, at the end *)

(** X4.  Every method that writes does so once, as its last step, under the key
    it was given: whatever the stub, the state a call leaves is the state it
    found, or the call succeeded and the state is the outcome of a single
    [PutState] (for a delete, [DelState]) on that key.  A call that returns
    an error has written nothing. *)
Theorem methods_write_once {S : Type} `{ChaincodeStub S} `{Strconv} (s : S) (id : string) :
  let put (r : result unit * S) :=
    snd r = s \/ (fst r = Ok tt /\ exists v, PutState id v s = Ok (snd r)) in
  let del (r : result unit * S) :=
    snd r = s \/ (fst r = Ok tt /\ DelState id s = Ok (snd r)) in
  (forall applicant amount term rate,
      put (Bank.CreateLoanApplication id applicant amount term rate s))
  /\ (forall newStatus, put (Bank.UpdateLoanStatus id newStatus s))
  /\ del (Bank.DeleteLoanApplication id s)
  /\ (forall name ptype trainer location power,
         put (Pokemon.CreatePokemon id name ptype trainer location power s))
  /\ (forall trainer power, put (Pokemon.UpdatePokemon id trainer power s))
  /\ put (Pokemon.EvolvePokemon id s)
  /\ del (Pokemon.DeletePokemon id s)
  /\ (forall title firstName lastName cnic dob gender mobile,
         put (Identity.CreateIdentity id title firstName lastName cnic dob gender mobile s))
  /\ (forall mobile address, put (Identity.UpdateIdentity id mobile address s))
  /\ del (Identity.DeleteIdentity id s).
Proof.
  intros put del. unfold put, del.
  unfold Bank.CreateLoanApplication, Bank.UpdateLoanStatus, Bank.DeleteLoanApplication,
    Bank.ReadLoanApplication, Bank.LoanExists,
    Pokemon.CreatePokemon, Pokemon.UpdatePokemon, Pokemon.EvolvePokemon,
    Pokemon.DeletePokemon, Pokemon.ReadPokemon, Pokemon.PokemonExists,
    Identity.CreateIdentity, Identity.UpdateIdentity, Identity.DeleteIdentity,
    Identity.ReadIdentity, Identity.IdentityExists.
  tx_unfold.
  destruct (GetState id s) as [[v0|]|e0] eqn:Hg;
    rewrite ?bool_decide_true by discriminate;
    rewrite ?bool_decide_false by (intros Hx; apply Hx; reflexivity);
    cbn [negb]; rewrite ?Hg; cbn beta iota;
    repeat split; intros;
    repeat match goal with
           | |- context [match ?x with _ => _ end] =>
             lazymatch x with
             | PutState _ _ _ => fail
             | DelState _ _ => fail
             | _ => destruct x eqn:?
             end
           end;
    cbn [fst snd]; auto;
    try match goal with
        | |- context [PutState id ?v s] =>
          destruct (PutState id v s) eqn:?; cbn [fst snd]; eauto
        | |- context [DelState id s] =>
          destruct (DelState id s) eqn:?; cbn [fst snd]; eauto
        end.
Qed.

(** ** The methods on a live key, on a free key *)

Section Methods.
Context `{Strconv}.

(** X5.  [UpdatePokemon] on a live key: the record stored at [k] gets the new
    power and trainer; name, type, location and the evolved flag stay, and
    so does every other key.  The method checks nothing about the new
    values.  Read back, the trainer is as the encoder wrote it. *)
Theorem update_pokemon_frame (s : Stub) (k : string) (v : bytes) (p : Pokemon.Pokemon)
    (trainer : string) (power : Z) :
  world (ledger s) !! k = Some v ->
  Pokemon.Unmarshal v Pokemon.zero = Ok p ->
  is_int power = true ->
  exists v' s',
    Pokemon.Marshal (Pokemon.mkPokemon (Pokemon.ID p) (Pokemon.Name p) (Pokemon.Type_ p)
                       power trainer (Pokemon.Evolved p) (Pokemon.Location p)) = Ok v'
    /\ Pokemon.UpdatePokemon k trainer power s = (Ok tt, s')
    /\ world (ledger s') = <[k := v']> (world (ledger s))
    /\ (forall k', k' <> k -> world (ledger s') !! k' = world (ledger s) !! k')
    /\ Pokemon.ReadPokemon k s'
       = (Ok (Pokemon.mkPokemon (Pokemon.ID p) (Pokemon.Name p) (Pokemon.Type_ p)
                power (CoerceUTF8 trainer) (Pokemon.Evolved p) (Pokemon.Location p)), s').
Proof.
  intros Hk Hu Hpw.
  pose proof (Pokemon_Unmarshal_wf v p Hu) as Hwf.
  destruct p as [pid pname ptype ppower ptrainer pevolved plocation].
  split_wf Hwf.
  cbn [Pokemon.ID Pokemon.Name Pokemon.Type_ Pokemon.Power Pokemon.Trainer
       Pokemon.Evolved Pokemon.Location].
  set (p' := Pokemon.mkPokemon pid pname ptype power trainer pevolved plocation).
  destruct (Pokemon_Marshal_ok p') as [v' Hv'].
  unfold Pokemon.UpdatePokemon, Pokemon.ReadPokemon.
  tx_unfold. cbn [GetState PutState LedgerStub]. rewrite Hk, Hu.
  unfold Pokemon.with_Power_Trainer.
  cbn [Pokemon.ID Pokemon.Name Pokemon.Type_ Pokemon.Power Pokemon.Trainer
       Pokemon.Evolved Pokemon.Location].
  fold p'. rewrite Hv'.
  eexists v', _. split; [reflexivity|]. split; [reflexivity|].
  cbn [ledger world]. split; [reflexivity|].
  split; [intros k' Hne; apply lookup_insert_ne; congruence|].
  rewrite lookup_insert_eq.
  rewrite (Pokemon_roundtrip p' v' Hpw Hv').
  unfold pokemon_coerce, p'. cbn.
  coerce_valid. reflexivity.
Qed.

Lemma Identity_update_roundtrip (v v' : bytes) (x : Identity.Identity)
    (mobile address : string) :
  Identity.Unmarshal v Identity.zero = Ok x ->
  Identity.Marshal (Identity.with_Address (Identity.with_MobileNumber x mobile) address)
  = Ok v' ->
  Identity.Unmarshal v' Identity.zero
  = Ok (Identity.with_Address (Identity.with_MobileNumber x (CoerceUTF8 mobile))
          (CoerceUTF8 address)).
Proof.
  intros Hu Hv'.
  pose proof (Identity_Unmarshal_wf v x Hu) as Hwf.
  rewrite (Identity_roundtrip _ v' Hv').
  destruct x. split_wf Hwf.
  unfold Identity.with_Address, Identity.with_MobileNumber. cbn.
  coerce_valid. reflexivity.
Qed.

(** X6.  [UpdateIdentity] on a live key: the record stored at [k] gets the new
    mobile number and address, both of them at every call, empty or not;
    the other thirty-one fields stay, and so does every other key. *)
Theorem update_identity_frame (s : Stub) (k : string) (v : bytes)
    (x : Identity.Identity) (mobile address : string) :
  world (ledger s) !! k = Some v ->
  Identity.Unmarshal v Identity.zero = Ok x ->
  exists v' s',
    Identity.Marshal (Identity.with_Address (Identity.with_MobileNumber x mobile) address)
    = Ok v'
    /\ Identity.UpdateIdentity k mobile address s = (Ok tt, s')
    /\ world (ledger s') = <[k := v']> (world (ledger s))
    /\ (forall k', k' <> k -> world (ledger s') !! k' = world (ledger s) !! k')
    /\ Identity.ReadIdentity k s'
       = (Ok (Identity.with_Address (Identity.with_MobileNumber x (CoerceUTF8 mobile))
                (CoerceUTF8 address)), s').
Proof.
  intros Hk Hu.
  set (x' := Identity.with_Address (Identity.with_MobileNumber x mobile) address).
  destruct (Identity_Marshal_ok x') as [v' Hv'].
  unfold Identity.UpdateIdentity, Identity.IdentityExists, Identity.ReadIdentity.
  tx_unfold. cbn [GetState PutState LedgerStub]. rewrite Hk.
  rewrite bool_decide_true by discriminate. cbn [negb]. rewrite Hk, Hu.
  fold x'. rewrite Hv'.
  eexists v', _. split; [reflexivity|]. split; [reflexivity|].
  cbn [ledger world]. split; [reflexivity|].
  split; [intros k' Hne; apply lookup_insert_ne; congruence|].
  rewrite lookup_insert_eq.
  rewrite (Identity_update_roundtrip v v' x mobile address Hu Hv'). reflexivity.
Qed.

(** X7.  A Pokemon evolves at most once.  After a successful [EvolvePokemon] a
    second one fails with the already-evolved error and writes nothing, and
    [UpdatePokemon] does not clear the flag: after any update the Pokemon
    still cannot evolve again. *)
Theorem evolve_only_once (s s1 : Stub) (k : string) :
  Pokemon.EvolvePokemon k s = (Ok tt, s1) ->
  Pokemon.EvolvePokemon k s1 = (Err (ErrAlreadyEvolved k), s1)
  /\ (forall (trainer : string) (power : Z),
         is_int power = true ->
         exists s2,
           Pokemon.UpdatePokemon k trainer power s1 = (Ok tt, s2)
           /\ Pokemon.EvolvePokemon k s2 = (Err (ErrAlreadyEvolved k), s2)).
Proof.
  unfold Pokemon.EvolvePokemon, Pokemon.UpdatePokemon, Pokemon.ReadPokemon.
  tx_unfold. cbn [GetState PutState LedgerStub].
  destruct (world (ledger s) !! k) as [v|] eqn:Hk; [|discriminate].
  destruct (Pokemon.Unmarshal v Pokemon.zero) as [p|] eqn:Hu; [|discriminate].
  pose proof (Pokemon_Unmarshal_wf v p Hu) as Hwf.
  destruct p as [pid pname ptype ppower ptrainer pevolved plocation].
  split_wf Hwf.
  cbn [Pokemon.Evolved]. destruct pevolved; [discriminate|].
  unfold Pokemon.with_Power, Pokemon.with_Evolved, Pokemon.with_Power_Trainer.
  cbn [Pokemon.ID Pokemon.Name Pokemon.Type_ Pokemon.Power Pokemon.Trainer
       Pokemon.Evolved Pokemon.Location].
  set (p' := Pokemon.mkPokemon pid pname ptype (wrap64 (ppower + 30)) ptrainer true
               plocation).
  destruct (Pokemon.Marshal p') as [v'|] eqn:Hv'; [|discriminate].
  intros [= <-]. cbn [ledger world TxID]. rewrite lookup_insert_eq.
  assert (Hwf' : fields_wf (Pokemon.fields p') = true).
  { unfold fields_wf, p'. cbn.
    repeat match goal with
           | Hs : ValidString _ = true |- _ => rewrite Hs
           end.
    rewrite is_int_wrap64. reflexivity. }
  rewrite (Pokemon_roundtrip_wf p' v' Hwf' Hv').
  unfold p' at 1. cbn [Pokemon.Evolved]. split; [reflexivity|].
  intros trainer power Hpw.
  unfold p' at 1 2 3 4 5.
  cbn [Pokemon.ID Pokemon.Name Pokemon.Type_ Pokemon.Power Pokemon.Trainer
       Pokemon.Evolved Pokemon.Location].
  set (p2 := Pokemon.mkPokemon pid pname ptype power trainer true plocation).
  destruct (Pokemon_Marshal_ok p2) as [v2 Hv2]. rewrite Hv2.
  eexists. split; [reflexivity|]. cbn [ledger world].
  rewrite lookup_insert_eq.
  rewrite (Pokemon_roundtrip p2 v2 Hpw Hv2). reflexivity.
Qed.

(** X8.  [CreatePokemon] on a key with no live value cannot fail: a Pokemon
    always serializes.  Afterwards the key exists, [ReadPokemon] returns the
    record with [Evolved] false, and a second create on the key is
    refused. *)
Theorem create_pokemon_then_read (s : Stub) (id name ptype trainer location : string)
    (power : Z) :
  is_int power = true ->
  world (ledger s) !! id = None ->
  exists v s',
    Pokemon.CreatePokemon id name ptype trainer location power s = (Ok tt, s')
    /\ world (ledger s') = <[id := v]> (world (ledger s))
    /\ Pokemon.PokemonExists id s' = (Ok true, s')
    /\ Pokemon.ReadPokemon id s'
       = (Ok (Pokemon.mkPokemon (CoerceUTF8 id) (CoerceUTF8 name) (CoerceUTF8 ptype)
                power (CoerceUTF8 trainer) false (CoerceUTF8 location)), s')
    /\ (forall name' ptype' trainer' location' power',
           Pokemon.CreatePokemon id name' ptype' trainer' location' power' s'
           = (Err (ErrAlreadyExists "Pokemon" id), s')).
Proof.
  intros Hpw Hk.
  set (p := Pokemon.mkPokemon id name ptype power trainer false location).
  destruct (Pokemon_Marshal_ok p) as [v Hv].
  unfold Pokemon.CreatePokemon, Pokemon.PokemonExists, Pokemon.ReadPokemon.
  tx_unfold. cbn [GetState PutState LedgerStub]. rewrite Hk.
  rewrite bool_decide_false by (intros Hx; apply Hx; reflexivity).
  fold p. rewrite Hv.
  eexists v, _. split; [reflexivity|]. cbn [ledger world].
  split; [reflexivity|]. rewrite lookup_insert_eq.
  rewrite bool_decide_true by discriminate.
  split; [reflexivity|].
  rewrite (Pokemon_roundtrip p v Hpw Hv).
  split; reflexivity.
Qed.

(** X9.  [CreateIdentity] on a key with no live value cannot fail either.
    [ReadIdentity] then returns the eight given fields and the empty string
    in the twenty-five fields the method has no parameter for. *)
Theorem create_identity_then_read (s : Stub)
    (id title firstName lastName cnic dob gender mobile : string) :
  world (ledger s) !! id = None ->
  exists v s',
    Identity.CreateIdentity id title firstName lastName cnic dob gender mobile s
    = (Ok tt, s')
    /\ world (ledger s') = <[id := v]> (world (ledger s))
    /\ Identity.IdentityExists id s' = (Ok true, s')
    /\ Identity.ReadIdentity id s'
       = (Ok (Identity.new_identity (CoerceUTF8 id) (CoerceUTF8 title)
                (CoerceUTF8 firstName) (CoerceUTF8 lastName) (CoerceUTF8 cnic)
                (CoerceUTF8 dob) (CoerceUTF8 gender) (CoerceUTF8 mobile)), s').
Proof.
  intros Hk.
  set (x := Identity.new_identity id title firstName lastName cnic dob gender mobile).
  destruct (Identity_Marshal_ok x) as [v Hv].
  unfold Identity.CreateIdentity, Identity.IdentityExists, Identity.ReadIdentity.
  tx_unfold. cbn [GetState PutState LedgerStub]. rewrite Hk.
  rewrite bool_decide_false by (intros Hx; apply Hx; reflexivity).
  fold x. rewrite Hv.
  eexists v, _. split; [reflexivity|]. cbn [ledger world].
  split; [reflexivity|]. rewrite lookup_insert_eq.
  rewrite bool_decide_true by discriminate.
  split; [reflexivity|].
  rewrite (Identity_roundtrip x v Hv).
  assert (E : CoerceUTF8 "" = "") by (vm_compute; reflexivity).
  unfold x, Identity.new_identity. cbn. rewrite !E. reflexivity.
Qed.

(** X10.  Deleting a live key needs no decoding: [DeleteLoanApplication] and
    [DeleteIdentity] succeed on every live key, whatever its value, remove
    that key and no other, and add one revision, the deletion, to the key's
    history.  The key is free again: it does not exist, and a loan can be
    created under it anew. *)
Theorem delete_frees_key (s : Stub) (k : string) (v : bytes) :
  world (ledger s) !! k = Some v ->
  exists s1,
    Bank.DeleteLoanApplication k s = (Ok tt, s1)
    /\ Identity.DeleteIdentity k s = (Ok tt, s1)
    /\ world (ledger s1) = delete k (world (ledger s))
    /\ history_of (ledger s1) k
       = history_of (ledger s) k ++ [mkKeyModification (TxID s) "" true]
    /\ (forall k', k' <> k -> history_of (ledger s1) k' = history_of (ledger s) k')
    /\ Bank.LoanExists k s1 = (Ok false, s1)
    /\ Identity.IdentityExists k s1 = (Ok false, s1)
    /\ (forall (applicant : string) (amount term : Z) (rate : float64),
           IsInfOrNaN rate = false ->
           exists s2, Bank.CreateLoanApplication k applicant amount term rate s1
                      = (Ok tt, s2)).
Proof.
  intros Hk.
  unfold Bank.CreateLoanApplication, Bank.DeleteLoanApplication, Bank.LoanExists,
    Identity.DeleteIdentity, Identity.IdentityExists.
  tx_unfold. cbn [GetState DelState PutState LedgerStub]. rewrite Hk.
  rewrite !bool_decide_true by discriminate. cbn [negb].
  eexists. split; [reflexivity|]. split; [reflexivity|].
  cbn [ledger world]. split; [reflexivity|].
  split; [apply history_of_record|].
  split.
  { intros k' Hne. unfold history_of, record_revision. cbn [revisions].
    rewrite lookup_insert_ne by congruence. reflexivity. }
  rewrite lookup_delete_eq.
  rewrite !bool_decide_false by (intros Hx; apply Hx; reflexivity).
  split; [reflexivity|]. split; [reflexivity|].
  intros applicant amount term rate Hr.
  destruct (Bank_Marshal_finite
              (Bank.mkLoanApplication k applicant amount term rate "Pending") Hr)
    as [v' Hv'].
  rewrite Hv'. eexists. reflexivity.
Qed.

End Methods.

(** ** InitLedger *)

Section Init.
Context `{Strconv}.

(** X11.  [InitLedger] of the loan contract asks for no existence check: on every
    ledger it succeeds and writes the two sample loans under "loan1" and
    "loan2", replacing whatever these keys held, "loan2" with status
    "Approved"; no other key changes.  Both read back as written, and a
    second [InitLedger] leaves the same world state. *)
Theorem init_ledger_loans (s : Stub) :
  exists v1 v2 s',
    Bank.Marshal (Bank.mkLoanApplication "loan1" "Afraz" 10000 12 0x4016000000000000
                    "Pending") = Ok v1
    /\ Bank.Marshal (Bank.mkLoanApplication "loan2" "Alam" 5000 6 0x4010CCCCCCCCCCCD
                       "Approved") = Ok v2
    /\ Bank.InitLedger s = (Ok tt, s')
    /\ world (ledger s') = <["loan2" := v2]> (<["loan1" := v1]> (world (ledger s)))
    /\ Bank.ReadLoanApplication "loan1" s'
       = (Ok (Bank.mkLoanApplication "loan1" "Afraz" 10000 12 0x4016000000000000
                "Pending"), s')
    /\ Bank.ReadLoanApplication "loan2" s'
       = (Ok (Bank.mkLoanApplication "loan2" "Alam" 5000 6 0x4010CCCCCCCCCCCD
                "Approved"), s')
    /\ exists s'', Bank.InitLedger s' = (Ok tt, s'')
                   /\ world (ledger s'') = world (ledger s').
Proof.
  set (x1 := Bank.mkLoanApplication "loan1" "Afraz" 10000 12 0x4016000000000000 "Pending").
  set (x2 := Bank.mkLoanApplication "loan2" "Alam" 5000 6 0x4010CCCCCCCCCCCD "Approved").
  destruct (Bank_Marshal_finite x1) as [v1 Hv1]; [vm_compute; reflexivity|].
  destruct (Bank_Marshal_finite x2) as [v2 Hv2]; [vm_compute; reflexivity|].
  assert (Hinit : forall s0 : Stub,
             Bank.InitLedger s0
             = (Ok tt,
                mkStub (TxID s0)
                  (mkLedger (<["loan2" := v2]> (<["loan1" := v1]> (world (ledger s0))))
                     (record_revision "loan2" (mkKeyModification (TxID s0) v2 false)
                        (mkLedger (<["loan1" := v1]> (world (ledger s0)))
                           (record_revision "loan1"
                              (mkKeyModification (TxID s0) v1 false) (ledger s0))))))).
  { intros s0. unfold Bank.InitLedger. cbn [foldr]. fold x1 x2. tx_unfold.
    rewrite Hv1. cbn [PutState LedgerStub Bank.ID x1]. rewrite Hv2.
    cbn [PutState LedgerStub Bank.ID x2 TxID ledger]. reflexivity. }
  exists v1, v2. eexists. split; [exact Hv1|]. split; [exact Hv2|].
  split; [apply Hinit|]. cbn [ledger world]. split; [reflexivity|].
  unfold Bank.ReadLoanApplication. tx_unfold. cbn [GetState LedgerStub ledger world].
  rewrite lookup_insert_ne by discriminate. rewrite !lookup_insert_eq.
  rewrite (Bank_roundtrip x1 v1 ltac:(vm_compute; reflexivity) Hv1).
  rewrite (Bank_roundtrip x2 v2 ltac:(vm_compute; reflexivity) Hv2).
  assert (E1 : loan_coerce x1 = x1) by (vm_compute; reflexivity).
  assert (E2 : loan_coerce x2 = x2) by (vm_compute; reflexivity).
  rewrite E1, E2.
  split; [reflexivity|]. split; [reflexivity|].
  eexists. split; [apply Hinit|]. cbn [ledger world].
  rewrite (insert_insert_ne _ "loan1" "loan2") by discriminate.
  rewrite !insert_insert_eq. reflexivity.
Qed.

(** X12.  [InitLedger] of the Pokemon contract: on every ledger it succeeds and
    writes the three sample Pokemon under "poke1", "poke2" and "poke3",
    replacing whatever these keys held, so that a Pokemon that had evolved
    is stored unevolved again; no other key changes. *)
Theorem init_ledger_pokemons (s : Stub) :
  exists v1 v2 v3 s',
    Pokemon.Marshal (Pokemon.mkPokemon "poke1" "Pikachu" "Electric" 55 "Ash" false
                       "Pallet Town") = Ok v1
    /\ Pokemon.Marshal (Pokemon.mkPokemon "poke2" "Charmander" "Fire" 52 "Red" false
                          "Cinnabar Island") = Ok v2
    /\ Pokemon.Marshal (Pokemon.mkPokemon "poke3" "Squirtle" "Water" 48 "Misty" false
                          "Cerulean City") = Ok v3
    /\ Pokemon.InitLedger s = (Ok tt, s')
    /\ world (ledger s')
       = <["poke3" := v3]> (<["poke2" := v2]> (<["poke1" := v1]> (world (ledger s))))
    /\ Pokemon.ReadPokemon "poke1" s'
       = (Ok (Pokemon.mkPokemon "poke1" "Pikachu" "Electric" 55 "Ash" false
                "Pallet Town"), s')
    /\ Pokemon.ReadPokemon "poke2" s'
       = (Ok (Pokemon.mkPokemon "poke2" "Charmander" "Fire" 52 "Red" false
                "Cinnabar Island"), s')
    /\ Pokemon.ReadPokemon "poke3" s'
       = (Ok (Pokemon.mkPokemon "poke3" "Squirtle" "Water" 48 "Misty" false
                "Cerulean City"), s').
Proof.
  set (p1 := Pokemon.mkPokemon "poke1" "Pikachu" "Electric" 55 "Ash" false "Pallet Town").
  set (p2 := Pokemon.mkPokemon "poke2" "Charmander" "Fire" 52 "Red" false
               "Cinnabar Island").
  set (p3 := Pokemon.mkPokemon "poke3" "Squirtle" "Water" 48 "Misty" false
               "Cerulean City").
  destruct (Pokemon_Marshal_ok p1) as [v1 Hv1].
  destruct (Pokemon_Marshal_ok p2) as [v2 Hv2].
  destruct (Pokemon_Marshal_ok p3) as [v3 Hv3].
  exists v1, v2, v3. eexists.
  split; [exact Hv1|]. split; [exact Hv2|]. split; [exact Hv3|].
  split.
  { unfold Pokemon.InitLedger. cbn [foldr]. fold p1 p2 p3. tx_unfold.
    rewrite Hv1. cbn [PutState LedgerStub Pokemon.ID p1]. rewrite Hv2.
    cbn [PutState LedgerStub Pokemon.ID p2]. rewrite Hv3.
    cbn [PutState LedgerStub Pokemon.ID p3 TxID ledger]. reflexivity. }
  cbn [ledger world]. split; [reflexivity|].
  unfold Pokemon.ReadPokemon. tx_unfold. cbn [GetState LedgerStub ledger world].
  rewrite !(lookup_insert_ne _ "poke3") by discriminate.
  rewrite !(lookup_insert_ne _ "poke2" "poke1") by discriminate.
  rewrite !lookup_insert_eq.
  rewrite (Pokemon_roundtrip p1 v1 ltac:(vm_compute; reflexivity) Hv1).
  rewrite (Pokemon_roundtrip p2 v2 ltac:(vm_compute; reflexivity) Hv2).
  rewrite (Pokemon_roundtrip p3 v3 ltac:(vm_compute; reflexivity) Hv3).
  assert (E1 : pokemon_coerce p1 = p1) by (vm_compute; reflexivity).
  assert (E2 : pokemon_coerce p2 = p2) by (vm_compute; reflexivity).
  assert (E3 : pokemon_coerce p3 = p3) by (vm_compute; reflexivity).
  rewrite E1, E2, E3. repeat split; reflexivity.
Qed.

(** X13.  [InitLedger] of the identity contract: on every ledger it succeeds and
    writes the sample identity under "identity1", replacing whatever the key
    held; no other key changes. *)
Theorem init_ledger_identity (s : Stub) :
  exists v s',
    Identity.Marshal (Identity.new_identity "identity1" "Mr." "John" "Doe"
                        "12345-6789012-3" "01-01-1980" "Male" "03001234567") = Ok v
    /\ Identity.InitLedger s = (Ok tt, s')
    /\ world (ledger s') = <["identity1" := v]> (world (ledger s))
    /\ Identity.ReadIdentity "identity1" s'
       = (Ok (Identity.new_identity "identity1" "Mr." "John" "Doe"
                "12345-6789012-3" "01-01-1980" "Male" "03001234567"), s').
Proof.
  set (x := Identity.new_identity "identity1" "Mr." "John" "Doe"
              "12345-6789012-3" "01-01-1980" "Male" "03001234567").
  destruct (Identity_Marshal_ok x) as [v Hv].
  exists v. eexists. split; [exact Hv|].
  split.
  { unfold Identity.InitLedger. cbn [foldr]. fold x. tx_unfold.
    rewrite Hv. change (Identity.ID x) with "identity1".
    cbn [PutState LedgerStub TxID ledger]. reflexivity. }
  cbn [ledger world]. split; [reflexivity|].
  unfold Identity.ReadIdentity. tx_unfold. cbn [GetState LedgerStub ledger world].
  rewrite lookup_insert_eq.
  rewrite (Identity_roundtrip x v Hv).
  assert (E : Identity.of_fields (map coerce_field (Identity.fields x)) = x)
    by (vm_compute; reflexivity).
  rewrite E. reflexivity.
Qed.

End Init.

(** ** Values the contract did not write *)

Section Foreign.
Context `{Strconv}.

(** X14.  The list methods decode every live value and stop at the first that
    fails: one live value that is not a loan (an identity) makes
    [GetAllLoanApplications] ([GetAllIdentities]) fail as a whole, with the
    decoder's error for a live value, returning no record at all. *)
Theorem get_all_fails_on_one_bad_value (s : Stub) (k : string) (v : bytes) (e : error) :
  world (ledger s) !! k = Some v ->
  (Bank.Unmarshal v Bank.zero = Err e ->
   exists k' v' e',
     world (ledger s) !! k' = Some v'
     /\ Bank.Unmarshal v' Bank.zero = Err e'
     /\ Bank.GetAllLoanApplications s = (Err e', s))
  /\ (Identity.Unmarshal v Identity.zero = Err e ->
      exists k' v' e',
        world (ledger s) !! k' = Some v'
        /\ Identity.Unmarshal v' Identity.zero = Err e'
        /\ Identity.GetAllIdentities s = (Err e', s)).
Proof.
  intros Hk.
  destruct (ledger_range_all (ledger s)) as (kvs & Hrange & Hperm & _).
  assert (Hin : mkKV k v ∈ ledger_range "" "" (ledger s)).
  { rewrite Hrange. apply list_elem_of_fmap. exists (k, v). split; [reflexivity|].
    rewrite Hperm. apply elem_of_map_to_list. exact Hk. }
  assert (Hlive : forall q, q ∈ ledger_range "" "" (ledger s) ->
                            world (ledger s) !! Key q = Some (KVValue q)).
  { intros q. rewrite Hrange. intros Hq. apply list_elem_of_fmap in Hq as ([k' v'] & -> & Hq).
    rewrite Hperm in Hq. apply elem_of_map_to_list in Hq. exact Hq. }
  split; intros Hu.
  - destruct (mapM_result_Err (fun q => Bank.Unmarshal (KVValue q) Bank.zero)
                _ (mkKV k v) e Hin Hu) as (q & e' & Hq & Hfq & Hm).
    exists (Key q), (KVValue q), e'. split; [apply Hlive, Hq|]. split; [exact Hfq|].
    unfold Bank.GetAllLoanApplications. tx_unfold. cbn [GetStateByRange LedgerStub].
    rewrite Hm. reflexivity.
  - destruct (mapM_result_Err (fun q => Identity.Unmarshal (KVValue q) Identity.zero)
                _ (mkKV k v) e Hin Hu) as (q & e' & Hq & Hfq & Hm).
    exists (Key q), (KVValue q), e'. split; [apply Hlive, Hq|]. split; [exact Hfq|].
    unfold Identity.GetAllIdentities. tx_unfold. cbn [GetStateByRange LedgerStub].
    rewrite Hm. reflexivity.
Qed.

Lemma decode_members_unknown (ms : list (string * json)) (fs : gofields) :
  forallb (fun m => match field_index (fst m) fs with None => true | Some _ => false end)
          ms = true ->
  decode_members ms fs = Ok fs.
Proof.
  induction ms as [|[key jv] ms IH]; [reflexivity|].
  cbn [forallb decode_members fst]. intros Hm. apply andb_true_iff in Hm as [Hk Hm].
  destruct (field_index key fs); [discriminate|]. apply IH, Hm.
Qed.

Lemma unmarshal_fields_unknown (data : bytes) (fs : gofields) :
  names_no_field fs data = true -> unmarshal_fields data fs = Ok fs.
Proof.
  unfold names_no_field, unmarshal_fields.
  destruct (parse_json data) as [[| | | | |ms]|]; try discriminate.
  - reflexivity.
  - apply decode_members_unknown.
Qed.

(** X15.  The read methods do not check the shape of what they decode.  A live
    value that is JSON [null], or an object without any key that names a
    field, is no error: [ReadLoanApplication], [ReadPokemon] and
    [ReadIdentity] return the zero record, with the empty ID.
    [UpdateLoanStatus] then succeeds as well and replaces the value by a
    loan that has the new status and nothing else. *)
Theorem read_accepts_any_object (s : Stub) (k : string) (v : bytes) :
  world (ledger s) !! k = Some v ->
  (names_no_field (Bank.fields Bank.zero) v = true ->
   Bank.ReadLoanApplication k s = (Ok Bank.zero, s)
   /\ forall newStatus, exists v' s',
        Bank.Marshal (Bank.mkLoanApplication "" "" 0 0 0 newStatus) = Ok v'
        /\ Bank.UpdateLoanStatus k newStatus s = (Ok tt, s')
        /\ world (ledger s') = <[k := v']> (world (ledger s)))
  /\ (names_no_field (Pokemon.fields Pokemon.zero) v = true ->
      Pokemon.ReadPokemon k s = (Ok Pokemon.zero, s))
  /\ (names_no_field (Identity.fields Identity.zero) v = true ->
      Identity.ReadIdentity k s = (Ok Identity.zero, s)).
Proof.
  intros Hk. split; [|split]; intros Hn.
  - assert (Hu : Bank.Unmarshal v Bank.zero = Ok Bank.zero).
    { unfold Bank.Unmarshal. rewrite unmarshal_fields_unknown by exact Hn. reflexivity. }
    unfold Bank.UpdateLoanStatus, Bank.ReadLoanApplication. tx_unfold.
    cbn [GetState PutState LedgerStub]. rewrite Hk, Hu. split; [reflexivity|].
    intros newStatus.
    destruct (Bank_Marshal_finite (Bank.mkLoanApplication "" "" 0 0 0 newStatus))
      as [v' Hv']; [vm_compute; reflexivity|].
    exists v'. unfold Bank.with_Status, Bank.zero.
    cbn [Bank.ID Bank.Applicant Bank.Amount Bank.Term Bank.InterestRate].
    rewrite Hv'. eexists. split; [reflexivity|]. split; reflexivity.
  - unfold Pokemon.ReadPokemon. tx_unfold. cbn [GetState LedgerStub]. rewrite Hk.
    unfold Pokemon.Unmarshal. rewrite unmarshal_fields_unknown by exact Hn. reflexivity.
  - unfold Identity.ReadIdentity. tx_unfold. cbn [GetState LedgerStub]. rewrite Hk.
    unfold Identity.Unmarshal. rewrite unmarshal_fields_unknown by exact Hn. reflexivity.
Qed.

End Foreign.

(** ** The gateway's handlers *)

Section GatewayFacts.
Import Gateway.
Variable TypeError : string -> js_error.
Variable contract : option Contract.

Lemma submit_calls (c : Call) (k : Response) :
  snd (submit TypeError contract c k) = [] \/ snd (submit TypeError contract c k) = [c].
Proof.
  unfold submit. destruct contract as [f|]; [|auto]. destruct (f c); auto.
Qed.

Lemma submit_status (c : Call) (k : Response) :
  statusCode k = 200 ->
  (statusCode (fst (submit TypeError contract c k)) = 200
   /\ fst (submit TypeError contract c k) = k
   /\ snd (submit TypeError contract c k) = [c]
   /\ exists f result, contract = Some f /\ f c = inr result)
  \/ (statusCode (fst (submit TypeError contract c k)) = 500
      /\ forall f result, contract = Some f -> f c <> inr result).
Proof.
  intros Hk. unfold submit. destruct contract as [f|].
  - destruct (f c) as [e|result] eqn:Hf; cbn [fst snd].
    + right. split; [reflexivity|]. intros f' result [= <-]. congruence.
    + left. eauto 10.
  - right. split; [reflexivity|]. discriminate.
Qed.

(** X16.  [POST /identities] on a body that is an object.  The answer is 400
    exactly when one of id, firstName, lastName, cnic, dob, gender, mobile is
    missing or falsy (empty, [null], [0], [false]); then nothing is
    submitted.  Otherwise the handler submits at most one transaction,
    CreateIdentity with nine arguments: the title, or the empty string when
    it is missing, in second place and an empty string in fourth.  The
    answer is 200, with the id, exactly when that transaction was submitted
    and succeeded, and 500 in every other case. *)
Theorem post_identities_answers (props : list (string * jsvalue)) :
  let get := lookup_prop props in
  let required := ["id"; "firstName"; "lastName"; "cnic"; "dob"; "gender"; "mobile"] in
  let call :=
    mkCall "CreateIdentity"
      [ get "id"; js_or (get "title") (JSString ""); get "firstName"; JSString "";
        get "lastName"; get "cnic"; get "dob"; get "gender"; get "mobile" ] in
  let r := post_identities TypeError contract (JSObject props) in
  (statusCode (fst r) = 400
   <-> exists name, In name required /\ ToBoolean (get name) = false)
  /\ (statusCode (fst r) = 400 ->
      r = (mkResponse 400 (JSObject [("error", JSString "Missing required fields")]), []))
  /\ (snd r = [] \/ snd r = [call])
  /\ (statusCode (fst r) = 200
      <-> (forall name, In name required -> ToBoolean (get name) = true)
          /\ exists f result, contract = Some f /\ f call = inr result)
  /\ (statusCode (fst r) = 200 ->
      r = (mkResponse 200 (JSObject [("message", JSString "Identity created successfully");
                                     ("id", get "id")]), [call]))
  /\ (statusCode (fst r) = 200 \/ statusCode (fst r) = 400 \/ statusCode (fst r) = 500).
Proof.
  intros get required call r.
  unfold r, post_identities. cbn [destructure]. fold get. fold call.
  set (k := res_json (JSObject [("message", JSString "Identity created successfully");
                            ("id", get "id")])).
  assert (Hall : forallb (fun name => ToBoolean (get name)) required = true
                 <-> forall name, In name required -> ToBoolean (get name) = true)
    by apply forallb_forall.
  assert (Hsome : forallb (fun name => ToBoolean (get name)) required = false
                  <-> exists name, In name required /\ ToBoolean (get name) = false).
  { split.
    - intros Hf. destruct (existsb (fun name => negb (ToBoolean (get name))) required)
        eqn:He.
      + apply existsb_exists in He as (name & Hin & Hn).
        exists name. split; [exact Hin|]. apply negb_true_iff, Hn.
      + exfalso. cbn in Hf, He. 
        repeat match type of He with
               | _ || _ = false => apply orb_false_iff in He as [? He]
               end.
        repeat match goal with
               | Hx : negb _ = false |- _ => apply negb_false_iff in Hx; rewrite Hx in Hf
               end.
        discriminate.
    - intros (name & Hin & Hn). apply not_true_iff_false. intros Ht.
      rewrite Hall in Ht. rewrite (Ht name Hin) in Hn. discriminate. }
  cbn [forallb required] in Hall, Hsome.
  destruct (ToBoolean (get "id")), (ToBoolean (get "firstName")),
    (ToBoolean (get "lastName")), (ToBoolean (get "cnic")), (ToBoolean (get "dob")),
    (ToBoolean (get "gender")), (ToBoolean (get "mobile"));
    cbn [negb orb andb] in *.
  1:{ destruct (submit_status call k eq_refl) as [(Hs & Hk & Hc & Hf)|[Hs Hf]];
        pose proof (submit_calls call k) as Hcalls.
      - rewrite Hs. repeat split; try discriminate; auto.
        + intros Hx. apply Hsome in Hx. discriminate.
        + apply Hall. reflexivity.
        + intros _. apply injective_projections; [rewrite Hk; reflexivity | exact Hc].
      - rewrite Hs. repeat split; try discriminate; auto.
        + intros Hx. apply Hsome in Hx. discriminate.
        + intros [_ (f & result & Hc & Hr)]. exfalso. exact (Hf f result Hc Hr). }
  all: cbn [fst snd statusCode res_status_json].
  all: repeat split; try discriminate; auto.
  all: try (intros _; apply Hsome; reflexivity).
  all: try (intros [Ht _]; apply Hall in Ht; discriminate).
Qed.

(** X17.  [PUT /identities/:id] on a body that is an object.  The answer is 400
    exactly when mobile and address are both missing or falsy; then nothing
    is submitted.  Otherwise the handler submits at most one transaction,
    UpdateIdentity with the id of the route and both fields, the one that is
    missing or falsy as the empty string. *)
Theorem put_identity_answers (id : string) (props : list (string * jsvalue)) :
  let get := lookup_prop props in
  let call :=
    mkCall "UpdateIdentity"
      [ JSString id;
        if ToBoolean (get "mobile") then get "mobile" else JSString "";
        if ToBoolean (get "address") then get "address" else JSString "" ] in
  let r := put_identity TypeError contract id (JSObject props) in
  (statusCode (fst r) = 400
   <-> ToBoolean (get "mobile") = false /\ ToBoolean (get "address") = false)
  /\ (statusCode (fst r) = 400 ->
      r = (mkResponse 400 (JSObject [("error", JSString "No fields to update")]), []))
  /\ (snd r = [] \/ snd r = [call])
  /\ (statusCode (fst r) = 200
      <-> (ToBoolean (get "mobile") = true \/ ToBoolean (get "address") = true)
          /\ exists f result, contract = Some f /\ f call = inr result)
  /\ (statusCode (fst r) = 200 ->
      r = (mkResponse 200 (JSObject [("message", JSString "Identity updated successfully")]),
           [call])).
Proof.
  intros get call r.
  unfold r, put_identity. cbn [destructure]. fold get. unfold js_or. fold call.
  set (k := res_json (JSObject [("message", JSString "Identity updated successfully")])).
  destruct (ToBoolean (get "mobile")) eqn:Hm, (ToBoolean (get "address")) eqn:Ha;
    cbn [negb andb].
  4:{ cbn [fst snd statusCode res_status_json]. repeat split; try discriminate; auto.
      - intros [[?|?] _]; discriminate. }
  all: destruct (submit_status call k eq_refl) as [(Hs & Hk & Hc & Hf)|[Hs Hf]];
    pose proof (submit_calls call k) as Hcalls; rewrite Hs;
    repeat split; try discriminate; auto;
    try (intros [? ?]; discriminate);
    try (intros _; apply injective_projections; [rewrite Hk; reflexivity | exact Hc]);
    try (intros [_ (f & result & Hc & Hr)]; exfalso; exact (Hf f result Hc Hr)).
Qed.

(** X18.  A submitted transaction that fails is answered with status 500 and the
    error's message by every handler, whatever the cause: an identity that
    does not exist, or exists already, is reported like an unreachable
    peer. *)
Theorem failed_submit_is_500 (f : Contract) (id : string) (req_body : jsvalue) :
  let failed (r : Response * list Call) :=
    forall c e, snd r = [c] -> f c = inl e ->
      fst r = mkResponse 500 (JSObject [("error", JSString (message e))]) in
  failed (post_initLedger TypeError (Some f))
  /\ failed (post_identities TypeError (Some f) req_body)
  /\ failed (put_identity TypeError (Some f) id req_body)
  /\ failed (delete_identity TypeError (Some f) id).
Proof.
  intros failed.
  assert (Hsub : forall c k, failed (submit TypeError (Some f) c k)).
  { intros c k c' e. unfold submit, res_status_json.
    destruct (f c) as [e'|result] eqn:Hf; cbn [fst snd]; intros [= <-] Hf';
      congruence. }
  unfold post_initLedger, post_identities, put_identity, delete_identity.
  repeat split; try apply Hsub.
  - destruct (destructure _ _ req_body); [intros c e; discriminate|].
    destruct (_ || _); [intros c e; discriminate | apply Hsub].
  - destruct (destructure _ _ req_body); [intros c e; discriminate|].
    destruct (_ && _); [intros c e; discriminate | apply Hsub].
Qed.

End GatewayFacts.

Section GatewayAndContract.
Import Gateway.
Context `{Strconv}.

(** X19.  A [PUT /identities/:id] that carries a mobile number and no address
    submits UpdateIdentity with the empty string for the address, and
    [UpdateIdentity] with these arguments stores what it is given: read
    back, the identity has the new mobile number and an empty address,
    whatever address it had. *)
Theorem put_without_address_erases_it (TypeError : string -> js_error) (f : Contract)
    (id m : string) (props : list (string * jsvalue))
    (s : Stub) (v : bytes) (x : Identity.Identity) :
  lookup_prop props "mobile" = JSString m -> m <> "" ->
  ToBoolean (lookup_prop props "address") = false ->
  world (ledger s) !! id = Some v ->
  Identity.Unmarshal v Identity.zero = Ok x ->
  snd (put_identity TypeError (Some f) id (JSObject props))
  = [mkCall "UpdateIdentity" [JSString id; JSString m; JSString ""]]
  /\ exists s',
      Identity.UpdateIdentity id m "" s = (Ok tt, s')
      /\ Identity.ReadIdentity id s'
         = (Ok (Identity.with_Address (Identity.with_MobileNumber x (CoerceUTF8 m)) ""),
            s').
Proof.
  intros Hm Hne Ha Hk Hu. split.
  - unfold put_identity. cbn [destructure]. unfold js_or. rewrite Hm, Ha.
    cbn [ToBoolean]. destruct (String.eqb m "") eqn:E.
    { apply String.eqb_eq in E. contradiction. }
    cbn [negb andb]. unfold submit. destruct (f _); reflexivity.
  - destruct (Identity_Marshal_ok
                (Identity.with_Address (Identity.with_MobileNumber x m) ""))
      as [v' Hv'].
    unfold Identity.UpdateIdentity, Identity.IdentityExists, Identity.ReadIdentity.
    tx_unfold. cbn [GetState PutState LedgerStub]. rewrite Hk.
    rewrite bool_decide_true by discriminate. cbn [negb]. rewrite Hk, Hu, Hv'.
    eexists. split; [reflexivity|]. cbn [ledger world]. rewrite lookup_insert_eq.
    rewrite (Identity_update_roundtrip v v' x m "" Hu Hv').
    assert (E : CoerceUTF8 "" = "") by (vm_compute; reflexivity).
    rewrite E. reflexivity.
Qed.

End GatewayAndContract.

(** * The theorems at concrete inputs

    The number text used here is [BitsText]; a rate is given by its bit
    pattern: 5.5 is [0x4016000000000000], +Inf is [0x7FF0000000000000],
    a quiet NaN is [0x7FF8000000000000]. *)

#[local] Existing Instance BitsText.

Definition fresh : Stub := mkStub "tx0" empty_ledger.

Definition rate_5_5 : float64 := 0x4016000000000000.
Definition rate_inf : float64 := 0x7FF0000000000000.
Definition rate_nan : float64 := 0x7FF8000000000000.

(** a byte that is not valid UTF-8 on its own *)
Definition byte_ff : string := String (byte_of 255) "".

(** the state after one loan, one Pokemon was created on a fresh ledger *)
Definition one_loan : Stub :=
  snd (Bank.CreateLoanApplication "loan1" "Afraz" 10000 12 rate_5_5 fresh).
Definition pokemon_ledger : Ledger :=
  snd (invoke "tx1"
         (Pokemon.CreatePokemon "poke9" "Eevee" "Normal" "Gary" "Celadon City" 40)
         empty_ledger).
Definition one_pokemon : Stub := mkStub "tx2" pokemon_ledger.
Definition strongest_pokemon : Stub :=
  snd (Pokemon.CreatePokemon "poke8" "Mewtwo" "Psychic" "Red" "Cerulean Cave"
         MaxInt64 fresh).

Definition stored (s : Stub) (k : string) : bytes :=
  match world (ledger s) !! k with Some v => v | None => "" end.

Definition eevee : Pokemon.Pokemon :=
  Pokemon.mkPokemon "poke9" "Eevee" "Normal" 40 "Gary" false "Celadon City".
Definition loan1 : Bank.LoanApplication :=
  Bank.mkLoanApplication "loan1" "Afraz" 10000 12 rate_5_5 "Pending".

(** C1, the claim as stated fails: "loan1" has no live value, the rate is
    +Inf, and [CreateLoanApplication] does not succeed. *)
Lemma create_fails_on_infinite_rate :
  world (ledger fresh) !! "loan1" = None
  /\ Bank.CreateLoanApplication "loan1" "Afraz" 10000 12 rate_inf fresh
     = (Err ErrUnsupportedValue, fresh).
Proof. split; vm_compute; reflexivity. Qed.

(** C2, the claim as stated fails: the applicant is the single byte 0xFF;
    the create succeeds and the read returns another applicant, the three
    bytes of U+FFFD. *)
Lemma read_after_create_changes_invalid_bytes :
  exists s' r,
    Bank.CreateLoanApplication "loan1" byte_ff 10000 12 rate_5_5 fresh = (Ok tt, s')
    /\ Bank.ReadLoanApplication "loan1" s' = (Ok r, s')
    /\ Bank.Applicant r = EncodeRune RuneError
    /\ r <> Bank.mkLoanApplication "loan1" byte_ff 10000 12 rate_5_5 "Pending".
Proof.
  eexists _, _. split; [vm_compute; reflexivity|].
  split; [vm_compute; reflexivity|].
  split; [vm_compute; reflexivity|]. vm_compute. discriminate.
Qed.

Lemma read_after_create_witness :
  is_int 10000 = true /\ is_int 12 = true /\ is_float64 rate_5_5 = true
  /\ Bank.CreateLoanApplication "loan1" "Afraz" 10000 12 rate_5_5 fresh = (Ok tt, one_loan)
  /\ Bank.ReadLoanApplication "loan1" one_loan = (Ok loan1, one_loan).
Proof.
  assert (H1 : is_int 10000 = true) by reflexivity.
  assert (H2 : is_int 12 = true) by reflexivity.
  assert (H3 : is_float64 rate_5_5 = true) by reflexivity.
  assert (H4 : Bank.CreateLoanApplication "loan1" "Afraz" 10000 12 rate_5_5 fresh
               = (Ok tt, one_loan)) by (vm_compute; reflexivity).
  split; [exact H1|]. split; [exact H2|]. split; [exact H3|]. split; [exact H4|].
  apply (proj2 (read_after_create fresh one_loan "loan1" "Afraz" 10000 12 rate_5_5
                  H1 H2 H3 H4)); vm_compute; reflexivity.
Defined.

Lemma missing_key_is_not_found_witness :
  world (ledger fresh) !! "loan9" = None
  /\ Bank.ReadLoanApplication "loan9" fresh
     = (Err (ErrDoesNotExist "the loan application" "loan9"), fresh).
Proof.
  split; [reflexivity|].
  apply (missing_key_is_not_found fresh "loan9"). reflexivity.
Defined.

Lemma delete_clears_key_witness :
  invoke "tx1" (Pokemon.CreatePokemon "poke9" "Eevee" "Normal" "Gary" "Celadon City" 40)
    empty_ledger = (Ok tt, pokemon_ledger)
  /\ exists l2,
      invoke "tx2" (Pokemon.DeletePokemon "poke9") pokemon_ledger = (Ok tt, l2)
      /\ world l2 = delete "poke9" (world pokemon_ledger).
Proof.
  assert (H1 : invoke "tx1"
                 (Pokemon.CreatePokemon "poke9" "Eevee" "Normal" "Gary" "Celadon City" 40)
                 empty_ledger = (Ok tt, pokemon_ledger)) by (vm_compute; reflexivity).
  split; [exact H1|].
  destruct (delete_clears_key empty_ledger pokemon_ledger "tx1" "tx2" "tx3"
              "poke9" "Eevee" "Normal" "Gary" "Celadon City" 40 H1)
    as (l2 & Hd & Hw & _).
  exists l2. split; assumption.
Defined.

(** C5, the claim as stated fails: after a create, an update and a delete
    of "poke9" on the empty ledger, [GetHistory] succeeds and lists the
    tombstone first and the created value last, not earliest first. *)
Lemma history_is_newest_first :
  exists (v1 v2 : bytes) (l1 l2 l3 : Ledger),
    invoke "tx1" (Pokemon.CreatePokemon "poke9" "Eevee" "Normal" "Gary" "Celadon City" 40)
      empty_ledger = (Ok tt, l1)
    /\ l1 = pokemon_ledger
    /\ world l1 !! "poke9" = Some v1
    /\ invoke "tx2" (Pokemon.UpdatePokemon "poke9" "Blue" 45) l1 = (Ok tt, l2)
    /\ world l2 !! "poke9" = Some v2
    /\ invoke "tx3" (Pokemon.DeletePokemon "poke9") l2 = (Ok tt, l3)
    /\ invoke "tx4" (Pokemon.GetHistory "poke9") l3
       = (Ok [ "Deleted at TxID: tx3"; "TxID: tx2, Data: " +:+ v2;
               "TxID: tx1, Data: " +:+ v1 ], l3)
    /\ fst (invoke "tx4" (Pokemon.GetHistory "poke9") l3)
       <> Ok [ "TxID: tx1, Data: " +:+ v1; "TxID: tx2, Data: " +:+ v2;
               "Deleted at TxID: tx3" ].
Proof.
  eexists _, _, _, _, _.
  split; [vm_compute; reflexivity|]. split; [vm_compute; reflexivity|].
  split; [vm_compute; reflexivity|]. split; [vm_compute; reflexivity|].
  split; [vm_compute; reflexivity|]. split; [vm_compute; reflexivity|].
  split; [vm_compute; reflexivity|]. vm_compute. discriminate.
Qed.

Lemma history_create_update_delete_witness :
  is_int 40 = true
  /\ invoke "tx1" (Pokemon.CreatePokemon "poke9" "Eevee" "Normal" "Gary" "Celadon City" 40)
       empty_ledger = (Ok tt, pokemon_ledger)
  /\ exists v1 v2 l2 l3,
      invoke "tx2" (Pokemon.UpdatePokemon "poke9" "Blue" 45) pokemon_ledger
      = (Ok tt, l2)
      /\ invoke "tx3" (Pokemon.DeletePokemon "poke9") l2 = (Ok tt, l3)
      /\ invoke "tx4" (Pokemon.GetHistory "poke9") l3
         = (Ok [ "Deleted at TxID: tx3"; "TxID: tx2, Data: " +:+ v2;
                 "TxID: tx1, Data: " +:+ v1 ], l3).
Proof.
  assert (H1 : is_int 40 = true) by reflexivity.
  assert (H2 : invoke "tx1"
                 (Pokemon.CreatePokemon "poke9" "Eevee" "Normal" "Gary" "Celadon City" 40)
                 empty_ledger = (Ok tt, pokemon_ledger)) by (vm_compute; reflexivity).
  split; [exact H1|]. split; [exact H2|].
  destruct (history_create_update_delete empty_ledger pokemon_ledger
              "tx1" "tx2" "tx3" "tx4" "poke9" "Eevee" "Normal" "Gary" "Celadon City" 40
              "Blue" 45 H1 H2)
    as (_ & _ & v1 & v2 & l2 & l3 & _ & _ & Hu & Hd & _ & _ & Hh).
  exists v1, v2, l2, l3. split; [exact Hu|]. split; [exact Hd|].
  apply Hh. reflexivity.
Defined.

Lemma list_all_live_records_witness :
  exists l4 rs,
    invoke "tx5" Bank.GetAllLoanApplications l4 = (Ok rs, l4)
    /\ rs ≡ₚ [ created_loan "a" (mkLoanArgs "Ann" 100 6 rate_5_5);
               created_loan "c" (mkLoanArgs "Cy" 300 18 rate_5_5) ].
Proof.
  destruct (proj2 list_all_live_records "a" "b" "c"
              (mkLoanArgs "Ann" 100 6 rate_5_5) (mkLoanArgs "Bob" 200 12 rate_5_5)
              (mkLoanArgs "Cy" 300 18 rate_5_5) "tx1" "tx2" "tx3" "tx4" "tx5")
    as (l1 & l2 & l3 & l4 & rs & _ & _ & _ & _ & Hg & Hp);
    try discriminate; try reflexivity.
  exists l4, rs. split; assumption.
Defined.

(** C7, the claim as stated fails: the stored Pokemon has the largest
    [int] as its power and is not evolved; [EvolvePokemon] succeeds and
    the power read back is lower, not higher by 30. *)
Lemma evolve_wraps_power :
  exists p s' p',
    Pokemon.ReadPokemon "poke8" strongest_pokemon = (Ok p, strongest_pokemon)
    /\ Pokemon.Evolved p = false
    /\ Pokemon.Power p = MaxInt64
    /\ Pokemon.EvolvePokemon "poke8" strongest_pokemon = (Ok tt, s')
    /\ Pokemon.ReadPokemon "poke8" s' = (Ok p', s')
    /\ Pokemon.Power p' = MinInt64 + 29
    /\ Pokemon.Power p' <> Pokemon.Power p + 30.
Proof.
  eexists _, _, _.
  split; [vm_compute; reflexivity|]. split; [reflexivity|]. split; [reflexivity|].
  split; [vm_compute; reflexivity|]. split; [vm_compute; reflexivity|].
  split; [reflexivity|]. vm_compute. discriminate.
Qed.

Lemma evolve_pokemon_witness :
  world (ledger one_pokemon) !! "poke9" = Some (stored one_pokemon "poke9")
  /\ Pokemon.Unmarshal (stored one_pokemon "poke9") Pokemon.zero = Ok eevee
  /\ exists v' s',
      Pokemon.EvolvePokemon "poke9" one_pokemon = (Ok tt, s')
      /\ world (ledger s') = <["poke9" := v']> (world (ledger one_pokemon))
      /\ Pokemon.ReadPokemon "poke9" s'
         = (Ok (Pokemon.mkPokemon "poke9" "Eevee" "Normal" 70 "Gary" true "Celadon City"),
            s').
Proof.
  assert (H1 : world (ledger one_pokemon) !! "poke9" = Some (stored one_pokemon "poke9"))
    by (vm_compute; reflexivity).
  assert (H2 : Pokemon.Unmarshal (stored one_pokemon "poke9") Pokemon.zero = Ok eevee)
    by (vm_compute; reflexivity).
  split; [exact H1|]. split; [exact H2|].
  destruct (evolve_pokemon one_pokemon "poke9" _ eevee H1 H2)
    as (v' & s' & _ & He & Hw & Hr & _).
  exists v', s'. split; [exact He|]. split; [exact Hw|]. exact Hr.
Defined.


Lemma created_fields_are_fixed_witness :
  loans_created (ledger one_loan)
  /\ exists loan,
      Bank.Unmarshal (stored one_loan "loan1") Bank.zero = Ok loan
      /\ Bank.Status loan = "Pending".
Proof.
  assert (H1 : loans_created (ledger one_loan)).
  { apply (loans_create empty_ledger (ledger one_loan) "tx0" "loan1" "Afraz"
             10000 12 rate_5_5 loans_none); vm_compute; reflexivity. }
  split; [exact H1|].
  apply (proj1 (proj2 (proj2 created_fields_are_fixed)) (ledger one_loan) H1 "loan1").
  vm_compute. reflexivity.
Defined.

(** C10, the claim as stated fails: on the empty key the state access
    reports no error and finds no value, a write would be accepted, and
    [CreateLoanApplication] still fails: the rate is not a number. *)
Lemma create_fails_without_state_error :
  GetState "" fresh = Ok None
  /\ (forall v, is_ok (PutState "" v fresh) = true)
  /\ Bank.CreateLoanApplication "" "Afraz" 10000 12 rate_nan fresh
     = (Err ErrUnsupportedValue, fresh)
  /\ kind ErrUnsupportedValue <> AlreadyExistsError
  /\ kind ErrUnsupportedValue <> InfrastructureError.
Proof.
  split; [reflexivity|]. split; [intros v; reflexivity|].
  split; [vm_compute; reflexivity|]. split; discriminate.
Qed.

(** On the empty key itself both creates succeed. *)
Example create_on_empty_key :
  is_ok (fst (Bank.CreateLoanApplication "" "Afraz" 10000 12 rate_5_5 fresh)) = true
  /\ is_ok (fst (Identity.CreateIdentity "" "Mr." "John" "Doe" "12345-6789012-3"
                   "01-01-1980" "Male" "03001234567" fresh)) = true.
Proof. split; vm_compute; reflexivity. Qed.

(** * The further theorems at concrete inputs *)

Definition john : Identity.Identity :=
  Identity.new_identity "identity7" "Mr." "John" "Doe" "12345-6789012-3" "01-01-1980"
    "Male" "03001234567".

(** the state after one identity was created on a fresh ledger *)
Definition one_identity : Stub :=
  snd (Identity.CreateIdentity "identity7" "Mr." "John" "Doe" "12345-6789012-3"
         "01-01-1980" "Male" "03001234567" fresh).

(** the state after the one Pokemon has evolved *)
Definition evolved_pokemon : Stub := snd (Pokemon.EvolvePokemon "poke9" one_pokemon).

(** the ledgers [InitLedger] makes of the empty one *)
Definition seeded_loans : Ledger := snd (invoke "tx1" Bank.InitLedger empty_ledger).
Definition seeded_pokemons : Ledger := snd (invoke "tx1" Pokemon.InitLedger empty_ledger).
Definition seeded_identities : Ledger := snd (invoke "tx1" Identity.InitLedger empty_ledger).

(** a ledger with one live value, which no contract wrote *)
Definition foreign_value (v : bytes) : Stub := mkStub "tx0" (mkLedger {["x" := v]} ∅).

(** the engine's error for a property read on [undefined], a contract that
    accepts every transaction, a request body with a mobile number only *)
Definition engine_TypeError (name : string) : Gateway.js_error :=
  Gateway.mkError ("Cannot read properties of undefined (reading '" +:+ name +:+ "')").
Definition accepting : Gateway.Contract := fun _ => inr "".
Definition mobile_only : list (string * Gateway.jsvalue) :=
  [("mobile", Gateway.JSString "03007654321")].

Lemma reachable_loans_decode_witness :
  loans_reachable seeded_loans
  /\ exists rs,
      invoke "tx2" Bank.GetAllLoanApplications seeded_loans = (Ok rs, seeded_loans)
      /\ length rs = 2%nat.
Proof.
  assert (H1 : loans_reachable seeded_loans).
  { apply (loans_reach_step empty_ledger seeded_loans "tx1" CallLoanInitLedger (Ok tt)
             loans_reach_empty); [reflexivity | vm_compute; reflexivity]. }
  split; [exact H1|].
  destruct (proj2 (reachable_loans_decode seeded_loans H1) "tx2") as (rs & Hg & Hl).
  exists rs. split; [exact Hg|]. rewrite Hl. vm_compute. reflexivity.
Defined.

Lemma reachable_pokemons_decode_witness :
  pokemons_reachable seeded_pokemons
  /\ world seeded_pokemons !! "poke2" = Some (stored (mkStub "tx2" seeded_pokemons) "poke2")
  /\ exists p,
      invoke "tx2" (Pokemon.ReadPokemon "poke2") seeded_pokemons = (Ok p, seeded_pokemons)
      /\ Pokemon.ID p = "poke2".
Proof.
  assert (H1 : pokemons_reachable seeded_pokemons).
  { apply (pokemons_reach_step empty_ledger seeded_pokemons "tx1" CallPokemonInitLedger
             (Ok tt) pokemons_reach_empty); [reflexivity | vm_compute; reflexivity]. }
  assert (H2 : world seeded_pokemons !! "poke2"
               = Some (stored (mkStub "tx2" seeded_pokemons) "poke2"))
    by (vm_compute; reflexivity).
  split; [exact H1|]. split; [exact H2|].
  destruct (reachable_pokemons_decode seeded_pokemons H1 "poke2" _ H2)
    as (p & _ & Hid & _ & Hr).
  exists p. split; [apply Hr|]. rewrite Hid. vm_compute. reflexivity.
Defined.

Lemma reachable_identities_decode_witness :
  identities_reachable seeded_identities
  /\ exists rs,
      invoke "tx2" Identity.GetAllIdentities seeded_identities = (Ok rs, seeded_identities)
      /\ length rs = 1%nat.
Proof.
  assert (H1 : identities_reachable seeded_identities).
  { apply (identities_reach_step empty_ledger seeded_identities "tx1"
             CallIdentityInitLedger (Ok tt) identities_reach_empty).
    vm_compute. reflexivity. }
  split; [exact H1|].
  destruct (proj2 (reachable_identities_decode seeded_identities H1) "tx2")
    as (rs & Hg & Hl).
  exists rs. split; [exact Hg|]. rewrite Hl. vm_compute. reflexivity.
Defined.

Lemma update_pokemon_frame_witness :
  world (ledger one_pokemon) !! "poke9" = Some (stored one_pokemon "poke9")
  /\ Pokemon.Unmarshal (stored one_pokemon "poke9") Pokemon.zero = Ok eevee
  /\ is_int 45 = true
  /\ exists s',
      Pokemon.UpdatePokemon "poke9" "Blue" 45 one_pokemon = (Ok tt, s')
      /\ Pokemon.ReadPokemon "poke9" s'
         = (Ok (Pokemon.mkPokemon "poke9" "Eevee" "Normal" 45 "Blue" false "Celadon City"),
            s').
Proof.
  assert (H1 : world (ledger one_pokemon) !! "poke9" = Some (stored one_pokemon "poke9"))
    by (vm_compute; reflexivity).
  assert (H2 : Pokemon.Unmarshal (stored one_pokemon "poke9") Pokemon.zero = Ok eevee)
    by (vm_compute; reflexivity).
  assert (H3 : is_int 45 = true) by reflexivity.
  split; [exact H1|]. split; [exact H2|]. split; [exact H3|].
  destruct (update_pokemon_frame one_pokemon "poke9" _ eevee "Blue" 45 H1 H2 H3)
    as (v' & s' & _ & Hu & _ & _ & Hr).
  exists s'. split; [exact Hu|]. exact Hr.
Defined.

Lemma update_identity_frame_witness :
  world (ledger one_identity) !! "identity7" = Some (stored one_identity "identity7")
  /\ Identity.Unmarshal (stored one_identity "identity7") Identity.zero = Ok john
  /\ exists s' x,
      Identity.UpdateIdentity "identity7" "03007654321" "12 Mall Road" one_identity
      = (Ok tt, s')
      /\ Identity.ReadIdentity "identity7" s' = (Ok x, s')
      /\ Identity.MobileNumber x = "03007654321"
      /\ Identity.Address x = "12 Mall Road"
      /\ Identity.CNIC x = "12345-6789012-3".
Proof.
  assert (H1 : world (ledger one_identity) !! "identity7"
               = Some (stored one_identity "identity7")) by (vm_compute; reflexivity).
  assert (H2 : Identity.Unmarshal (stored one_identity "identity7") Identity.zero = Ok john)
    by (vm_compute; reflexivity).
  split; [exact H1|]. split; [exact H2|].
  destruct (update_identity_frame one_identity "identity7" _ john "03007654321"
              "12 Mall Road" H1 H2) as (v' & s' & _ & Hu & _ & _ & Hr).
  eexists s', _. split; [exact Hu|]. split; [exact Hr|].
  repeat split; vm_compute; reflexivity.
Defined.

Lemma evolve_only_once_witness :
  Pokemon.EvolvePokemon "poke9" one_pokemon = (Ok tt, evolved_pokemon)
  /\ Pokemon.EvolvePokemon "poke9" evolved_pokemon
     = (Err (ErrAlreadyEvolved "poke9"), evolved_pokemon).
Proof.
  assert (H1 : Pokemon.EvolvePokemon "poke9" one_pokemon = (Ok tt, evolved_pokemon))
    by (vm_compute; reflexivity).
  split; [exact H1|].
  exact (proj1 (evolve_only_once one_pokemon evolved_pokemon "poke9" H1)).
Defined.

Lemma create_pokemon_then_read_witness :
  is_int 40 = true
  /\ world (ledger fresh) !! "poke9" = None
  /\ exists s',
      Pokemon.CreatePokemon "poke9" "Eevee" "Normal" "Gary" "Celadon City" 40 fresh
      = (Ok tt, s')
      /\ Pokemon.ReadPokemon "poke9" s' = (Ok eevee, s').
Proof.
  assert (H1 : is_int 40 = true) by reflexivity.
  assert (H2 : world (ledger fresh) !! "poke9" = None) by reflexivity.
  split; [exact H1|]. split; [exact H2|].
  destruct (create_pokemon_then_read fresh "poke9" "Eevee" "Normal" "Gary" "Celadon City"
              40 H1 H2) as (v & s' & Hc & _ & _ & Hr & _).
  exists s'. split; [exact Hc|]. exact Hr.
Defined.

Lemma create_identity_then_read_witness :
  world (ledger fresh) !! "identity7" = None
  /\ exists s',
      Identity.CreateIdentity "identity7" "Mr." "John" "Doe" "12345-6789012-3"
        "01-01-1980" "Male" "03001234567" fresh = (Ok tt, s')
      /\ Identity.ReadIdentity "identity7" s' = (Ok john, s').
Proof.
  assert (H1 : world (ledger fresh) !! "identity7" = None) by reflexivity.
  split; [exact H1|].
  destruct (create_identity_then_read fresh "identity7" "Mr." "John" "Doe"
              "12345-6789012-3" "01-01-1980" "Male" "03001234567" H1)
    as (v & s' & Hc & _ & _ & Hr).
  exists s'. split; [exact Hc|]. exact Hr.
Defined.

Lemma delete_frees_key_witness :
  world (ledger one_loan) !! "loan1" = Some (stored one_loan "loan1")
  /\ exists s1,
      Bank.DeleteLoanApplication "loan1" one_loan = (Ok tt, s1)
      /\ world (ledger s1) = delete "loan1" (world (ledger one_loan))
      /\ Bank.LoanExists "loan1" s1 = (Ok false, s1).
Proof.
  assert (H1 : world (ledger one_loan) !! "loan1" = Some (stored one_loan "loan1"))
    by (vm_compute; reflexivity).
  split; [exact H1|].
  destruct (delete_frees_key one_loan "loan1" _ H1)
    as (s1 & Hd & _ & Hw & _ & _ & He & _).
  exists s1. split; [exact Hd|]. split; [exact Hw|]. exact He.
Defined.

Lemma get_all_fails_on_one_bad_value_witness :
  world (ledger (foreign_value "oops")) !! "x" = Some "oops"
  /\ Bank.Unmarshal "oops" Bank.zero = Err ErrSyntax
  /\ exists e',
      Bank.GetAllLoanApplications (foreign_value "oops") = (Err e', foreign_value "oops").
Proof.
  assert (H1 : world (ledger (foreign_value "oops")) !! "x" = Some "oops")
    by (vm_compute; reflexivity).
  assert (H2 : Bank.Unmarshal "oops" Bank.zero = Err ErrSyntax) by (vm_compute; reflexivity).
  split; [exact H1|]. split; [exact H2|].
  destruct (proj1 (get_all_fails_on_one_bad_value (foreign_value "oops") "x" "oops"
                     ErrSyntax H1) H2) as (k' & v' & e' & _ & _ & Hg).
  exists e'. exact Hg.
Defined.

Lemma read_accepts_any_object_witness :
  world (ledger (foreign_value "{}")) !! "x" = Some "{}"
  /\ names_no_field (Bank.fields Bank.zero) "{}" = true
  /\ Bank.ReadLoanApplication "x" (foreign_value "{}") = (Ok Bank.zero, foreign_value "{}").
Proof.
  assert (H1 : world (ledger (foreign_value "{}")) !! "x" = Some "{}")
    by (vm_compute; reflexivity).
  assert (H2 : names_no_field (Bank.fields Bank.zero) "{}" = true)
    by (vm_compute; reflexivity).
  split; [exact H1|]. split; [exact H2|].
  exact (proj1 (proj1 (read_accepts_any_object (foreign_value "{}") "x" "{}" H1) H2)).
Defined.

Lemma put_without_address_erases_it_witness :
  Gateway.lookup_prop mobile_only "mobile" = Gateway.JSString "03007654321"
  /\ "03007654321" <> ""
  /\ Gateway.ToBoolean (Gateway.lookup_prop mobile_only "address") = false
  /\ world (ledger one_identity) !! "identity7" = Some (stored one_identity "identity7")
  /\ Identity.Unmarshal (stored one_identity "identity7") Identity.zero = Ok john
  /\ snd (Gateway.put_identity engine_TypeError (Some accepting) "identity7"
            (Gateway.JSObject mobile_only))
     = [Gateway.mkCall "UpdateIdentity"
          [Gateway.JSString "identity7"; Gateway.JSString "03007654321";
           Gateway.JSString ""]].
Proof.
  assert (H1 : Gateway.lookup_prop mobile_only "mobile" = Gateway.JSString "03007654321")
    by reflexivity.
  assert (H2 : "03007654321" <> "") by discriminate.
  assert (H3 : Gateway.ToBoolean (Gateway.lookup_prop mobile_only "address") = false)
    by reflexivity.
  assert (H4 : world (ledger one_identity) !! "identity7"
               = Some (stored one_identity "identity7")) by (vm_compute; reflexivity).
  assert (H5 : Identity.Unmarshal (stored one_identity "identity7") Identity.zero = Ok john)
    by (vm_compute; reflexivity).
  split; [exact H1|]. split; [exact H2|]. split; [exact H3|]. split; [exact H4|].
  split; [exact H5|].
  exact (proj1 (put_without_address_erases_it engine_TypeError accepting "identity7"
                  "03007654321" mobile_only one_identity _ john H1 H2 H3 H4 H5)).
Defined.
